(** * DREW agent relay: a shallow embedding of the session engine

    The development follows the Python sources of the repository:

    - [app/tools_integration/zillow_integration.py]  ([Module Zillow])
    - [app/models/models.py]                         ([Module Models])
    - [app/src/llm.py] and the older [app/llm.py]    ([Module Llm])
    - [app/server.py]                                ([Module Server])

    Python exceptions are values of [exn]; a computation that may raise
    returns [result A].  Generators are modelled by the list of effects
    they perform, in order. *)

From Stdlib Require Import ZArith String List Bool Ascii Lia SpecFloat Sorted.
From stdpp Require Import base option list gmap strings.
Import ListNotations.
Local Open Scope Z_scope.

(* ===================================================================== *)
(** * Python prelude: exceptions and the error monad                      *)
(* ===================================================================== *)

Module Py.

(** The exception classes the modelled code can raise.  All of them are
    subclasses of [Exception]. *)
Inductive exn_class : Set :=
| KeyError | IndexError | TypeError | ValueError | AttributeError
| OverflowError | UnboundLocalError | WebSocketDisconnect | RuntimeError.

Definition exn_class_eqb (a b : exn_class) : bool :=
  match a, b with
  | KeyError, KeyError | IndexError, IndexError | TypeError, TypeError
  | ValueError, ValueError | AttributeError, AttributeError
  | OverflowError, OverflowError | UnboundLocalError, UnboundLocalError
  | WebSocketDisconnect, WebSocketDisconnect
  | RuntimeError, RuntimeError => true
  | _, _ => false
  end.

(** An exception instance: its class and [str(e)]. *)
Record exn : Set := Exn { exn_cls : exn_class; exn_str : string }.

(** [Raise e] is a raised exception, [Ok a] a normal return. *)
Inductive result (A : Type) : Type :=
| Ok (a : A)
| Raise (e : exn).
Arguments Ok {A} a.
Arguments Raise {A} e.

Definition bind {A B} (m : result A) (k : A -> result B) : result B :=
  match m with
  | Ok a => k a
  | Raise e => Raise e
  end.

(** [d[key]] on a dictionary entry that may be missing. *)
Definition getitem {A} (key : string) (o : option A) : result A :=
  match o with
  | Some a => Ok a
  | None => Raise (Exn KeyError key)
  end.

(** Truth value of a Python string: the empty string is falsy. *)
Definition str_truthy (s : string) : bool :=
  match s with
  | EmptyString => false
  | String _ _ => true
  end.

(** Truth value of an attribute holding a string or [None]. *)
Definition opt_truthy (o : option string) : bool :=
  match o with
  | Some s => str_truthy s
  | None => false
  end.

(** [random.choice(seq)] with the drawn position made explicit; an
    empty sequence raises [IndexError]. *)
Definition choice {A} (seq : list A) (draw : nat) : result A :=
  match seq with
  | [] => Raise (Exn IndexError "Cannot choose from an empty sequence")
  | a :: _ => Ok (nth (Nat.modulo draw (length seq)) seq a)
  end.

(** Decoded JSON, as [json.loads] and [response.json()] return it. *)
#[local] Unset Elimination Schemes.
Inductive json : Type :=
| JNull
| JBool (b : bool)
| JInt (z : Z)
| JStr (s : string)
| JList (items : list json)
| JDict (entries : list (string * json)).
#[local] Set Elimination Schemes.

(** [d.get(key)] on the entries of a decoded object. *)
Fixpoint assoc (key : string) (entries : list (string * json)) : option json :=
  match entries with
  | [] => None
  | (k, v) :: rest => if String.eqb k key then Some v else assoc key rest
  end.

(** A computation that performs effects of type [E], in order, and
    then returns or raises. *)
Record Eff (E A : Type) : Type := mkEff {
  trace : list E;
  outcome : result A
}.
Arguments mkEff {E A} trace outcome.
Arguments trace {E A} _.
Arguments outcome {E A} _.

Definition lift {E A} (r : result A) : Eff E A := mkEff [] r.
Definition perform {E} (e : E) : Eff E unit := mkEff [e] (Ok tt).

(** [try: m except Exception as e: h e]. *)
Definition try_except {E A} (m : Eff E A) (h : exn -> Eff E A) : Eff E A :=
  match outcome m with
  | Ok a => m
  | Raise e => mkEff (trace m ++ trace (h e)) (outcome (h e))
  end.

End Py.
Import Py.

#[global] Instance result_ret : MRet result := fun A a => Ok a.
#[global] Instance result_bind : MBind result :=
  fun A B k m => Py.bind m k.

#[global] Instance eff_ret {E} : MRet (Eff E) := fun A a => mkEff [] (Ok a).
#[global] Instance eff_bind {E} : MBind (Eff E) := fun A B k m =>
  match outcome m with
  | Ok a => mkEff (trace m ++ trace (k a)) (outcome (k a))
  | Raise e => mkEff (trace m) (Raise e)
  end.

(* ===================================================================== *)
(** * app/tools_integration/zillow_integration.py                         *)
(* ===================================================================== *)

Module Zillow.

(** A value found in a decoded provider response.  Floats are IEEE
    binary64 values in the sense of [SpecFloat]; containers are opaque
    to the numeric parsers. *)
Inductive pyval : Type :=
| VNone
| VBool (b : bool)
| VInt (z : Z)
| VFloat (f : spec_float)
| VStr (s : string)
| VList
| VDict.

Definition prec : Z := 53.
Definition emax : Z := 1024.

(** [float(z)] for a Python integer: nearest binary64, and
    [OverflowError] when the magnitude exceeds the largest double. *)
Definition float_of_int (z : Z) : result spec_float :=
  match binary_normalize prec emax z 0 false with
  | S754_infinity _ =>
      Raise (Exn OverflowError "int too large to convert to float")
  | f => Ok f
  end.

Section Parsers.

(** [float(s)] for a string is the C-level decimal parser; it is a
    parameter of the model.  [None] is a [ValueError]. *)
Variable float_of_str : string -> option spec_float.

(** Python's [float(value)]. *)
Definition py_float (value : pyval) : result spec_float :=
  match value with
  | VNone =>
      Raise (Exn TypeError "float() argument must be a string or a real number")
  | VBool b => Ok (if b then S754_finite false 4503599627370496 (-52)
                   else S754_zero false)
  | VInt z => float_of_int z
  | VFloat f => Ok f
  | VStr s =>
      match float_of_str s with
      | Some f => Ok f
      | None => Raise (Exn ValueError "could not convert string to float")
      end
  | VList | VDict =>
      Raise (Exn TypeError "float() argument must be a string or a real number")
  end.

(** Python's [int(f)] on a float: truncation towards zero. *)
Definition py_int_of_float (f : spec_float) : result Z :=
  match f with
  | S754_zero _ => Ok 0
  | S754_infinity _ =>
      Raise (Exn OverflowError "cannot convert float infinity to integer")
  | S754_nan =>
      Raise (Exn ValueError "cannot convert float NaN to integer")
  | S754_finite s m e =>
      let mag := if 0 <=? e then Z.pos m * 2 ^ e
                 else Z.pos m / 2 ^ (- e) in
      Ok (if s then - mag else mag)
  end.

(** [except (ValueError, TypeError)]. *)
Definition caught (e : exn) : bool :=
  match exn_cls e with
  | ValueError | TypeError => true
  | _ => false
  end.

(** [Property.safe_int]. *)
Definition safe_int (value : pyval) (default : Z) : result Z :=
  match value with
  | VNone => Ok default
  | _ =>
      match py_float value ≫= py_int_of_float with
      | Ok n => Ok n
      | Raise e => if caught e then Ok default else Raise e
      end
  end.

(** [Property.safe_float]. *)
Definition safe_float (value : pyval) (default : spec_float)
  : result spec_float :=
  match value with
  | VNone => Ok default
  | _ =>
      match py_float value with
      | Ok f => Ok f
      | Raise e => if caught e then Ok default else Raise e
      end
  end.

(** [str(value)] is a parameter of the model as well. *)
Variable py_str : pyval -> string.

(** The dataclass [Property]. *)
Record Property : Type := mkProperty {
  address : string;
  price : spec_float;
  bedrooms : Z;
  bathrooms : spec_float;
  living_area : spec_float;
  lot_area : option spec_float;
  lot_area_unit : option string;
  property_type : string;
  zestimate : option spec_float;
  rent_estimate : option spec_float;
  days_on_zillow : Z;
  listing_status : string;
  latitude : spec_float;
  longitude : spec_float
}.

(** [s.split(' ')]: every single blank separates two parts. *)
Fixpoint split_blank (s : string) (cur : string) : list string :=
  match s with
  | EmptyString => [cur]
  | String c s' =>
      if Ascii.eqb c " "%char then cur :: split_blank s' EmptyString
      else split_blank s' (cur +:+ String c EmptyString)
  end.

Definition is_digit_char (c : ascii) : bool :=
  let n := nat_of_ascii c in (48 <=? n)%nat && (n <=? 57)%nat.

Fixpoint all_digits (s : string) : bool :=
  match s with
  | EmptyString => true
  | String c s' => is_digit_char c && all_digits s'
  end.

(** [part.isdigit()] on ASCII text: non-empty and digits only. *)
Definition isdigit (s : string) : bool := str_truthy s && all_digits s.

(** [' '.join(parts)]. *)
Fixpoint join_blank (parts : list string) : string :=
  match parts with
  | [] => EmptyString
  | [p] => p
  | p :: rest => p +:+ " " +:+ join_blank rest
  end.

(** [prop.get(key)] and [prop.get(key, '')]. *)
Definition get (prop : gmap string pyval) (key : string) : pyval :=
  default VNone (prop !! key).
Definition get_str (prop : gmap string pyval) (key : string) : string :=
  match prop !! key with
  | Some v => py_str v
  | None => EmptyString
  end.

Definition zero : spec_float := S754_zero false.

(** The body of the loop of [parse_api1_response] for one entry of
    [props] that is a dictionary: keyword arguments are evaluated
    left to right, and the first one that raises ends the call. *)
Definition parse_api1_prop (prop : gmap string pyval) : result Property :=
  let address_parts := split_blank (get_str prop "address") EmptyString in
  let cleaned_parts := List.filter (fun part => negb (isdigit part)) address_parts in
  let cleaned_address := join_blank cleaned_parts in
  price ← safe_float (get prop "price") zero;
  bedrooms ← safe_int (get prop "bedrooms") 0;
  bathrooms ← safe_float (get prop "bathrooms") zero;
  living_area ← safe_float (get prop "livingArea") zero;
  lot_area ← safe_float (get prop "lotAreaValue") zero;
  zestimate ← safe_float (get prop "zestimate") zero;
  rent_estimate ← safe_float (get prop "rentZestimate") zero;
  days_on_zillow ← safe_int (get prop "daysOnZillow") 0;
  latitude ← safe_float (get prop "latitude") zero;
  longitude ← safe_float (get prop "longitude") zero;
  mret (mkProperty cleaned_address price bedrooms bathrooms living_area
          (Some lot_area) (Some (get_str prop "lotAreaUnit"))
          (get_str prop "propertyType") (Some zestimate)
          (Some rent_estimate) days_on_zillow
          (get_str prop "listingStatus") latitude longitude).

End Parsers.

End Zillow.

(* ===================================================================== *)
(** * app/models/models.py                                                *)
(* ===================================================================== *)

Module Models.

(** Naive [datetime] values: a calendar date and a time of day. *)
Record date : Set := mkDate { year : Z; month : Z; day : Z }.
Record datetime : Set :=
  mkDatetime { dt_date : date; hour : Z; minute : Z; second : Z }.

Definition date_eqb (a b : date) : bool :=
  (year a =? year b) && (month a =? month b) && (day a =? day b).

Definition is_leap (y : Z) : bool :=
  (y mod 4 =? 0) && (negb (y mod 100 =? 0) || (y mod 400 =? 0)).

Definition days_in_month (y m : Z) : Z :=
  if m =? 2 then (if is_leap y then 29 else 28)
  else if (m =? 4) || (m =? 6) || (m =? 9) || (m =? 11) then 30
  else 31.

Definition valid_date (d : date) : bool :=
  (1 <=? year d) && (year d <=? 9999) &&
  (1 <=? month d) && (month d <=? 12) &&
  (1 <=? day d) && (day d <=? days_in_month (year d) (month d)).

(** The calendar day after [d]. *)
Definition next_day (d : date) : date :=
  if day d <? days_in_month (year d) (month d)
  then mkDate (year d) (month d) (day d + 1)
  else if month d <? 12 then mkDate (year d) (month d + 1) 1
  else mkDate (year d + 1) 1 1.

(** [d.toordinal()]: days since 0001-01-01, counted from 1. *)
Definition days_before_year (y : Z) : Z :=
  let p := y - 1 in p * 365 + p / 4 - p / 100 + p / 400.

Fixpoint days_before_month_aux (y : Z) (m : nat) : Z :=
  match m with
  | O => 0
  | S m' => days_before_month_aux y m' + days_in_month y (Z.of_nat m)
  end.

Definition days_before_month (y m : Z) : Z :=
  days_before_month_aux y (Z.to_nat (m - 1)).

Definition toordinal (d : date) : Z :=
  days_before_year (year d) + days_before_month (year d) (month d) + day d.

(** [now + timedelta(days=1)]: same time of day on the next calendar
    day; [OverflowError] past year 9999. *)
Definition add_one_day (now : datetime) : result datetime :=
  let d := next_day (dt_date now) in
  if 9999 <? year d then Raise (Exn OverflowError "date value out of range")
  else Ok (mkDatetime d (hour now) (minute now) (second now)).

(** [x in [a, b]] on dates. *)
Definition date_in (x : date) (l : list date) : bool := existsb (date_eqb x) l.

(** The pydantic model [CallRequest]. *)
Record CallRequest : Set := mkCallRequest {
  contact_name : string;
  discussion_points : option string;
  call_time : string
}.

(** The payload posted to [/initiate_call]. *)
Record call_data : Set := mkCallData {
  cd_user_id : option string;
  cd_contact_name : string;
  cd_call_time : datetime;
  cd_discussion_points : option string
}.

(** An HTTP answer: status code and the outcome of [response.json()]. *)
Record response : Type := mkResponse { status : Z; body : result json }.

(** What [execute] depends on besides its arguments. *)
Record world : Type := mkWorld {
  fromisoformat : string -> result datetime;   (* [datetime.fromisoformat] *)
  now : datetime;                              (* [datetime.now()] *)
  post : string -> call_data -> result response;  (* [session.post(url, json=...)] *)
  render : json -> string                      (* [str(value)] in an f-string *)
}.

(** The outcome of one call of [execute] and the requests it posted. *)
Record run : Type := mkRun {
  outcome : result json;
  posted : list (string * call_data)
}.

Definition validation_message : string :=
  "Call time must be either now (today) or the next day.".

(** [response_data.get('message', 'Unknown error occurred')]. *)
Definition get_message (w : world) (response_data : json) : result string :=
  match response_data with
  | JDict entries =>
      Ok (match assoc "message" entries with
          | Some v => render w v
          | None => "Unknown error occurred"
          end)
  | JList _ => Raise (Exn AttributeError "'list' object has no attribute 'get'")
  | JStr _ => Raise (Exn AttributeError "'str' object has no attribute 'get'")
  | JInt _ => Raise (Exn AttributeError "'int' object has no attribute 'get'")
  | JBool _ => Raise (Exn AttributeError "'bool' object has no attribute 'get'")
  | JNull => Raise (Exn AttributeError "'NoneType' object has no attribute 'get'")
  end.

(** [CallRequest.execute].  The handler [except Exception: print; raise]
    re-raises what it caught, so a raised exception is the outcome. *)
Definition execute (w : world) (self : CallRequest)
    (backend_url : string) (user_id : option string) : run :=
  match fromisoformat w (call_time self) with
  | Raise e => mkRun (Raise e) []
  | Ok call_datetime =>
      let now := now w in
      match add_one_day now with
      | Raise e => mkRun (Raise e) []
      | Ok tomorrow =>
          if negb (date_in (dt_date call_datetime)
                     [dt_date now; dt_date tomorrow])
          then mkRun (Raise (Exn ValueError validation_message)) []
          else
            let call_data :=
              mkCallData user_id (contact_name self) call_datetime
                (discussion_points self) in
            let call_url := backend_url +:+ "/initiate_call" in
            mkRun
              (response ← post w call_url call_data;
               response_data ← body response;
               if (status response =? 200) || (status response =? 202)
               then Ok response_data
               else if status response =? 300 then Ok response_data
               else if status response =? 404 then Ok response_data
               else
                 error_message ← get_message w response_data;
                 Raise (Exn ValueError ("Booking failed: " +:+ error_message)))
              [(call_url, call_data)]
      end
  end.

End Models.

(* ===================================================================== *)
(** * app/src/llm.py (and the older app/llm.py)                           *)
(* ===================================================================== *)

Module Llm.

(** ** Wire types ([custom_types]) *)

(** Modelled from the spec: the response frame of [custom_types], a
    module that is not among the sources; its fields are those of the
    Response frame of the specification and of the constructor calls in
    [llm.py] and [server.py]. *)
Record ResponseResponse : Set := mkResponse {
  response_id : Z;
  content : string;
  content_complete : bool;
  end_call : bool
}.

(** Modelled from the spec: one transcript entry of [custom_types],
    with the role and content that [convert_transcript_to_messages]
    reads. *)
Record Utterance : Set := mkUtterance { role : string; u_content : string }.

(** Modelled from the spec: the interaction request of [custom_types],
    with the three fields [handle_response_required] passes to it. *)
Record ResponseRequiredRequest : Set := mkRequest {
  interaction_type : string;
  req_response_id : Z;
  transcript : list Utterance
}.

(** ** Model stream *)

(** [tool_call.function] of a streamed delta. *)
Record FunctionDelta : Set := mkFunctionDelta {
  fn_name : option string;
  fn_arguments : option string
}.

(** One entry of [delta.tool_calls]. *)
Record ToolCallDelta : Set := mkToolCallDelta {
  tc_index : option Z;
  tc_id : option string;
  tc_function : option FunctionDelta
}.

(** [chunk.choices[0].delta]; an absent [tool_calls] is the empty list. *)
Record Delta : Set := mkDelta {
  d_tool_calls : list ToolCallDelta;
  d_content : option string
}.

Record Chunk : Set := mkChunk { choices : list Delta }.

(** A streamed completion: the chunks it delivers and the exception,
    if any, that iterating it raises after the last of them. *)
Record Stream : Set := mkStream {
  chunks : list Chunk;
  fault : option exn
}.

(** An entry of [current_tool_calls]; its ["type"] is always
    ["function"]. *)
Record ToolCall : Set := mkToolCall {
  id : option string;
  name : string;
  arguments : string
}.

(** A chat message sent to the model. *)
Inductive message : Set :=
| Plain (role content : string)
| AssistantCalls (content : string) (tool_calls : list ToolCall)
| ToolResult (tool_call_id : option string) (name : string) (content : string).

(** ** Session state of [LlmClient] *)

Record LlmClient : Type := mkClient {
  call_id : option string;
  metadata : option (gmap string string);
  message_history : list message;
  conversations : list (string * list message);
  client_open : bool
}.

(** [LlmClient.__init__]. *)
Definition init : LlmClient := mkClient None None [] [] true.

(** Truth value of [self.metadata]: [None] and the empty dictionary
    are falsy. *)
Definition metadata_truthy (m : option (gmap string string)) : bool :=
  match m with
  | Some d => negb (bool_decide (d = ∅))
  | None => false
  end.

(** ** Effects of a generation cycle *)

Inductive effect : Type :=
| Yield (r : ResponseResponse)                        (* [yield r] *)
| Create (messages : list message) (with_tools : bool) (* [chat.completions.create] *)
| Invoke (tool_name : string) (args : json).          (* [self._execute_tool(name, args)] *)

(** A step of the generator: effects, then a return or a raise. *)
Abbreviation Gen := (Eff effect).

Definition yield (r : ResponseResponse) : Gen unit := perform (Yield r).

(** The fragments a trace yields, in order. *)
Definition fragments (t : list effect) : list ResponseResponse :=
  omap (fun e => match e with Yield r => Some r | _ => None end) t.

(** ** Accumulation of streamed tool calls *)

(** [l[i]] position for a Python index: negative indices count from
    the end, anything else out of range raises [IndexError]. *)
Definition py_index {A} (l : list A) (i : Z) : result nat :=
  let n := Z.of_nat (length l) in
  if (0 <=? i) && (i <? n) then Ok (Z.to_nat i)
  else if (- n <=? i) && (i <? 0) then Ok (Z.to_nat (n + i))
  else Raise (Exn IndexError "list index out of range").

(** [current_tool_calls[tool_call.index]] as a position. *)
Definition subscript (calls : list ToolCall) (index : option Z) : result nat :=
  match index with
  | Some i => py_index calls i
  | None => Raise (Exn TypeError "list indices must be integers or slices, not NoneType")
  end.

Definition set_name (n : string) (c : ToolCall) : ToolCall :=
  mkToolCall (id c) n (arguments c).
Definition add_arguments (a : string) (c : ToolCall) : ToolCall :=
  mkToolCall (id c) (name c) (arguments c +:+ a).

(** The body of [for tool_call in delta.tool_calls]. *)
Definition accumulate (calls : list ToolCall) (tool_call : ToolCallDelta)
  : result (list ToolCall) :=
  let calls :=
    match tc_index tool_call with
    | Some i =>
        if Z.of_nat (length calls) <=? i
        then calls ++ [mkToolCall (tc_id tool_call) "" ""]
        else calls
    | None => calls
    end in
  function ← match tc_function tool_call with
             | Some f => Ok f
             | None => Raise (Exn AttributeError "'NoneType' object has no attribute 'name'")
             end;
  calls ← match fn_name function with
          | Some n =>
              if str_truthy n then
                k ← subscript calls (tc_index tool_call);
                Ok (alter (set_name n) k calls)
              else Ok calls
          | None => Ok calls
          end;
  match fn_arguments function with
  | Some a =>
      if str_truthy a then
        k ← subscript calls (tc_index tool_call);
        Ok (alter (add_arguments a) k calls)
      else Ok calls
  | None => Ok calls
  end.

(** The whole inner loop over [delta.tool_calls]. *)
Fixpoint accumulate_all (calls : list ToolCall) (tcs : list ToolCallDelta)
  : result (list ToolCall) :=
  match tcs with
  | [] => Ok calls
  | tc :: rest => calls' ← accumulate calls tc; accumulate_all calls' rest
  end.

(** ** app/core/config.py *)

Module settings.

Definition opening_lines : list string := [
  "Hi, I'm Drew, your virtual real estate assistant. How can I help you today?";
  "Hello, I'm Drew! Ready to assist with all your real estate needs. What can I do for you?";
  "Hey there, I'm Drew! Looking for your dream home or need help with your listings?";
  "Hi, I'm Drew. Let's find the perfect property or tackle your real estate tasks together!";
  "Hello, I'm Drew, your AI assistant. Let's make your real estate journey smoother. What's on your mind?";
  "Hi, I'm Drew! Here to help with buying, selling, or managing your real estate needs.";
  "Hello, I'm Drew. Whether it's scheduling a showing or finding leads, I've got you covered!";
  "Hi there, I'm Drew! Ready to help with everything from listings to leads. How can I assist?";
  "Hey, I'm Drew, your personal real estate assistant. Let's get to work!";
  "Hi, I'm Drew! Need help finding a home or managing your clients? Just say the word!"
].

Definition wait_variants : list string := [
  "Sure thing, just a sec."; "Hold on, let me check.";
  "Got it, give me a moment."; "Of course, let me sort that out.";
  "Alright, let me handle that."; "No problem, just a moment.";
  "Okay, let me get that for you."; "One second, I’m on it.";
  "Alright, let me take care of that.";
  "Sure, just a bit of patience."; "Right away, hold tight.";
  "Absolutely, hang on for a sec."; "Let me get to that real quick.";
  "Certainly, one moment, please.";
  "I’ll take care of it in just a second."
].

End settings.

(** ** What a generation cycle depends on besides the session *)

Record world : Type := mkWorld {
  (* the f-string assembly of [prepare_prompt]: persona, date and
     personalised context; formatting stored dates can raise *)
  system_prompt : LlmClient -> ResponseRequiredRequest -> result string;
  (* [chat.completions.create(..., tools=..., stream=True)] *)
  first_completion : list message -> result Stream;
  (* [chat.completions.create(model, messages, stream=True)] *)
  final_completion : list message -> result Stream;
  json_loads : string -> result json;
  json_dumps : json -> string;
  (* the pydantic constructor of the tool, applied to the arguments *)
  construct : string -> json -> result unit;
  (* [.execute(...)] of a constructed tool, given the identities
     taken from the metadata *)
  run_tool : string -> json -> list (option string) -> result json;
  (* the position [random.choice] draws among the wait variants *)
  wait_draw : nat
}.

(** ** Prompt assembly *)

(** [convert_transcript_to_messages]. *)
Definition convert_transcript_to_messages (self : LlmClient)
    (transcript : list Utterance) : list message :=
  message_history self ++
  List.map (fun utterance =>
              if String.eqb (role utterance) "agent"
              then Plain "assistant" (u_content utterance)
              else Plain "user" (u_content utterance)) transcript.

Definition reminder_instruction : string :=
  "(Provide tailored recommendations based on the agent's recent activity and pending follow-ups:)".

(** [prepare_prompt]. *)
Definition prepare_prompt (w : world) (self : LlmClient)
    (request : ResponseRequiredRequest) : result (list message) :=
  system_prompt ← system_prompt w self request;
  let messages := [Plain "system" system_prompt] in
  let transcript_messages :=
    convert_transcript_to_messages self (transcript request) in
  let messages := messages ++ transcript_messages in
  if String.eqb (interaction_type request) "reminder_required"
  then Ok (messages ++ [Plain "user" reminder_instruction])
  else Ok messages.

(** ** Tool Invoker *)

(** [self.metadata.get(key)] inside [_execute_tool]. *)
Definition metadata_get (self : LlmClient) (key : string)
  : result (option string) :=
  match metadata self with
  | Some d => Ok (d !! key)
  | None => Raise (Exn AttributeError "'NoneType' object has no attribute 'get'")
  end.

(** [_execute_tool] of app/src/llm.py. *)
Definition _execute_tool (w : world) (self : LlmClient)
    (tool_name : string) (args : json) : Gen json :=
  perform (Invoke tool_name args);;
  lift (
    if String.eqb tool_name "PlacesSearch" then
      construct w tool_name args;; run_tool w tool_name args []
    else if String.eqb tool_name "BookingRequest" then
      construct w tool_name args;;
      user_id ← metadata_get self "user_id"; run_tool w tool_name args [user_id]
    else if String.eqb tool_name "CallRequest" then
      construct w tool_name args;;
      user_id ← metadata_get self "user_id"; run_tool w tool_name args [user_id]
    else if String.eqb tool_name "MessageRequest" then
      construct w tool_name args;;
      user_id ← metadata_get self "user_id"; run_tool w tool_name args [user_id]
    else if String.eqb tool_name "PropertySearch" then
      construct w tool_name args;; run_tool w tool_name args []
    else Raise (Exn ValueError ("Unknown tool: " +:+ tool_name))).

(** [_execute_tool] of the older app/llm.py. *)
Definition _execute_tool_old (w : world) (self : LlmClient)
    (tool_name : string) (args : json) : Gen json :=
  perform (Invoke tool_name args);;
  lift (
    if String.eqb tool_name "PlacesSearch" then
      construct w tool_name args;; run_tool w tool_name args []
    else if String.eqb tool_name "BookingRequest" then
      construct w tool_name args;;
      user_id ← metadata_get self "user_id";
      lead_id ← metadata_get self "lead_id";
      run_tool w tool_name args [user_id; lead_id]
    else Raise (Exn ValueError ("Unknown tool: " +:+ tool_name))).

(** ** The generation cycle *)

Definition text_fragment (request : ResponseRequiredRequest) (text : string)
  : ResponseResponse :=
  mkResponse (req_response_id request) text false false.

(** [chunk.choices[0]]. *)
Definition first_choice (chunk : Chunk) : result Delta :=
  match choices chunk with
  | d :: _ => Ok d
  | [] => Raise (Exn IndexError "list index out of range")
  end.

(** [async for chunk in response] of the first pass: tool-call deltas
    are accumulated, text deltas are yielded at once. *)
Fixpoint consume_first (request : ResponseRequiredRequest)
    (chunks : list Chunk) (fault : option exn)
    (current_tool_calls : list ToolCall) (current_content : string)
  : Gen (list ToolCall * string) :=
  match chunks with
  | [] =>
      match fault with
      | Some e => lift (Raise e)
      | None => mret (current_tool_calls, current_content)
      end
  | chunk :: rest =>
      delta ← lift (first_choice chunk);
      current_tool_calls ←
        lift (accumulate_all current_tool_calls (d_tool_calls delta));
      current_content ←
        match d_content delta with
        | Some text =>
            if str_truthy text then
              yield (text_fragment request text);;
              mret (current_content +:+ text)
            else mret current_content
        | None => mret current_content
        end;
      consume_first request rest fault current_tool_calls current_content
  end.

(** [async for chunk in final_response]. *)
Fixpoint consume_final (request : ResponseRequiredRequest)
    (chunks : list Chunk) (fault : option exn) : Gen unit :=
  match chunks with
  | [] =>
      match fault with
      | Some e => lift (Raise e)
      | None => mret tt
      end
  | chunk :: rest =>
      delta ← lift (first_choice chunk);
      match d_content delta with
      | Some text =>
          if str_truthy text then yield (text_fragment request text)
          else mret tt
      | None => mret tt
      end;;
      consume_final request rest fault
  end.

Definition error_payload (e : exn) : json :=
  JDict [("error", JStr ("Error executing tool: " +:+ exn_str e))].

Definition tool_message (w : world) (tool_call : ToolCall) (result : json)
  : message :=
  ToolResult (id tool_call) (name tool_call) (json_dumps w result).

(** The tool loop of app/src/llm.py: every call appends one tool
    message, the failed ones with an error payload. *)
Fixpoint run_tools (w : world) (self : LlmClient) (calls : list ToolCall)
  : Gen (list message) :=
  match calls with
  | [] => mret []
  | tool_call :: rest =>
      result ← try_except
                 (args ← lift (json_loads w (arguments tool_call));
                  _execute_tool w self (name tool_call) args)
                 (fun e => mret (error_payload e));
      tool_results ← run_tools w self rest;
      mret (tool_message w tool_call result :: tool_results)
  end.

Definition search_apology : string :=
  "I encountered an issue while searching. Let me try a different approach. ".

(** The tool loop of the older app/llm.py: a failed call yields an
    apology and appends nothing. *)
Fixpoint run_tools_old (w : world) (self : LlmClient)
    (request : ResponseRequiredRequest) (calls : list ToolCall)
  : Gen (list message) :=
  match calls with
  | [] => mret []
  | tool_call :: rest =>
      appended ← try_except
                   (args ← lift (json_loads w (arguments tool_call));
                    result ← _execute_tool_old w self (name tool_call) args;
                    mret [tool_message w tool_call result])
                   (fun e =>
                      yield (text_fragment request search_apology);;
                      mret []);
      tool_results ← run_tools_old w self request rest;
      mret (appended ++ tool_results)
  end.

Definition complete_fragment (request : ResponseRequiredRequest)
  : ResponseResponse :=
  mkResponse (req_response_id request) "" true false.

Definition apology : string :=
  "I apologize, but I encountered an unexpected error. Could you please try again? ".

Definition error_fragment (request : ResponseRequiredRequest)
  : ResponseResponse :=
  mkResponse (req_response_id request) apology true false.

(** The [try] block of [draft_response], with the tool loop as a
    parameter. *)
Definition cycle
    (tools : list ToolCall -> Gen (list message))
    (w : world) (self : LlmClient) (request : ResponseRequiredRequest)
  : Gen unit :=
  messages ← lift (prepare_prompt w self request);
  perform (Create messages true);;
  response ← lift (first_completion w messages);
  '(current_tool_calls, current_content) ←
    consume_first request (chunks response) (fault response) [] "";
  match current_tool_calls with
  | _ :: _ =>
      filler ← lift (choice settings.wait_variants (wait_draw w));
      yield (text_fragment request filler);;
      tool_results ← tools current_tool_calls;
      let messages :=
        messages ++ [AssistantCalls current_content current_tool_calls]
                 ++ tool_results in
      perform (Create messages false);;
      final_response ← lift (final_completion w messages);
      consume_final request (chunks final_response) (fault final_response)
  | [] => mret tt
  end;;
  yield (complete_fragment request).

(** [draft_response] of app/src/llm.py, run to exhaustion: the effects
    of the generator in order. *)
Definition draft_response (w : world) (self : LlmClient)
    (request : ResponseRequiredRequest) : list effect :=
  trace (try_except (cycle (run_tools w self) w self request)
           (fun e => yield (error_fragment request))).

(** [draft_response] of the older app/llm.py.  Its prompt is the one of
    [prepare_prompt] but for the wording of the sentence added for a
    reminder, which only the messages handed to the model carry. *)
Definition draft_response_old (w : world) (self : LlmClient)
    (request : ResponseRequiredRequest) : list effect :=
  trace (try_except (cycle (run_tools_old w self request) w self request)
           (fun e => yield (error_fragment request))).

(** ** Greeting *)

(** [get_time_based_greeting], with [datetime.now().hour] as argument. *)
Definition get_time_based_greeting (hour : Z) : string :=
  if (5 <=? hour) && (hour <? 12) then "Good morning"
  else if (12 <=? hour) && (hour <? 17) then "Good afternoon"
  else if (17 <=? hour) && (hour <? 22) then "Good evening"
  else "Happy late night".

(** [custom_wait_variants] of [draft_begin_message]. *)
Definition generic_greetings (time_greeting : string) : list string := [
  time_greeting +:+ "! I'm Drew. How can I assist you today?";
  time_greeting +:+ "! I'm Drew. What do you need help with?";
  time_greeting +:+ "! I'm Drew. Ready to get started?";
  time_greeting +:+ "! I'm Drew. How's your day going?";
  "Hey there! I'm Drew. How can I support you today?";
  "Hello! I'm Drew. What's on your mind?";
  time_greeting +:+ "! I'm Drew. Let's make today productive!";
  time_greeting +:+ "! I'm Drew. Let me know how I can help!";
  "Hi! I'm Drew. Need help with anything?";
  "Hey! I'm Drew. What's the plan for today?"
].

(** [custom_greeting] of the first-interaction branch. *)
Definition onboarding_greetings (time_greeting user_name bot_name : string)
  : list string := [
  time_greeting +:+ ", " +:+ user_name +:+ "! Welcome aboard! I'm " +:+ bot_name +:+ ", your personal assistant. I help manage leads, schedule appointments, track key metrics, and keep your workflow seamless. Let's get started!";
  "Hey " +:+ user_name +:+ ", great to have you here! I'm " +:+ bot_name +:+ ", your AI-powered assistant. I'll help you stay organized by managing leads, scheduling, and tracking key performance metrics. Let's make things efficient!";
  time_greeting +:+ ", " +:+ user_name +:+ "! I'm " +:+ bot_name +:+ ", your virtual assistant. I handle lead management, scheduling, and performance tracking so you can focus on closing more deals.";
  "Welcome, " +:+ user_name +:+ "! I'm " +:+ bot_name +:+ ", designed to help you streamline your workflow by managing leads, scheduling appointments, and keeping track of your business performance.";
  "Nice to meet you, " +:+ user_name +:+ "! I'm " +:+ bot_name +:+ ", your smart assistant. I help you stay on top of leads, appointments, and key insights, making your workflow smoother and more efficient.";
  time_greeting +:+ ", " +:+ user_name +:+ "! Congrats on getting started! I'm " +:+ bot_name +:+ ", your AI assistant, here to help with lead tracking, scheduling, and performance insights. Let's get things rolling!";
  "Hey " +:+ user_name +:+ "! I'm " +:+ bot_name +:+ ", your personal assistant! I'll handle scheduling, lead tracking, and key insights so you can focus on growing your business. Let's get started!";
  time_greeting +:+ ", " +:+ user_name +:+ "! I'm " +:+ bot_name +:+ ", your AI-powered real estate assistant. I'll keep your workflow organized, track your performance, and help you stay productive. Let's go!"
].

(** [custom_greeting] of the other branch; [third] is the one entry
    in which the two versions of the file differ. *)
Definition contextual_greetings_with (third : string)
    (time_greeting user_name : string) : list string := [
  time_greeting +:+ ", " +:+ user_name +:+ "! Hope you're having a great day!";
  "Hey " +:+ user_name +:+ ", how's your day going?";
  "Hi " +:+ user_name +:+ third;
  "Good to see you, " +:+ user_name +:+ "! What's on your plate today?";
  time_greeting +:+ ", " +:+ user_name +:+ ". How can I assist you today?";
  "Hello, " +:+ user_name +:+ ". Let me know how I can help!";
  time_greeting +:+ ", " +:+ user_name +:+ ". Ready to tackle the day?";
  "Welcome back, " +:+ user_name +:+ ". What's your priority today?";
  "Hey " +:+ user_name +:+ ", let's make today productive!";
  time_greeting +:+ ", " +:+ user_name +:+ "! Ready to close some deals?";
  "Hope you're feeling great, " +:+ user_name +:+ "! Let's get started.";
  time_greeting +:+ ", " +:+ user_name +:+ "! What's the next big win for today?";
  "Hi " +:+ user_name +:+ ", how's business looking today?";
  "Hey " +:+ user_name +:+ ", anything exciting happening in real estate?";
  time_greeting +:+ ", " +:+ user_name +:+ "! What's on your mind?";
  "Hello, " +:+ user_name +:+ ". Need help with anything specific?"
].

Definition contextual_greetings : string -> string -> list string :=
  contextual_greetings_with ", How's your day going?".
Definition contextual_greetings_old : string -> string -> list string :=
  contextual_greetings_with ", what's new?".

Definition append_greeting (self : LlmClient) (greeting : string) : LlmClient :=
  mkClient (call_id self) (metadata self)
    (message_history self ++ [Plain "assistant" greeting])
    (conversations self) (client_open self).

(** [draft_begin_message] of app/src/llm.py.  [hour] is
    [datetime.now().hour] and [draw] the position [random.choice]
    picks.  Returns the greeting frame and the session after it. *)
Definition draft_begin_message (hour : Z) (draw : nat) (self : LlmClient)
  : result (ResponseResponse * LlmClient) :=
  let time_greeting := get_time_based_greeting hour in
  greeting ←
    (if negb (metadata_truthy (metadata self)) then
       choice (generic_greetings time_greeting) draw
     else
       let md := default ∅ (metadata self) in
       let user_name := default "" (md !! "user_name") in
       let bot_name := default "Drew" (md !! "bot_name") in
       let custom_greeting :=
         if bool_decide (md !! "first_interaction" = Some "true")
         then onboarding_greetings time_greeting user_name bot_name
         else contextual_greetings time_greeting user_name in
       if str_truthy user_name then choice custom_greeting draw
       else choice settings.opening_lines draw);
  Ok (mkResponse 0 greeting true false, append_greeting self greeting).

(** [draft_begin_message] of the older app/llm.py: the flag only has
    to be present, and the assistant is always called Drew. *)
Definition draft_begin_message_old (hour : Z) (draw : nat) (self : LlmClient)
  : result (ResponseResponse * LlmClient) :=
  let time_greeting := get_time_based_greeting hour in
  greeting ←
    (if negb (metadata_truthy (metadata self)) then
       choice (generic_greetings time_greeting) draw
     else
       let md := default ∅ (metadata self) in
       let user_name := default "" (md !! "user_name") in
       let custom_greeting :=
         if bool_decide (md !! "first_interaction" ≠ None)
         then onboarding_greetings time_greeting user_name "Drew"
         else contextual_greetings_old time_greeting user_name in
       if str_truthy user_name then choice custom_greeting draw
       else choice settings.opening_lines draw);
  Ok (mkResponse 0 greeting true false, append_greeting self greeting).

(** ** Teardown *)

(** The value under [call_analysis] when the key is there: an object,
    with its [call_summary] if it has one, or a value without [.get],
    such as [null]. *)
Inductive Analysis : Set :=
| AnalysisDict (summary : option string)
| AnalysisNull.

(** The value under [duration_ms]: an integer, a float, or something
    that cannot be divided. *)
Inductive Number : Set :=
| NInt (z : Z)
| NFloat (f : spec_float)
| NotNumber.

(** The call record returned by the call-detail endpoint, with the
    keys [cleanup] reads.  A key that is absent is [None]. *)
Record CallData : Set := mkCallData {
  call_analysis : option Analysis;
  duration_ms : option Number;
  start_timestamp : option Z;
  recording_url : option string
}.

Record GetResponse : Set := mkGetResponse {
  get_status : Z;
  get_json : result CallData
}.

(** The record posted to [/save_communication]. *)
Record communication : Set := mkCommunication {
  c_user_id : Z;
  c_drew_id : option string;
  c_notes : string;
  c_recording_url : string;
  c_duration : Z;
  c_call_time : string;
  c_call_id : string
}.

Inductive io : Set :=
| Get (attempt : nat)             (* [session.get(url, headers)] *)
| Sleep (seconds : Z)             (* [asyncio.sleep] *)
| Post (data : communication)     (* [session.post(save_communication)] *)
| CloseClient.                    (* [self.client.close()] *)

Record backend : Type := mkBackend {
  get_call : nat -> result GetResponse;        (* the answer to each poll *)
  py_int : string -> result Z;                 (* [int(user_id)] *)
  fromtimestamp : Z -> result string;          (* [fromtimestamp(ms / 1000).isoformat()] *)
  save_communication : communication -> result Z  (* status of the post *)
}.

Definition max_retries : nat := 3.

(** ["call_analysis" in call_data and
    call_data["call_analysis"].get("call_summary")]: the summary when
    the test is truthy. *)
Definition call_summary (call_data : CallData) : result (option string) :=
  match call_analysis call_data with
  | None => Ok None
  | Some (AnalysisDict (Some s)) => Ok (if str_truthy s then Some s else None)
  | Some (AnalysisDict None) => Ok None
  | Some AnalysisNull =>
      Raise (Exn AttributeError "'NoneType' object has no attribute 'get'")
  end.

Definition float_1000 : spec_float := S754_finite false 1000 0.

(** [value / 1000]: true division, which goes through a float.  The
    quotient of an integer is rounded once, to the nearest double, and
    is an [OverflowError] beyond the doubles. *)
Definition div_1000 (value : Number) : result spec_float :=
  match value with
  | NInt z =>
      let dividend := match z with
                      | Z0 => S754_zero false
                      | Zpos m => S754_finite false m 0
                      | Zneg m => S754_finite true m 0
                      end in
      match SFdiv Zillow.prec Zillow.emax dividend float_1000 with
      | S754_infinity _ =>
          Raise (Exn OverflowError "integer division result too large for a float")
      | f => Ok f
      end
  | NFloat f => Ok (SFdiv Zillow.prec Zillow.emax f float_1000)
  | NotNumber =>
      Raise (Exn TypeError "unsupported operand type(s) for /")
  end.

(** The body of [for attempt in range(max_retries)], for the attempts
    still to make. *)
Fixpoint poll (b : backend) (the_call_id user_id : string)
    (drew_id : option string) (attempts : list nat) : Eff io unit :=
  match attempts with
  | [] => mret tt
  | attempt :: rest =>
      perform (Get attempt);;
      response ← lift (get_call b attempt);
      if get_status response =? 200 then
        call_data ← lift (get_json response);
        analysed ← lift (call_summary call_data);
        match analysed with
        | Some summary =>
            ms ← lift (getitem "duration_ms" (duration_ms call_data));
            duration_seconds ← lift (div_1000 ms);
            uid ← lift (py_int b user_id);
            duration ← lift (Zillow.py_int_of_float duration_seconds);
            started ← lift (getitem "start_timestamp" (start_timestamp call_data));
            call_time ← lift (fromtimestamp b started);
            let data :=
              mkCommunication uid drew_id summary
                (default "" (recording_url call_data))
                duration call_time the_call_id in
            perform (Post data);;
            lift (save_communication b data);;
            mret tt                                   (* break *)
        | None =>
            (if (attempt <? max_retries - 1)%nat
             then perform (Sleep 2) else mret tt);;
            poll b the_call_id user_id drew_id rest
        end
      else mret tt                                    (* break *)
  end.

(** The [finally] block: the session is emptied. *)
Definition cleared (self : LlmClient) : LlmClient :=
  mkClient None None [] [] false.

(** [cleanup]: the effects performed, whether an exception escapes,
    and the session afterwards. *)
Definition cleanup (b : backend) (self : LlmClient)
  : Eff io unit * LlmClient :=
  let guarded :=
    try_except
      (match call_id self with
       | Some cid =>
           if str_truthy cid && metadata_truthy (metadata self) then
             let md := default ∅ (metadata self) in
             match md !! "user_id" with
             | Some user_id =>
                 if str_truthy user_id
                 then poll b cid user_id (md !! "drew_id") (seq 0 max_retries)
                 else mret tt
             | None => mret tt
             end
           else mret tt
       | None => mret tt
       end)
      (fun e => mret tt) in
  (guarded;; perform CloseClient, cleared self).

End Llm.

(* ===================================================================== *)
(** * app/server.py                                                       *)
(* ===================================================================== *)

Module Server.
Import Llm.

(** An inbound frame: the keys of the decoded object the handlers
    read.  A missing key is [None]. *)
Record Frame : Type := mkFrame {
  f_interaction_type : option string;
  f_response_id : option Z;
  f_transcript : option (list Utterance);
  f_timestamp : option Z;
  f_call_id : option string;                          (* [call.call_id] *)
  f_dynamic_variables : option (gmap string string)   (* [call.retell_llm_dynamic_variables] *)
}.

(** An outbound frame. *)
Inductive OutFrame : Set :=
| Config                                  (* the configuration frame, [response_id=1] *)
| PingPong (timestamp : Z)
| Response (r : ResponseResponse).

(** An in-flight [handle_response_required]: the frame it was created
    for, the request it built, and what its [draft_response] generator
    has still to yield. *)
Record Task : Type := mkTask {
  t_data : Frame;
  t_request : ResponseRequiredRequest;
  t_pending : list ResponseResponse;
  t_running : bool
}.

(** The state of one [websocket_handler]: its [nonlocal] variables,
    the socket, and the tasks it has created. *)
Record Conn : Type := mkConn {
  response_id : Z;
  call_details_received : bool;
  alive : bool;                  (* the socket still accepts sends *)
  sent : list OutFrame;          (* frames delivered to the peer, oldest first *)
  tasks : list Task;
  llm_client : LlmClient;
  heartbeat : bool               (* [send_heartbeat] still loops *)
}.

Definition set_response_id (rid : Z) (c : Conn) : Conn :=
  mkConn rid (call_details_received c) (alive c) (sent c) (tasks c)
    (llm_client c) (heartbeat c).
Definition set_sent (out : list OutFrame) (c : Conn) : Conn :=
  mkConn (response_id c) (call_details_received c) (alive c) out (tasks c)
    (llm_client c) (heartbeat c).
Definition set_tasks (ts : list Task) (c : Conn) : Conn :=
  mkConn (response_id c) (call_details_received c) (alive c) (sent c) ts
    (llm_client c) (heartbeat c).
Definition set_llm_client (l : LlmClient) (received : bool) (c : Conn) : Conn :=
  mkConn (response_id c) received (alive c) (sent c) (tasks c)
    l (heartbeat c).
Definition set_alive (a : bool) (c : Conn) : Conn :=
  mkConn (response_id c) (call_details_received c) a (sent c) (tasks c)
    (llm_client c) (heartbeat c).
Definition set_heartbeat (h : bool) (c : Conn) : Conn :=
  mkConn (response_id c) (call_details_received c) (alive c) (sent c)
    (tasks c) (llm_client c) h.

(** The state after [accept], [LlmClient()], the start of the
    heartbeat task and the configuration frame. *)
Definition connect : Conn := mkConn 0 false true [Config] [] Llm.init true.

(** [await websocket.send_json(...)]: raises once the socket is gone,
    and the socket never comes back. *)
Definition send (c : Conn) (f : OutFrame) : result Conn :=
  if alive c then Ok (set_sent (sent c ++ [f]) c)
  else Raise (Exn WebSocketDisconnect "").

(** What handling a frame depends on besides the connection. *)
Record env : Type := mkEnv {
  llm_world : Llm.world;
  now_hour : Z;                      (* [datetime.now().hour] *)
  greeting_draw : nat;               (* [random.choice] of the greeting *)
  int_of_str : string -> result Z    (* [int(user_id)] *)
}.

(** The inner [try] of the handler of [handle_response_required]:
    the apology is built from [request], which is unbound when the
    exception was raised before its assignment; whatever is raised
    here is printed and dropped. *)
Definition reply_error (request : option ResponseRequiredRequest) (c : Conn)
  : Conn :=
  match
    (request ← match request with
               | Some r => Ok r
               | None => Raise (Exn UnboundLocalError "request")
               end;
     send c (Response (mkResponse (req_response_id request)
                         "I encountered an error. Let me try again."
                         true false)))
  with
  | Ok c' => c'
  | Raise send_error => c
  end.

(** The handler [except Exception] of [handle_message]. *)
Definition message_error (data : Frame) (c : Conn) : Conn :=
  match
    send c (Response (mkResponse (default 0 (f_response_id data))
                        "I encountered an error. Please try again."
                        true false))
  with
  | Ok c' => c'
  | Raise send_error => c
  end.

(** [handle_response_required] from its first line to the creation of
    the generator: nothing in between awaits. *)
Definition handle_response_required (e : env) (request_json : Frame)
    (c : Conn) : Conn :=
  match f_response_id request_json with
  | None => reply_error None c                       (* [KeyError] *)
  | Some rid =>
      let c := set_response_id rid c in
      match f_interaction_type request_json, f_transcript request_json with
      | Some kind, Some transcript =>
          let request := mkRequest kind rid transcript in
          let events :=
            fragments (draft_response (llm_world e) (llm_client c) request) in
          set_tasks (tasks c ++ [mkTask request_json request events true]) c
      | _, _ => reply_error None c                   (* [KeyError] *)
      end
  end.

Definition finish (k : nat) (c : Conn) : Conn :=
  set_tasks (alter (fun t => mkTask (t_data t) (t_request t) (t_pending t) false)
               k (tasks c)) c.

(** One turn of [async for event in llm_client.draft_response(request)]
    in the [k]-th task: take the next event, compare the captured id
    with the shared one, and send. *)
Definition resume (k : nat) (c : Conn) : Conn :=
  match tasks c !! k with
  | Some t =>
      if t_running t then
        match t_pending t with
        | [] => finish k c
        | event :: rest =>
            if req_response_id (t_request t) <? response_id c
            then finish k c                          (* [break] *)
            else
              match send c (Response event) with
              | Ok c' =>
                  set_tasks
                    (<[k := mkTask (t_data t) (t_request t) rest true]>
                       (tasks c')) c'
              | Raise err =>
                  match exn_cls err with
                  | WebSocketDisconnect =>
                      (* re-raised; [await task] raises in [handle_message] *)
                      finish k (message_error (t_data t) c)
                  | _ => finish k (reply_error (Some (t_request t)) c)
                  end
              end
        end
      else c
  | None => c
  end.

(** [LlmClient.set_metadata]; the session keeps what was assigned
    before an exception. *)
Definition set_metadata (e : env) (call_details : Frame) (self : LlmClient)
  : LlmClient * result unit :=
  let self :=
    match f_call_id call_details with
    | Some cid =>
        if str_truthy cid
        then mkClient (Some cid) (metadata self) (message_history self)
               (conversations self) (client_open self)
        else self
    | None => self
    end in
  match f_dynamic_variables call_details with
  | Some vars =>
      if metadata_truthy (Some vars) then
        let self := mkClient (call_id self) (Some vars) (message_history self)
                      (conversations self) (client_open self) in
        match vars !! "user_id" with
        | Some user_id =>
            if str_truthy user_id
            then (self, int_of_str e user_id ≫= fun _ => Ok tt)
            else (self, Ok tt)
        | None => (self, Ok tt)
        end
      else (self, Ok tt)
  | None => (self, Ok tt)
  end.

(** [handle_message]. *)
Definition handle_message (e : env) (data : Frame) (c : Conn) : Conn :=
  match f_interaction_type data with
  | None => message_error data c                     (* [KeyError] *)
  | Some kind =>
      if String.eqb kind "call_details" then
        let '(client, r) := set_metadata e data (llm_client c) in
        match r with
        | Raise _ => message_error data (set_llm_client client (call_details_received c) c)
        | Ok _ =>
            let c := set_llm_client client true c in
            match draft_begin_message (now_hour e) (greeting_draw e) client with
            | Raise _ => message_error data c
            | Ok (first_event, client) =>
                let c := set_llm_client client true c in
                match send c (Response first_event) with
                | Ok c' => c'
                | Raise _ => message_error data c
                end
            end
        end
      else if String.eqb kind "ping_pong" then
        match f_timestamp data with
        | None => message_error data c               (* [KeyError] *)
        | Some ts =>
            match send c (PingPong ts) with
            | Ok c' => c'
            | Raise _ => message_error data c
            end
        end
      else if String.eqb kind "update_only" then c
      else if String.eqb kind "response_required"
              || String.eqb kind "reminder_required" then
        handle_response_required e data c
      else c
  end.

(** What the event loop can do next. *)
Inductive action : Type :=
| Recv (e : env) (data : Frame)   (* a frame is received and its handler starts *)
| Resume (k : nat)                (* the [k]-th generation task takes a turn *)
| Tick (now_ms : Z)               (* the heartbeat task wakes up *)
| Drop.                           (* the peer goes away *)

Definition step (c : Conn) (a : action) : Conn :=
  match a with
  | Recv e data => handle_message e data c
  | Resume k => resume k c
  | Tick now_ms =>
      if heartbeat c then
        match send c (PingPong now_ms) with
        | Ok c' => c'
        | Raise _ => set_heartbeat false c
        end
      else c
  | Drop => set_alive false c
  end.

Definition run (acts : list action) (c : Conn) : Conn :=
  fold_left step acts c.

(** The response frames among the frames sent. *)
Definition responses (out : list OutFrame) : list ResponseResponse :=
  omap (fun f => match f with Response r => Some r | _ => None end) out.

(** A frame that asks for a generation. *)
Definition is_interaction (data : Frame) : bool :=
  match f_interaction_type data with
  | Some kind => String.eqb kind "response_required"
                 || String.eqb kind "reminder_required"
  | None => false
  end.

(** The response ids of the generation requests of a schedule, in the
    order in which they start. *)
Definition started (acts : list action) : list Z :=
  omap (fun a => match a with
                 | Recv _ data =>
                     if is_interaction data then f_response_id data else None
                 | _ => None
                 end) acts.

End Server.

(* ===================================================================== *)
(** * app/models/models.py: the other tools                               *)
(* ===================================================================== *)

Module Tools.
Import Models.

(** The pydantic model [BookingRequest]. *)
Record BookingRequest : Set := mkBookingRequest {
  b_lead_name : string;
  b_start_time : string;
  b_location : option string;
  b_description : option string
}.

(** The payload posted to [/book_appointment]. *)
Record booking_data : Set := mkBookingData {
  bd_user_id : option string;
  bd_lead_name : string;
  bd_start_time : datetime;
  bd_location : option string;
  bd_description : option string
}.

(** The pydantic model [MessageRequest]. *)
Record MessageRequest : Set := mkMessageRequest {
  m_lead_name : string;
  m_message_type : string;
  m_message_content : string
}.

(** The payload posted to [/send_message]. *)
Record message_data : Set := mkMessageData {
  md_user_id : option string;
  md_lead_name : string;
  md_message_type : string;
  md_message_content : string;
  md_timestamp : string
}.

(** What the two tools depend on: the parser and the renderer of
    [Models.world], the clock, and the backend. *)
Record services : Type := mkServices {
  base : Models.world;
  utcnow : string;                                      (* [datetime.utcnow().isoformat()] *)
  post_booking : string -> booking_data -> result response;
  post_message : string -> message_data -> result response
}.

Record booking_run : Type := mkBookingRun {
  booking_outcome : result json;
  booking_posted : list (string * booking_data)
}.

Record message_run : Type := mkMessageRun {
  message_outcome : result json;
  message_posted : list (string * message_data)
}.

(** [BookingRequest.execute]. *)
Definition book (s : services) (self : BookingRequest)
    (backend_url : string) (user_id : option string) : booking_run :=
  match fromisoformat (base s) (b_start_time self) with
  | Raise e => mkBookingRun (Raise e) []
  | Ok start_datetime =>
      let booking_data :=
        mkBookingData user_id (b_lead_name self) start_datetime
          (b_location self) (b_description self) in
      let booking_url := backend_url +:+ "/book_appointment" in
      mkBookingRun
        (response ← post_booking s booking_url booking_data;
         response_data ← body response;
         if status response =? 202 then Ok response_data
         else if status response =? 300 then Ok response_data
         else if status response =? 404 then Ok response_data
         else
           error_message ← get_message (base s) response_data;
           Raise (Exn ValueError ("Booking failed: " +:+ error_message)))
        [(booking_url, booking_data)]
  end.

(** [MessageRequest.execute]. *)
Definition send_message (s : services) (self : MessageRequest)
    (backend_url : string) (user_id : option string) : message_run :=
  let message_data :=
    mkMessageData user_id (m_lead_name self) (m_message_type self)
      (m_message_content self) (utcnow s) in
  let message_url := backend_url +:+ "/send_message" in
  mkMessageRun
    (response ← post_message s message_url message_data;
     response_data ← body response;
     if (status response =? 200) || (status response =? 202)
     then Ok response_data
     else if status response =? 300 then Ok response_data
     else if status response =? 404 then Ok response_data
     else
       error_message ← get_message (base s) response_data;
       Raise (Exn ValueError ("Failed to send message: " +:+ error_message)))
    [(message_url, message_data)].

End Tools.

(* ===================================================================== *)
(** * app/tools_integration/zillow_integration.py: the listing search     *)
(* ===================================================================== *)

Module Listings.
Import Zillow.

(** An element of a provider's result list: a dictionary, or anything
    else. *)
Inductive entry : Type :=
| EDict (prop : gmap string pyval)
| EOther.

(** What one provider handed back, as [search_properties] tells it
    apart: a dictionary, or anything else ([None] for a status other
    than 200, a JSON document that is not an object, or the exception
    that [gather] returned).  Under each key of a dictionary is either
    something a [for] loop can walk, with its elements, or a value that
    cannot be iterated. *)
Inductive answer : Type :=
| ADict (lists : gmap string (option (list entry)))
| AOther.

Definition is_dict (a : answer) : bool :=
  match a with ADict _ => true | AOther => false end.

(** The dictionary returned by [search_properties]. *)
Record search_result : Type := mkSearchResult {
  properties : list Property;
  message : option string
}.

(** What [PropertySearch.execute] returns: the listings as
    dictionaries of their fields, or the result of the search itself. *)
Inductive search_output : Type :=
| Found (props : list Property)
| Nothing (result : search_result).

(** [l[:limit]]. *)
Definition slice_to {A} (limit : Z) (l : list A) : list A :=
  if 0 <=? limit then take (Z.to_nat limit) l
  else take (length l - Z.to_nat (- limit)) l.

(** Truth value of a list. *)
Definition nonempty {A} (l : list A) : bool :=
  match l with [] => false | _ => true end.

Section Search.
Variable float_of_str : string -> option spec_float.
Variable py_str : pyval -> string.

(** The body of the loop of [parse_api2_response] for one entry that is
    a dictionary. *)
Definition parse_api2_prop (prop : gmap string pyval) : result Property :=
  let address_parts := split_blank (get_str py_str prop "streetAddress") EmptyString in
  let cleaned_parts := List.filter (fun part => negb (isdigit part)) address_parts in
  let cleaned_address := join_blank cleaned_parts in
  price ← safe_float float_of_str (get prop "price") zero;
  bedrooms ← safe_int float_of_str (get prop "bedrooms") 0;
  bathrooms ← safe_float float_of_str (get prop "bathrooms") zero;
  living_area ← safe_float float_of_str (get prop "livingArea") zero;
  zestimate ← safe_float float_of_str (get prop "zestimate") zero;
  rent_estimate ← safe_float float_of_str (get prop "rentZestimate") zero;
  days_on_zillow ← safe_int float_of_str (get prop "daysOnZillow") 0;
  latitude ← safe_float float_of_str (get prop "latitude") zero;
  longitude ← safe_float float_of_str (get prop "longitude") zero;
  mret (mkProperty cleaned_address price bedrooms bathrooms living_area
          None None (get_str py_str prop "homeType") (Some zestimate)
          (Some rent_estimate) days_on_zillow EmptyString latitude longitude).

(** The loop shared by both parsers: entries that are no dictionaries
    are skipped, and the first entry that raises ends the call. *)
Fixpoint parse_entries (parse_prop : gmap string pyval -> result Property)
    (props : list entry) : result (list Property) :=
  match props with
  | [] => Ok []
  | EOther :: rest => parse_entries parse_prop rest
  | EDict prop :: rest =>
      property_obj ← parse_prop prop;
      properties ← parse_entries parse_prop rest;
      Ok (property_obj :: properties)
  end.

(** [data.get(key, [])], walked by a [for] loop. *)
Definition iterate (lists : gmap string (option (list entry))) (key : string)
  : result (list entry) :=
  match lists !! key with
  | None => Ok []
  | Some (Some props) => Ok props
  | Some None => Raise (Exn TypeError "object is not iterable")
  end.

(** [parse_api1_response]. *)
Definition parse_api1_response (data : answer) : result (list Property) :=
  match data with
  | AOther => Ok []
  | ADict lists =>
      if (size lists =? 0)%nat then Ok []
      else
        props ← iterate lists "props";
        parse_entries (parse_api1_prop float_of_str py_str) props
  end.

(** [parse_api2_response]. *)
Definition parse_api2_response (data : answer) : result (list Property) :=
  match data with
  | AOther => Ok []
  | ADict lists =>
      if (size lists =? 0)%nat then Ok []
      else
        results ← iterate lists "results";
        parse_entries parse_api2_prop results
  end.

(** [search_properties], from the two answers that [gather] returned. *)
Definition search_properties (api1_result api2_result : answer) (limit : Z)
  : result search_result :=
  properties ← (if is_dict api1_result then parse_api1_response api1_result
                else Ok []);
  properties ← (if negb (nonempty properties) && is_dict api2_result
                then parse_api2_response api2_result
                else Ok properties);
  Ok (mkSearchResult
        (if nonempty properties then slice_to limit properties else [])
        (if negb (nonempty properties)
         then Some "No listings available for the area" else None)).

(** [PropertySearch.execute] of app/models/models.py; the search runs
    with its default limit of three. *)
Definition property_search (api1_result api2_result : answer)
  : result search_output :=
  result ← search_properties api1_result api2_result 3;
  let props := properties result in
  if nonempty props then Ok (Found props) else Ok (Nothing result).

End Search.

End Listings.

(* ===================================================================== *)
(** * app/server.py: the webhook                                          *)
(* ===================================================================== *)

Module Webhook.

(** What [handle_webhook] reads of the request: the decoded body, which
    [request.json()] may fail to produce, and the signature header. *)
Record Request : Type := mkRequest {
  req_json : result json;
  req_signature : option string
}.

Record JSONResponse : Type := mkJSONResponse {
  status_code : Z;
  content : list (string * json)
}.

(** [str(request.headers.get(...))]. *)
Definition header_str (o : option string) : string :=
  match o with
  | Some s => s
  | None => "None"
  end.

(** [value[key]] with a string key. *)
Definition subscript (value : json) (key : string) : result json :=
  match value with
  | JDict entries => getitem key (assoc key entries)
  | JList _ | JStr _ =>
      Raise (Exn TypeError "indices must be integers")
  | JNull | JBool _ | JInt _ =>
      Raise (Exn TypeError "object is not subscriptable")
  end.

(** [value == text]. *)
Definition is_str (value : json) (text : string) : bool :=
  match value with
  | JStr s => String.eqb s text
  | _ => false
  end.

(** The arguments of the [print] calls that name the call. *)
Definition call_id_of (post_data : json) : result json :=
  data ← subscript post_data "data"; subscript data "call_id".

(** [handle_webhook]; [verify] stands for [retell.verify] applied to the
    re-serialised body and the signature. *)
Definition handle_webhook (verify : json -> string -> result bool)
    (request : Request) : JSONResponse :=
  match
    post_data ← req_json request;
    valid_signature ← verify post_data (header_str (req_signature request));
    if negb valid_signature then
      _ ← subscript post_data "event";
      _ ← call_id_of post_data;
      Ok (mkJSONResponse 401 [("message", JStr "Unauthorized")])
    else
      event ← subscript post_data "event";
      _ ← (if is_str event "call_started" then call_id_of post_data
           else if is_str event "call_ended" then call_id_of post_data
           else if is_str event "call_analyzed" then call_id_of post_data
           else subscript post_data "event");
      Ok (mkJSONResponse 200 [("received", JBool true)])
  with
  | Ok response => response
  | Raise err =>
      mkJSONResponse 500 [("message", JStr "Internal Server Error")]
  end.

End Webhook.

(* ===================================================================== *)
(** * Properties of the numeric field parsers                             *)
(* ===================================================================== *)

Section ZillowFacts.
Import Zillow.
Variable float_of_str : string -> option spec_float.
Variable py_str : pyval -> string.

(** On [None], on a string that is not a number, and on a container,
    both parsers return the default. *)
Lemma safe_int_default (value : pyval) (default : Z) :
  value = VNone \/ value = VList \/ value = VDict \/
  (exists s, value = VStr s /\ float_of_str s = None) ->
  safe_int float_of_str value default = Ok default.
Proof.
  intros [-> | [-> | [-> | (s & -> & Hs)]]]; try reflexivity.
  unfold safe_int, py_float. rewrite Hs. reflexivity.
Qed.

Lemma safe_float_default (value : pyval) (default : spec_float) :
  value = VNone \/ value = VList \/ value = VDict \/
  (exists s, value = VStr s /\ float_of_str s = None) ->
  safe_float float_of_str value default = Ok default.
Proof.
  intros [-> | [-> | [-> | (s & -> & Hs)]]]; try reflexivity.
  unfold safe_float, py_float. rewrite Hs. reflexivity.
Qed.

(** [safe_float] never raises on a float, a boolean or a string. *)
Lemma safe_float_total_off_int (value : pyval) (default : spec_float) :
  (forall z, value <> VInt z) ->
  exists f, safe_float float_of_str value default = Ok f.
Proof.
  intros Hint. destruct value; simpl; eauto.
  - exfalso. eapply Hint. reflexivity.
  - destruct (float_of_str s); simpl; eauto.
Qed.

Lemma py_float_raises (value : pyval) (e : exn) :
  py_float float_of_str value = Raise e ->
  caught e = true \/ exn_cls e = OverflowError.
Proof.
  destruct value as [|b|z|f|s| |]; simpl;
    try (intros [= <-]; left; reflexivity); try discriminate.
  - unfold float_of_int.
    destruct (binary_normalize prec emax z 0 false); try discriminate.
    intros [= <-]. right. reflexivity.
  - destruct (float_of_str s); try discriminate.
    intros [= <-]. left. reflexivity.
Qed.

Lemma py_int_of_float_raises (f : spec_float) (e : exn) :
  py_int_of_float f = Raise e ->
  caught e = true \/ exn_cls e = OverflowError.
Proof.
  destruct f; simpl; try discriminate; intros [= <-];
    [right | left]; reflexivity.
Qed.

(** The only exception that leaves either parser is [OverflowError]. *)
Lemma safe_int_raises_only_overflow (value : pyval) (default : Z) (e : exn) :
  safe_int float_of_str value default = Raise e ->
  exn_cls e = OverflowError.
Proof.
  assert (H : forall e', py_float float_of_str value ≫= py_int_of_float = Raise e' ->
                         caught e' = true \/ exn_cls e' = OverflowError).
  { intros e'. unfold mbind, result_bind, Py.bind.
    destruct (py_float float_of_str value) as [f | e0] eqn:E.
    - apply py_int_of_float_raises.
    - intros [= <-]. eapply py_float_raises, E. }
  unfold safe_int.
  destruct (py_float float_of_str value ≫= py_int_of_float) as [n | e'] eqn:E.
  - destruct value; discriminate.
  - destruct (H e' eq_refl) as [C | C].
    + rewrite C. destruct value; discriminate.
    + destruct (caught e'); destruct value; try discriminate;
        intros [= <-]; exact C.
Qed.

Lemma safe_float_raises_only_overflow (value : pyval) (default : spec_float)
    (e : exn) :
  safe_float float_of_str value default = Raise e ->
  exn_cls e = OverflowError.
Proof.
  unfold safe_float.
  destruct (py_float float_of_str value) as [f | e'] eqn:E.
  - destruct value; discriminate.
  - destruct (py_float_raises _ _ E) as [C | C].
    + rewrite C. destruct value; discriminate.
    + destruct (caught e'); destruct value; try discriminate;
        intros [= <-]; exact C.
Qed.

(** C10.  The numeric parsers are not total: [safe_int] lets the
    [OverflowError] of [int(float('inf'))] through, [safe_float] the
    one of [float] on an integer beyond the double range, and building
    a [Property] from an entry whose [bedrooms] is an infinite number
    raises instead of falling back on the default. *)
Theorem safe_parsers_let_overflow_escape :
  (forall default,
      safe_int float_of_str (VFloat (S754_infinity false)) default
      = Raise (Exn OverflowError "cannot convert float infinity to integer"))
  /\ (forall default,
      safe_float float_of_str (VInt (10 ^ 400)) default
      = Raise (Exn OverflowError "int too large to convert to float"))
  /\ parse_api1_prop float_of_str py_str
       (<["bedrooms" := VFloat (S754_infinity false)]> ∅)
     = Raise (Exn OverflowError "cannot convert float infinity to integer").
Proof.
  split; [| split].
  - intros default. reflexivity.
  - intros default. vm_compute. reflexivity.
  - vm_compute. reflexivity.
Qed.

End ZillowFacts.

(* ===================================================================== *)
(** * Properties of the call-time validation                              *)
(* ===================================================================== *)

Section ModelsFacts.
Import Models.

Lemma date_eqb_eq (a b : date) : date_eqb a b = true <-> a = b.
Proof.
  unfold date_eqb. destruct a as [ya ma da], b as [yb mb db]; simpl.
  rewrite !andb_true_iff, !Z.eqb_eq. split.
  - intros [[-> ->] ->]. reflexivity.
  - intros [= -> -> ->]. auto.
Qed.

Lemma date_in_pair (x a b : date) :
  date_in x [a; b] = true <-> x = a \/ x = b.
Proof.
  unfold date_in. simpl. rewrite !orb_true_iff, !date_eqb_eq.
  intuition discriminate.
Qed.

Lemma add_one_day_ok (n : datetime) :
  year (next_day (dt_date n)) <= 9999 ->
  add_one_day n
  = Ok (mkDatetime (next_day (dt_date n)) (hour n) (minute n) (second n)).
Proof.
  intros H. unfold add_one_day.
  destruct (9999 <? year (next_day (dt_date n))) eqn:E; [| reflexivity].
  apply Z.ltb_lt in E. lia.
Qed.

Lemma valid_date_spec (d : date) :
  valid_date d = true <->
  1 <= year d <= 9999 /\ 1 <= month d <= 12 /\
  1 <= day d <= days_in_month (year d) (month d).
Proof.
  unfold valid_date. rewrite !andb_true_iff, !Z.leb_le. lia.
Qed.

Lemma days_in_month_ge (y m : Z) : 28 <= days_in_month y m.
Proof.
  unfold days_in_month.
  repeat match goal with
         | |- context [if ?b then _ else _] => destruct b
         end; lia.
Qed.

(** The day after a valid date is a calendar date again. *)
Lemma next_day_valid (d : date) :
  valid_date d = true -> year d < 9999 -> valid_date (next_day d) = true.
Proof.
  rewrite !valid_date_spec. intros H Hy. unfold next_day.
  destruct (day d <? days_in_month (year d) (month d)) eqn:E1.
  - apply Z.ltb_lt in E1. simpl. lia.
  - destruct (month d <? 12) eqn:E2; simpl.
    + apply Z.ltb_lt in E2.
      pose proof (days_in_month_ge (year d) (month d + 1)). lia.
    + pose proof (days_in_month_ge (year d + 1) 1). lia.
Qed.

(** [next_day] agrees with the day count of the calendar: the ordinal
    of the next day is one more. *)
Lemma year_length (y : Z) :
  days_before_year (y + 1) = days_before_year y + (if is_leap y then 366 else 365).
Proof.
  unfold days_before_year, is_leap.
  replace (y + 1 - 1) with y by lia.
  destruct (Z.eqb_spec (y mod 4) 0), (Z.eqb_spec (y mod 100) 0),
    (Z.eqb_spec (y mod 400) 0); cbn [negb andb orb];
    Z.div_mod_to_equations; lia.
Qed.

Lemma days_before_month_succ (y m : Z) :
  1 <= m ->
  days_before_month y (m + 1) = days_before_month y m + days_in_month y m.
Proof.
  intros Hm. unfold days_before_month.
  replace (m + 1 - 1) with m by lia.
  replace (Z.to_nat m) with (S (Z.to_nat (m - 1))) by lia.
  cbn [days_before_month_aux]. f_equal. f_equal. lia.
Qed.

Lemma days_before_december (y : Z) :
  days_before_month y 12 = if is_leap y then 335 else 334.
Proof.
  unfold days_before_month. change (Z.to_nat (12 - 1)) with 11%nat.
  cbn [days_before_month_aux]. unfold days_in_month.
  destruct (is_leap y); reflexivity.
Qed.

Lemma toordinal_next_day (d : date) :
  valid_date d = true -> toordinal (next_day d) = toordinal d + 1.
Proof.
  rewrite valid_date_spec. destruct d as [y m dd]. cbn [year month day].
  intros (Hy & Hm & Hd). unfold next_day, toordinal. cbn [year month day].
  destruct (dd <? days_in_month y m) eqn:E1.
  - cbn [year month day]. lia.
  - apply Z.ltb_ge in E1. assert (dd = days_in_month y m) as -> by lia.
    destruct (m <? 12) eqn:E2.
    + cbn [year month day]. rewrite days_before_month_succ by lia. lia.
    + apply Z.ltb_ge in E2. assert (m = 12) as -> by lia.
      cbn [year month day]. rewrite year_length, days_before_december.
      change (days_before_month (y + 1) 1) with 0.
      change (days_in_month y 12) with 31.
      destruct (is_leap y); lia.
Qed.

(** C8.  [CallRequest.execute] lets a request through to the backend
    exactly when the date of the requested time is today or the next
    calendar day; for any other date it raises the validation error
    and posts nothing. *)
Theorem call_time_validation (w : world) (self : CallRequest)
    (backend_url : string) (user_id : option string) (dt : datetime) :
  fromisoformat w (call_time self) = Ok dt ->
  year (next_day (dt_date (now w))) <= 9999 ->
  let today := dt_date (now w) in
  let r := execute w self backend_url user_id in
  (dt_date dt = today \/ dt_date dt = next_day today ->
   posted r = [(backend_url +:+ "/initiate_call",
                mkCallData user_id (contact_name self) dt
                  (discussion_points self))])
  /\ (dt_date dt <> today -> dt_date dt <> next_day today ->
      r = mkRun (Raise (Exn ValueError validation_message)) []).
Proof.
  intros Hparse Hyear today r. subst r. unfold execute.
  rewrite Hparse, (add_one_day_ok _ Hyear). cbn [dt_date].
  fold today. split.
  - intros Hin. apply date_in_pair in Hin. rewrite Hin. reflexivity.
  - intros H1 H2.
    destruct (date_in (dt_date dt) [today; next_day today]) eqn:E.
    + apply date_in_pair in E. tauto.
    + reflexivity.
Qed.

(** A backend that accepts every call, on 2025-03-10 at 09:30. *)
Definition demo_call_world (parsed : datetime) : world :=
  mkWorld (fun _ => Ok parsed)
    (mkDatetime (mkDate 2025 3 10) 9 30 0)
    (fun _ _ => Ok (mkResponse 202 (Ok (JDict [("status", JStr "scheduled")]))))
    (fun _ => "").

Definition demo_call_request : CallRequest :=
  mkCallRequest "Ada" None "2025-03-10T14:00:00".

Lemma call_time_validation_witness :
  posted (execute (demo_call_world (mkDatetime (mkDate 2025 3 10) 14 0 0))
            demo_call_request "https://backend" (Some "7"))
  = [("https://backend/initiate_call",
      mkCallData (Some "7") "Ada" (mkDatetime (mkDate 2025 3 10) 14 0 0) None)].
Proof.
  apply (call_time_validation
           (demo_call_world (mkDatetime (mkDate 2025 3 10) 14 0 0))
           demo_call_request "https://backend" (Some "7")
           (mkDatetime (mkDate 2025 3 10) 14 0 0)).
  - reflexivity.
  - vm_compute. discriminate.
  - left. reflexivity.
Defined.

(** Today at 14:00 and tomorrow pass; three days from now and the end
    of the month after a month boundary do what the calendar says. *)
Example call_time_examples :
  outcome (execute (demo_call_world (mkDatetime (mkDate 2025 3 10) 14 0 0))
             demo_call_request "u" None)
  = Ok (JDict [("status", JStr "scheduled")])
  /\ outcome (execute (demo_call_world (mkDatetime (mkDate 2025 3 11) 8 0 0))
                demo_call_request "u" None)
     = Ok (JDict [("status", JStr "scheduled")])
  /\ execute (demo_call_world (mkDatetime (mkDate 2025 3 13) 9 30 0))
       demo_call_request "u" None
     = mkRun (Raise (Exn ValueError validation_message)) []
  /\ next_day (mkDate 2024 2 28) = mkDate 2024 2 29
  /\ next_day (mkDate 2025 2 28) = mkDate 2025 3 1
  /\ next_day (mkDate 2025 12 31) = mkDate 2026 1 1.
Proof. repeat split; reflexivity. Qed.

End ModelsFacts.

(* ===================================================================== *)
(** * Properties of the generation cycle                                  *)
(* ===================================================================== *)

(** ** The effect monad *)

Section EffFacts.
Context {E : Type}.

Lemma bind_ok {A B} (m : Eff E A) (k : A -> Eff E B) (a : A) :
  outcome m = Ok a ->
  m ≫= k = mkEff (trace m ++ trace (k a)) (outcome (k a)).
Proof. intros H. unfold mbind, eff_bind. rewrite H. reflexivity. Qed.

Lemma bind_raise {A B} (m : Eff E A) (k : A -> Eff E B) (e : exn) :
  outcome m = Raise e -> m ≫= k = mkEff (trace m) (Raise e).
Proof. intros H. unfold mbind, eff_bind. rewrite H. reflexivity. Qed.

Lemma bind_lift_ok {A B} (a : A) (k : A -> Eff E B) :
  lift (Ok a) ≫= k = k a.
Proof. unfold mbind, eff_bind. simpl. destruct (k a). reflexivity. Qed.

Lemma bind_lift_raise {A B} (e : exn) (k : A -> Eff E B) :
  lift (Raise e) ≫= k = mkEff [] (Raise e).
Proof. reflexivity. Qed.

Lemma bind_perform {B} (x : E) (k : unit -> Eff E B) :
  perform x ≫= k = mkEff (x :: trace (k tt)) (outcome (k tt)).
Proof. reflexivity. Qed.

Lemma bind_ret {A B} (a : A) (k : A -> Eff E B) :
  mret a ≫= k = k a.
Proof. unfold mbind, eff_bind, mret, eff_ret. simpl. destruct (k a). reflexivity. Qed.

(** A property of every effect of [m ≫= k] follows from the same
    property of [m] and of every continuation. *)
Lemma bind_trace_Forall {A B} (P : E -> Prop) (m : Eff E A) (k : A -> Eff E B) :
  Forall P (trace m) -> (forall a, Forall P (trace (k a))) ->
  Forall P (trace (m ≫= k)).
Proof.
  intros Hm Hk. unfold mbind, eff_bind. destruct (outcome m); simpl.
  - apply Forall_app. split; [exact Hm | apply Hk].
  - exact Hm.
Qed.

Lemma try_except_trace_Forall {A} (P : E -> Prop) (m : Eff E A)
    (h : exn -> Eff E A) :
  Forall P (trace m) -> (forall e, Forall P (trace (h e))) ->
  Forall P (trace (try_except m h)).
Proof.
  intros Hm Hh. unfold try_except. destruct (outcome m); simpl.
  - exact Hm.
  - apply Forall_app. split; [exact Hm | apply Hh].
Qed.

Lemma lift_trace_Forall {A} (P : E -> Prop) (r : result A) :
  Forall P (trace (lift (E := E) r)).
Proof. constructor. Qed.

Lemma ret_trace_Forall {A} (P : E -> Prop) (a : A) :
  Forall P (trace (mret (M := Eff E) a)).
Proof. constructor. Qed.

End EffFacts.

(** ** One complete fragment, and it is the last *)

Section CycleFacts.
Import Llm.

(** A fragment of the request that does not end the turn. *)
Definition partial_of (request : ResponseRequiredRequest)
    (r : ResponseResponse) : Prop :=
  response_id r = req_response_id request /\ content_complete r = false.

(** An effect of the request that is no complete fragment. *)
Definition quiet (request : ResponseRequiredRequest) (e : effect) : Prop :=
  match e with
  | Yield r => partial_of request r
  | _ => True
  end.

(** The fragments of a finished cycle: partial ones, then exactly one
    complete fragment of the same request. *)
Definition one_complete_last (request : ResponseRequiredRequest)
    (frs : list ResponseResponse) : Prop :=
  exists pre final,
    frs = pre ++ [final]
    /\ Forall (partial_of request) pre
    /\ response_id final = req_response_id request
    /\ content_complete final = true
    /\ length (List.filter content_complete frs) = 1%nat.

Lemma fragments_app (t1 t2 : list effect) :
  fragments (t1 ++ t2) = fragments t1 ++ fragments t2.
Proof. unfold fragments. apply omap_app. Qed.

Lemma quiet_fragments (request : ResponseRequiredRequest) (t : list effect) :
  Forall (quiet request) t -> Forall (partial_of request) (fragments t).
Proof.
  induction 1 as [| e t He _ IH]; [constructor |].
  destruct e; simpl; auto.
Qed.

Lemma partial_filter (request : ResponseRequiredRequest)
    (frs : list ResponseResponse) :
  Forall (partial_of request) frs -> List.filter content_complete frs = [].
Proof.
  induction 1 as [| r frs [_ Hr] _ IH]; [reflexivity |].
  simpl. rewrite Hr. exact IH.
Qed.

Lemma one_complete_last_intro (request : ResponseRequiredRequest)
    (t : list effect) (final : ResponseResponse) :
  Forall (quiet request) t ->
  response_id final = req_response_id request ->
  content_complete final = true ->
  one_complete_last request (fragments (t ++ [Yield final])).
Proof.
  intros Ht Hid Hc. exists (fragments t), final.
  rewrite fragments_app. simpl.
  pose proof (quiet_fragments _ _ Ht) as Hp.
  repeat split; auto.
  rewrite List.filter_app, (partial_filter _ _ Hp). simpl.
  rewrite Hc. reflexivity.
Qed.

Lemma quiet_text (request : ResponseRequiredRequest) (text : string) :
  quiet request (Yield (text_fragment request text)).
Proof. split; reflexivity. Qed.

Section TraceInvariants.
(** [P] holds of every text fragment of the request, and of every
    effect that is no fragment. *)
Variable request : ResponseRequiredRequest.
Variable P : effect -> Prop.
Hypothesis P_text : forall text, P (Yield (text_fragment request text)).
Hypothesis P_create : forall messages with_tools, P (Create messages with_tools).
Hypothesis P_invoke : forall tool_name args, P (Invoke tool_name args).

Lemma yield_text_Forall text :
  Forall P (trace (yield (text_fragment request text))).
Proof. repeat constructor. apply P_text. Qed.

Lemma consume_first_Forall chunks fault calls content :
  Forall P (trace (consume_first request chunks fault calls content)).
Proof.
  revert calls content.
  induction chunks as [| chunk rest IH]; intros calls content; simpl.
  - destruct fault; constructor.
  - apply bind_trace_Forall; [apply lift_trace_Forall |]. intros delta.
    apply bind_trace_Forall; [apply lift_trace_Forall |]. intros calls'.
    apply bind_trace_Forall; [| intros content'; apply IH].
    destruct (d_content delta) as [text |]; [| constructor].
    destruct (str_truthy text); [| constructor].
    apply bind_trace_Forall; [apply yield_text_Forall | intros; constructor].
Qed.

Lemma consume_final_Forall chunks fault :
  Forall P (trace (consume_final request chunks fault)).
Proof.
  induction chunks as [| chunk rest IH]; simpl.
  - destruct fault; constructor.
  - apply bind_trace_Forall; [apply lift_trace_Forall |]. intros delta.
    apply bind_trace_Forall; [| intros; apply IH].
    destruct (d_content delta) as [text |]; [| constructor].
    destruct (str_truthy text); [apply yield_text_Forall | constructor].
Qed.

Lemma execute_tool_Forall w self tool_name args :
  Forall P (trace (_execute_tool w self tool_name args)).
Proof.
  unfold _execute_tool. apply bind_trace_Forall.
  - repeat constructor. apply P_invoke.
  - intros. apply lift_trace_Forall.
Qed.

Lemma execute_tool_old_Forall w self tool_name args :
  Forall P (trace (_execute_tool_old w self tool_name args)).
Proof.
  unfold _execute_tool_old. apply bind_trace_Forall.
  - repeat constructor. apply P_invoke.
  - intros. apply lift_trace_Forall.
Qed.

Lemma run_tools_Forall w self calls :
  Forall P (trace (run_tools w self calls)).
Proof.
  induction calls as [| tool_call rest IH]; simpl; [constructor |].
  apply bind_trace_Forall.
  - apply try_except_trace_Forall; [| intros; constructor].
    apply bind_trace_Forall; [apply lift_trace_Forall |].
    intros. apply execute_tool_Forall.
  - intros. apply bind_trace_Forall; [apply IH | intros; constructor].
Qed.

Lemma run_tools_old_Forall w self calls :
  Forall P (trace (run_tools_old w self request calls)).
Proof.
  induction calls as [| tool_call rest IH]; simpl; [constructor |].
  apply bind_trace_Forall.
  - apply try_except_trace_Forall.
    + apply bind_trace_Forall; [apply lift_trace_Forall |]. intros.
      apply bind_trace_Forall; [apply execute_tool_old_Forall |].
      intros; constructor.
    + intros. apply bind_trace_Forall; [apply yield_text_Forall | intros; constructor].
  - intros. apply bind_trace_Forall; [apply IH | intros; constructor].
Qed.

End TraceInvariants.

Lemma consume_first_quiet request chunks fault calls content :
  Forall (quiet request)
    (trace (consume_first request chunks fault calls content)).
Proof. apply consume_first_Forall. apply quiet_text. Qed.

Lemma consume_final_quiet request chunks fault :
  Forall (quiet request) (trace (consume_final request chunks fault)).
Proof. apply consume_final_Forall. apply quiet_text. Qed.

Lemma run_tools_quiet request w self calls :
  Forall (quiet request) (trace (run_tools w self calls)).
Proof. apply run_tools_Forall. intros; exact I. Qed.

Lemma run_tools_old_quiet request w self calls :
  Forall (quiet request) (trace (run_tools_old w self request calls)).
Proof. apply run_tools_old_Forall. apply quiet_text. intros; exact I. Qed.

(** A computation that, when it returns, has just yielded the
    complete fragment, and has yielded only partial ones otherwise. *)
Definition ends_complete (request : ResponseRequiredRequest) (g : Gen unit)
  : Prop :=
  match outcome g with
  | Ok _ => exists t, trace g = t ++ [Yield (complete_fragment request)]
                      /\ Forall (quiet request) t
  | Raise _ => Forall (quiet request) (trace g)
  end.

Lemma ends_complete_bind {A} request (m : Gen A) (k : A -> Gen unit) :
  Forall (quiet request) (trace m) ->
  (forall a, ends_complete request (k a)) ->
  ends_complete request (m ≫= k).
Proof.
  intros Hm Hk. unfold ends_complete, mbind, eff_bind.
  destruct (outcome m) as [a | e]; simpl; [| exact Hm].
  specialize (Hk a). unfold ends_complete in Hk.
  destruct (outcome (k a)).
  - destruct Hk as (t & -> & Ht). exists (trace m ++ t).
    rewrite app_assoc. split; [reflexivity |].
    apply Forall_app. auto.
  - apply Forall_app. auto.
Qed.

Lemma cycle_ends_complete tools w self request :
  (forall calls, Forall (quiet request) (trace (tools calls))) ->
  ends_complete request (cycle tools w self request).
Proof.
  intros Htools. unfold cycle.
  apply ends_complete_bind; [apply lift_trace_Forall |]. intros messages.
  apply ends_complete_bind; [repeat constructor |]. intros _.
  apply ends_complete_bind; [apply lift_trace_Forall |]. intros response.
  apply ends_complete_bind; [apply consume_first_quiet |].
  intros [calls content].
  apply ends_complete_bind.
  - destruct calls as [| c calls]; [constructor |].
    apply bind_trace_Forall; [apply lift_trace_Forall |]. intros filler.
    apply bind_trace_Forall; [repeat constructor |]. intros _.
    apply bind_trace_Forall; [apply Htools |]. intros results.
    apply bind_trace_Forall; [repeat constructor |]. intros _.
    apply bind_trace_Forall; [apply lift_trace_Forall |]. intros final.
    apply consume_final_quiet.
  - intros _. unfold ends_complete. simpl. exists []. split; [reflexivity | constructor].
Qed.

(** The generator as a whole, for any tool loop that yields partial
    fragments only. *)
Lemma generator_one_complete_last tools w self request :
  (forall calls, Forall (quiet request) (trace (tools calls))) ->
  one_complete_last request
    (fragments (trace (try_except (cycle tools w self request)
                         (fun e => yield (error_fragment request))))).
Proof.
  intros Htools. pose proof (cycle_ends_complete tools w self request Htools) as H.
  unfold ends_complete in H. unfold try_except.
  destruct (outcome (cycle tools w self request)).
  - destruct H as (t & -> & Ht).
    apply one_complete_last_intro; auto.
  - simpl. apply one_complete_last_intro; auto.
Qed.

(** C2.  Run to exhaustion, [draft_response] yields partial fragments
    of the request followed by exactly one complete fragment of the
    request, whatever the model streams, the tools and the prompt
    assembly do or raise; this holds for the generator of
    app/src/llm.py and for the older one of app/llm.py. *)
Theorem draft_response_one_complete_last (w : world) (self : LlmClient)
    (request : ResponseRequiredRequest) :
  one_complete_last request (fragments (draft_response w self request))
  /\ one_complete_last request (fragments (draft_response_old w self request)).
Proof.
  split.
  - apply generator_one_complete_last. intros. apply run_tools_quiet.
  - apply generator_one_complete_last. intros. apply run_tools_old_quiet.
Qed.

End CycleFacts.

(** ** Reassembly of a streamed tool call *)

Section AccumulationFacts.
Import Llm.

(** What one delta does to the record it addresses: a non-empty name
    replaces the name, a non-empty argument piece is appended. *)
Definition absorb (c : ToolCall) (d : ToolCallDelta) : ToolCall :=
  match tc_function d with
  | Some f =>
      let c := if opt_truthy (fn_name f)
               then set_name (default "" (fn_name f)) c else c in
      if opt_truthy (fn_arguments f)
      then add_arguments (default "" (fn_arguments f)) c else c
  | None => c
  end.

(** The name carried by the last delta that has a non-empty one. *)
Definition final_name (deltas : list ToolCallDelta) : string :=
  name (fold_left absorb deltas (mkToolCall None "" "")).

Definition join_with (piece : FunctionDelta -> option string)
    (acc : string) (d : ToolCallDelta) : string :=
  match tc_function d with
  | Some f => acc +:+ default "" (piece f)
  | None => acc
  end.

(** The argument pieces of the deltas, concatenated in order. *)
Definition joined_arguments (deltas : list ToolCallDelta) : string :=
  fold_left (join_with fn_arguments) deltas "".

(** The name pieces of the deltas, concatenated in order: the name a
    loop that appended names would build. *)
Definition joined_names (deltas : list ToolCallDelta) : string :=
  fold_left (join_with fn_name) deltas "".

(** A delta of the call at position [i] that carries a function part. *)
Definition addresses (i : nat) (d : ToolCallDelta) : Prop :=
  tc_index d = Some (Z.of_nat i) /\ tc_function d <> None.

Lemma append_cons (c : ascii) (s t : string) :
  String c s +:+ t = String c (s +:+ t).
Proof. reflexivity. Qed.

Lemma append_empty_l (s : string) : "" +:+ s = s.
Proof. reflexivity. Qed.

Lemma append_empty_r (s : string) : s +:+ "" = s.
Proof.
  induction s as [| c s IH]; [reflexivity |].
  now rewrite append_cons, IH.
Qed.

Lemma append_assoc (a b c : string) : (a +:+ b) +:+ c = a +:+ (b +:+ c).
Proof.
  induction a as [| x a IH]; [reflexivity |].
  now rewrite !append_cons, IH.
Qed.

Lemma py_index_last {A} (l : list A) (x : A) :
  py_index (l ++ [x]) (Z.of_nat (length l)) = Ok (length l).
Proof.
  unfold py_index. rewrite length_app. simpl.
  destruct (0 <=? Z.of_nat (length l)) eqn:E1; [| apply Z.leb_gt in E1; lia].
  destruct (Z.of_nat (length l) <? Z.of_nat (length l + 1)) eqn:E2;
    [| apply Z.ltb_ge in E2; lia].
  simpl. rewrite Nat2Z.id. reflexivity.
Qed.

Lemma alter_last {A} (f : A -> A) (l : list A) (x : A) :
  alter f (length l) (l ++ [x]) = l ++ [f x].
Proof.
  induction l as [| y l IH]; simpl; [reflexivity |].
  f_equal. exact IH.
Qed.

Lemma subscript_last (calls : list ToolCall) (c : ToolCall) :
  subscript (calls ++ [c]) (Some (Z.of_nat (length calls))) = Ok (length calls).
Proof. apply py_index_last. Qed.

(** A delta addressed to the last record updates that record. *)
Lemma accumulate_last (calls : list ToolCall) (c : ToolCall) (d : ToolCallDelta) :
  addresses (length calls) d ->
  accumulate (calls ++ [c]) d = Ok (calls ++ [absorb c d]).
Proof.
  intros [Hi Hf]. unfold accumulate, absorb. rewrite Hi.
  destruct (tc_function d) as [f |]; [| congruence].
  replace (Z.of_nat (length (calls ++ [c])) <=? Z.of_nat (length calls))
    with false
    by (symmetry; apply Z.leb_gt; rewrite length_app; simpl; lia).
  change (function ← Ok f; ?k) with k.
  set (c1 := if opt_truthy (fn_name f)
             then set_name (default "" (fn_name f)) c else c).
  assert (H1 : match fn_name f with
               | Some n =>
                   if str_truthy n then
                     k ← subscript (calls ++ [c]) (Some (Z.of_nat (length calls)));
                     Ok (alter (set_name n) k (calls ++ [c]))
                   else Ok (calls ++ [c])
               | None => Ok (calls ++ [c])
               end = Ok (calls ++ [c1])).
  { unfold c1, opt_truthy. destruct (fn_name f) as [n |]; [| reflexivity].
    destruct (str_truthy n); [| reflexivity].
    rewrite subscript_last. simpl. now rewrite alter_last. }
  unfold mbind at 1, result_bind at 1, Py.bind at 1.
  rewrite H1. cbv beta iota.
  unfold opt_truthy. destruct (fn_arguments f) as [a |]; [| reflexivity].
  destruct (str_truthy a); [| reflexivity].
  unfold mbind, result_bind, Py.bind.
  rewrite subscript_last. now rewrite alter_last.
Qed.

(** A delta addressed just past the end creates its record first. *)
Lemma accumulate_new (calls : list ToolCall) (d : ToolCallDelta) :
  addresses (length calls) d ->
  accumulate calls d = Ok (calls ++ [absorb (mkToolCall (tc_id d) "" "") d]).
Proof.
  intros [Hi Hf].
  rewrite <- (accumulate_last calls (mkToolCall (tc_id d) "" "") d (conj Hi Hf)).
  unfold accumulate. rewrite Hi, length_app. simpl.
  rewrite Z.leb_refl.
  destruct (Z.of_nat (length calls + 1) <=? Z.of_nat (length calls)) eqn:E;
    [apply Z.leb_le in E; lia |].
  reflexivity.
Qed.

Lemma accumulate_all_last (calls : list ToolCall) (c : ToolCall)
    (deltas : list ToolCallDelta) :
  Forall (addresses (length calls)) deltas ->
  accumulate_all (calls ++ [c]) deltas
  = Ok (calls ++ [fold_left absorb deltas c]).
Proof.
  intros H. revert c. induction H as [| d deltas Hd _ IH]; intros c; simpl.
  - reflexivity.
  - rewrite (accumulate_last _ _ _ Hd). simpl. apply IH.
Qed.

Lemma absorb_id (c : ToolCall) (deltas : list ToolCallDelta) :
  id (fold_left absorb deltas c) = id c.
Proof.
  revert c. induction deltas as [| d deltas IH]; intros c; simpl; [reflexivity |].
  rewrite IH. unfold absorb.
  destruct (tc_function d) as [f |]; [| reflexivity].
  destruct (opt_truthy (fn_name f)), (opt_truthy (fn_arguments f)); reflexivity.
Qed.

Lemma absorb_name (c c' : ToolCall) (deltas : list ToolCallDelta) :
  name c = name c' ->
  name (fold_left absorb deltas c) = name (fold_left absorb deltas c').
Proof.
  revert c c'. induction deltas as [| d deltas IH]; intros c c' H; simpl; [exact H |].
  apply IH. unfold absorb.
  destruct (tc_function d) as [f |]; [| exact H].
  destruct (opt_truthy (fn_name f)), (opt_truthy (fn_arguments f)); simpl; auto.
Qed.

Lemma fold_join (piece : FunctionDelta -> option string)
    (ds : list ToolCallDelta) (acc : string) :
  fold_left (join_with piece) ds acc
  = acc +:+ fold_left (join_with piece) ds "".
Proof.
  revert acc. induction ds as [| d ds IH]; intros acc; cbn [fold_left].
  - now rewrite append_empty_r.
  - rewrite IH, (IH (join_with piece "" d)). unfold join_with.
    destruct (tc_function d) as [f |].
    + now rewrite append_empty_l, append_assoc.
    + now rewrite append_empty_l.
Qed.

Lemma absorb_step_arguments (c : ToolCall) (d : ToolCallDelta) :
  arguments (absorb c d) = arguments c +:+ join_with fn_arguments "" d.
Proof.
  unfold absorb, join_with, opt_truthy.
  destruct (tc_function d) as [f |]; [| now rewrite append_empty_r].
  rewrite append_empty_l.
  destruct (fn_name f) as [n |], (fn_arguments f) as [a |]; cbn [default from_option];
    repeat match goal with
      | |- context [str_truthy ?s] => destruct s; cbn [str_truthy]
      end; cbn [arguments set_name add_arguments];
    rewrite ?append_empty_r; reflexivity.
Qed.

Lemma absorb_arguments (c : ToolCall) (deltas : list ToolCallDelta) :
  arguments (fold_left absorb deltas c)
  = arguments c +:+ fold_left (join_with fn_arguments) deltas "".
Proof.
  revert c. induction deltas as [| d deltas IH]; intros c; cbn [fold_left].
  - now rewrite append_empty_r.
  - rewrite IH, absorb_step_arguments, (fold_join _ deltas (join_with _ "" d)).
    now rewrite append_assoc.
Qed.

(** ** Several calls in one stream *)

(** The deltas arrive in order: each carries a function part and an
    index that is either in use already or the next unused one, when
    [n] indexes are in use. *)
Fixpoint in_order (n : nat) (deltas : list ToolCallDelta) : bool :=
  match deltas with
  | [] => true
  | d :: rest =>
      match tc_index d, tc_function d with
      | Some i, Some _ =>
          (0 <=? i) && (i <=? Z.of_nat n)
          && in_order (if i =? Z.of_nat n then S n else n) rest
      | _, _ => false
      end
  end.

Definition has_index (i : nat) (d : ToolCallDelta) : bool :=
  match tc_index d with
  | Some j => j =? Z.of_nat i
  | None => false
  end.

(** The deltas that carry the index [i], in order. *)
Definition of_index (i : nat) (deltas : list ToolCallDelta)
  : list ToolCallDelta :=
  List.filter (has_index i) deltas.

(** What the deltas of one index add up to: the id of the first of
    them, the last non-empty name piece, and the argument pieces
    concatenated. *)
Definition reassembled (deltas : list ToolCallDelta) : option ToolCall :=
  match deltas with
  | [] => None
  | first :: _ =>
      Some (mkToolCall (tc_id first) (final_name deltas)
              (joined_arguments deltas))
  end.

Lemma py_index_at {A} (l : list A) (k : nat) :
  (k < length l)%nat -> py_index l (Z.of_nat k) = Ok k.
Proof.
  intros H. unfold py_index.
  destruct (0 <=? Z.of_nat k) eqn:E1; [| apply Z.leb_gt in E1; lia].
  destruct (Z.of_nat k <? Z.of_nat (length l)) eqn:E2;
    [| apply Z.ltb_ge in E2; lia].
  cbn [andb]. now rewrite Nat2Z.id.
Qed.

(** A delta addressed to a record that exists updates it in place. *)
Lemma accumulate_at (calls : list ToolCall) (d : ToolCallDelta) (k : nat) :
  addresses k d -> (k < length calls)%nat ->
  accumulate calls d = Ok (alter (fun c => absorb c d) k calls).
Proof.
  intros [Hi Hf] Hk. unfold accumulate. rewrite Hi.
  destruct (tc_function d) as [f |] eqn:Ef; [| congruence].
  replace (Z.of_nat (length calls) <=? Z.of_nat k) with false
    by (symmetry; apply Z.leb_gt; lia).
  change (function ← Ok f; ?body) with body.
  set (g1 := fun c : ToolCall =>
               if opt_truthy (fn_name f)
               then set_name (default "" (fn_name f)) c else c).
  set (g2 := fun c : ToolCall =>
               if opt_truthy (fn_arguments f)
               then add_arguments (default "" (fn_arguments f)) c else c).
  assert (H1 : match fn_name f with
               | Some n =>
                   if str_truthy n then
                     j ← subscript calls (Some (Z.of_nat k));
                     Ok (alter (set_name n) j calls)
                   else Ok calls
               | None => Ok calls
               end = Ok (alter g1 k calls)).
  { unfold g1, opt_truthy, subscript. destruct (fn_name f) as [n |].
    - destruct (str_truthy n).
      + now rewrite (py_index_at _ _ Hk).
      + now rewrite list_alter_id.
    - now rewrite list_alter_id. }
  unfold mbind at 1, result_bind at 1, Py.bind at 1. rewrite H1. cbv beta iota.
  assert (Hk' : (k < length (alter g1 k calls))%nat) by now rewrite length_alter.
  assert (H2 : match fn_arguments f with
               | Some a =>
                   if str_truthy a then
                     j ← subscript (alter g1 k calls) (Some (Z.of_nat k));
                     Ok (alter (add_arguments a) j (alter g1 k calls))
                   else Ok (alter g1 k calls)
               | None => Ok (alter g1 k calls)
               end = Ok (alter g2 k (alter g1 k calls))).
  { unfold g2, opt_truthy, subscript. destruct (fn_arguments f) as [a |].
    - destruct (str_truthy a).
      + now rewrite (py_index_at _ _ Hk').
      + f_equal. symmetry. now apply list_alter_id.
    - f_equal. symmetry. now apply list_alter_id. }
  change (Ok (alter g1 k calls) ≫= ?body) with (body (alter g1 k calls)).
  cbv beta. rewrite H2, list_alter_alter_eq. f_equal.
  apply list_alter_ext; [| reflexivity].
  intros c _. unfold absorb, g1, g2. cbn. rewrite Ef. reflexivity.
Qed.

(** The record a first delta creates, after the later deltas of its
    index. *)
Definition created (deltas : list ToolCallDelta) : option ToolCall :=
  match deltas with
  | [] => None
  | first :: _ => Some (fold_left absorb deltas (mkToolCall (tc_id first) "" ""))
  end.

Lemma created_reassembled (deltas : list ToolCallDelta) :
  created deltas = reassembled deltas.
Proof.
  destruct deltas as [| first rest]; [reflexivity |].
  unfold created, reassembled. f_equal.
  set (c := fold_left absorb (first :: rest) (mkToolCall (tc_id first) "" "")).
  assert (Hid : id c = tc_id first) by apply absorb_id.
  assert (Hname : name c = final_name (first :: rest))
    by (unfold final_name; now apply absorb_name).
  assert (Hargs : arguments c = joined_arguments (first :: rest))
    by exact (absorb_arguments (mkToolCall (tc_id first) "" "") (first :: rest)).
  destruct c as [i n a]. cbn in *. congruence.
Qed.

Lemma of_index_cons (i : nat) (d : ToolCallDelta) (rest : list ToolCallDelta) :
  of_index i (d :: rest)
  = if has_index i d then d :: of_index i rest else of_index i rest.
Proof. reflexivity. Qed.

Lemma has_index_iff (i k : nat) (d : ToolCallDelta) :
  tc_index d = Some (Z.of_nat k) -> has_index i d = bool_decide (i = k).
Proof.
  intros H. unfold has_index. rewrite H.
  destruct (decide (i = k)) as [-> | Hne].
  - rewrite Z.eqb_refl. now rewrite bool_decide_eq_true_2.
  - rewrite bool_decide_eq_false_2 by exact Hne. apply Z.eqb_neq. lia.
Qed.

(** The accumulation loop over deltas that arrive in order: every
    record that exists absorbs the deltas of its index, and every new
    index gets the record its first delta creates. *)
Lemma accumulate_in_order (deltas : list ToolCallDelta) :
  forall calls0,
    in_order (length calls0) deltas = true ->
    exists calls,
      accumulate_all calls0 deltas = Ok calls
      /\ (forall i c, calls0 !! i = Some c ->
                      calls !! i = Some (fold_left absorb (of_index i deltas) c))
      /\ (forall i, (length calls0 <= i)%nat ->
                    calls !! i = created (of_index i deltas)).
Proof.
  induction deltas as [| d rest IH]; intros calls0 Hord.
  - exists calls0. split; [reflexivity |]. split.
    + intros i c H. exact H.
    + intros i Hi. cbn. now apply lookup_ge_None_2.
  - cbn [in_order] in Hord.
    destruct (tc_index d) as [z |] eqn:Hz; [| discriminate].
    destruct (tc_function d) as [f |] eqn:Hf; [| discriminate].
    apply andb_true_iff in Hord as [Hrange Hord].
    apply andb_true_iff in Hrange as [Hlo Hhi].
    apply Z.leb_le in Hlo, Hhi.
    assert (Hk : z = Z.of_nat (Z.to_nat z)) by lia.
    set (k := Z.to_nat z) in *.
    assert (Haddr : addresses k d) by (split; congruence).
    assert (Hidx : forall i, has_index i d = bool_decide (i = k))
      by (intros i; apply has_index_iff; congruence).
    cbn [accumulate_all].
    destruct (Z.eqb_spec z (Z.of_nat (length calls0))) as [Hnew | Hold].
    + assert (Hkn : k = length calls0) by lia.
      rewrite Hkn in Haddr. rewrite (accumulate_new _ _ Haddr).
      set (c1 := absorb (mkToolCall (tc_id d) "" "") d).
      change (Ok ?x ≫= ?body) with (body x). cbv beta.
      destruct (IH (calls0 ++ [c1])) as (calls & Hacc & Hkeep & Hfresh).
      { rewrite length_app. cbn [length].
        replace (length calls0 + 1)%nat with (S (length calls0)) by lia.
        exact Hord. }
      exists calls. split; [exact Hacc |]. split.
      * intros i c Hi. rewrite of_index_cons, Hidx.
        assert (i < length calls0)%nat by (eapply lookup_lt_Some, Hi).
        rewrite bool_decide_eq_false_2 by lia.
        apply Hkeep. now rewrite lookup_app_l.
      * intros i Hi. rewrite of_index_cons, Hidx.
        destruct (decide (i = k)) as [-> | Hne].
        -- rewrite bool_decide_eq_true_2 by reflexivity.
           cbn [created fold_left]. apply Hkeep.
           rewrite Hkn. rewrite lookup_app_r by lia.
           now rewrite Nat.sub_diag.
        -- rewrite bool_decide_eq_false_2 by exact Hne.
           apply Hfresh. rewrite length_app. cbn [length]. lia.
    + assert (Hlt : (k < length calls0)%nat) by lia.
      rewrite (accumulate_at _ _ _ Haddr Hlt).
      change (Ok ?x ≫= ?body) with (body x). cbv beta.
      destruct (IH (alter (fun c => absorb c d) k calls0))
        as (calls & Hacc & Hkeep & Hfresh).
      { rewrite length_alter. exact Hord. }
      exists calls. split; [exact Hacc |]. split.
      * intros i c Hi. rewrite of_index_cons, Hidx.
        destruct (decide (i = k)) as [-> | Hne].
        -- rewrite bool_decide_eq_true_2 by reflexivity.
           cbn [fold_left]. apply Hkeep.
           now rewrite list_lookup_alter_eq, Hi.
        -- rewrite bool_decide_eq_false_2 by exact Hne.
           apply Hkeep. now rewrite list_lookup_alter_ne by congruence.
      * intros i Hi. rewrite of_index_cons, Hidx.
        rewrite bool_decide_eq_false_2 by lia.
        apply Hfresh. now rewrite length_alter.
Qed.

End AccumulationFacts.

(** ** The tool loop and what reaches the Tool Invoker *)

Section ToolLoopFacts.
Import Llm.

Lemma outcome_bind {E A B} (m : Eff E A) (k : A -> Eff E B) :
  outcome (m ≫= k)
  = match outcome m with
    | Ok a => outcome (k a)
    | Raise e => Raise e
    end.
Proof. unfold mbind, eff_bind. destruct (outcome m); reflexivity. Qed.

Lemma trace_bind {E A B} (m : Eff E A) (k : A -> Eff E B) :
  trace (m ≫= k)
  = trace m ++ match outcome m with
               | Ok a => trace (k a)
               | Raise e => []
               end.
Proof.
  unfold mbind, eff_bind. destruct (outcome m); simpl; [reflexivity |].
  now rewrite app_nil_r.
Qed.

(** The calls of [_execute_tool] recorded in a trace: the tool name and
    the parsed arguments each was given. *)
Definition invocations (t : list effect) : list (string * json) :=
  omap (fun e => match e with
                 | Invoke tool_name args => Some (tool_name, args)
                 | _ => None
                 end) t.

Definition silent (e : effect) : Prop :=
  match e with
  | Invoke _ _ => False
  | _ => True
  end.

Lemma silent_invocations (t : list effect) :
  Forall silent t -> invocations t = [].
Proof.
  induction 1 as [| e t He _ IH]; [reflexivity |].
  destruct e; simpl in *; try exact IH. contradiction.
Qed.

Lemma invocations_app (t1 t2 : list effect) :
  invocations (t1 ++ t2) = invocations t1 ++ invocations t2.
Proof. apply omap_app. Qed.

(** The [try] block for one tool call: parse the argument string, then
    dispatch. *)
Definition tool_attempt (w : world) (self : LlmClient) (c : ToolCall) : Gen json :=
  args ← lift (json_loads w (arguments c));
  _execute_tool w self (name c) args.

(** The result recorded for a tool call: what the tool returned, or the
    error payload built from the exception. *)
Definition tool_payload (w : world) (self : LlmClient) (c : ToolCall) : json :=
  match outcome (tool_attempt w self c) with
  | Ok r => r
  | Raise e => error_payload e
  end.

(** The tool message recorded for a tool call. *)
Definition tool_result (w : world) (self : LlmClient) (c : ToolCall) : message :=
  ToolResult (id c) (name c) (json_dumps w (tool_payload w self c)).

(** What the Tool Invoker receives for a tool call: nothing when the
    argument string does not parse. *)
Definition received (w : world) (c : ToolCall) : list (string * json) :=
  match json_loads w (arguments c) with
  | Ok args => [(name c, args)]
  | Raise _ => []
  end.

Lemma tool_attempt_invocations w self c :
  invocations (trace (tool_attempt w self c)) = received w c.
Proof.
  unfold tool_attempt, received.
  destruct (json_loads w (arguments c)) as [args | e]; [| reflexivity].
  rewrite bind_lift_ok. reflexivity.
Qed.

Lemma guarded_attempt w self c :
  let g := try_except (tool_attempt w self c) (fun e => mret (error_payload e)) in
  outcome g = Ok (tool_payload w self c)
  /\ trace g = trace (tool_attempt w self c).
Proof.
  unfold try_except, tool_payload. simpl.
  destruct (outcome (tool_attempt w self c)) eqn:E; simpl.
  - split; [exact E | reflexivity].
  - split; [reflexivity | apply app_nil_r].
Qed.

(** The new tool loop never raises and records one message per call,
    in order. *)
Lemma run_tools_outcome w self calls :
  outcome (run_tools w self calls) = Ok (List.map (tool_result w self) calls).
Proof.
  induction calls as [| c calls IH]; [reflexivity |].
  cbn [run_tools List.map].
  destruct (guarded_attempt w self c) as [Ho _].
  fold (tool_attempt w self c).
  rewrite outcome_bind, Ho, outcome_bind, IH. reflexivity.
Qed.

Lemma run_tools_invocations w self calls :
  invocations (trace (run_tools w self calls)) = flat_map (received w) calls.
Proof.
  induction calls as [| c calls IH]; [reflexivity |].
  cbn [run_tools flat_map].
  destruct (guarded_attempt w self c) as [Ho Ht].
  fold (tool_attempt w self c).
  rewrite trace_bind, Ho, Ht, trace_bind, run_tools_outcome.
  rewrite !invocations_app, tool_attempt_invocations, IH.
  simpl. now rewrite app_nil_r.
Qed.

(** The older tool loop records nothing for a call whose argument
    string does not parse: it yields an apology instead. *)
Lemma run_tools_old_drops_failed w self request c e :
  json_loads w (arguments c) = Raise e ->
  run_tools_old w self request [c]
  = mkEff [Yield (text_fragment request search_apology)] (Ok []).
Proof.
  intros H. cbn [run_tools_old]. rewrite H. reflexivity.
Qed.

(** The first pass over a stream that does not fail: its tool-call
    deltas, in order. *)
Definition stream_tool_calls (cs : list Chunk) : list ToolCallDelta :=
  flat_map (fun chunk =>
              match choices chunk with
              | d :: _ => d_tool_calls d
              | [] => []
              end) cs.

Lemma accumulate_all_app calls l1 l2 :
  accumulate_all calls (l1 ++ l2)
  = accumulate_all calls l1 ≫= fun calls' => accumulate_all calls' l2.
Proof.
  revert calls. induction l1 as [| d l1 IH]; intros calls; simpl.
  - reflexivity.
  - destruct (accumulate calls d) as [calls' | e]; simpl; [apply IH | reflexivity].
Qed.

Lemma consume_first_calls request cs calls content calls' :
  Forall (fun chunk => choices chunk <> []) cs ->
  accumulate_all calls (stream_tool_calls cs) = Ok calls' ->
  exists content',
    outcome (consume_first request cs None calls content) = Ok (calls', content').
Proof.
  intros H. revert calls content.
  induction H as [| chunk cs Hc _ IH]; intros calls content Hacc.
  - simpl in *. injection Hacc as <-. eauto.
  - cbn [stream_tool_calls flat_map] in Hacc. fold (stream_tool_calls cs) in Hacc.
    rewrite accumulate_all_app in Hacc.
    cbn [consume_first]. unfold first_choice.
    destruct (choices chunk) as [| delta ds]; [congruence |].
    rewrite bind_lift_ok.
    destruct (accumulate_all calls (d_tool_calls delta)) as [calls1 | e];
      [| discriminate].
    simpl in Hacc. rewrite bind_lift_ok.
    rewrite outcome_bind.
    destruct (d_content delta) as [text |].
    + destruct (str_truthy text).
      * unfold yield. rewrite bind_perform. cbn [outcome mret eff_ret].
        apply IH, Hacc.
      * cbn [outcome mret eff_ret]. apply IH, Hacc.
    + cbn [outcome mret eff_ret]. apply IH, Hacc.
Qed.

(** The effects of a cycle whose first pass ends with tool calls. *)
Lemma cycle_with_tools tools w self request msgs s c calls content results :
  prepare_prompt w self request = Ok msgs ->
  first_completion w msgs = Ok s ->
  outcome (consume_first request (chunks s) (fault s) [] "") = Ok (c :: calls, content) ->
  outcome (tools (c :: calls)) = Ok results ->
  exists first_pass tail,
    trace (cycle tools w self request)
    = Create msgs true :: first_pass
      ++ trace (tools (c :: calls))
      ++ Create (msgs ++ [AssistantCalls content (c :: calls)] ++ results) false
      :: tail
    /\ Forall silent first_pass /\ Forall silent tail.
Proof.
  intros Hpp Hfc Hcf Htools. unfold cycle.
  rewrite Hpp, bind_lift_ok, bind_perform. cbn [trace].
  rewrite Hfc, bind_lift_ok, trace_bind, Hcf. cbv beta iota.
  destruct (choice settings.wait_variants (wait_draw w)) as [filler | e] eqn:Hch;
    [| discriminate].
  rewrite trace_bind, !bind_lift_ok. unfold yield at 1 2.
  rewrite !bind_perform. cbn [trace outcome].
  rewrite !(trace_bind (tools (c :: calls))), !(outcome_bind (tools (c :: calls))).
  rewrite Htools, !bind_perform. cbn [trace outcome].
  set (F := lift (final_completion w
                    (msgs ++ [AssistantCalls content (c :: calls)] ++ results))
            ≫= fun final_response : Stream =>
                 consume_final request (chunks final_response)
                   (fault final_response)).
  exists (trace (consume_first request (chunks s) (fault s) [] "")
          ++ [Yield (text_fragment request filler)]).
  exists (trace F ++ match outcome F with
                     | Ok _ => trace (yield (complete_fragment request))
                     | Raise _ => []
                     end).
  split.
  - rewrite <- !app_assoc. cbn [app]. rewrite <- !app_assoc. cbn [app].
    reflexivity.
  - split.
    + apply Forall_app. split; [| repeat constructor].
      apply consume_first_Forall; intros; exact I.
    + apply Forall_app. split.
      * apply bind_trace_Forall; [apply lift_trace_Forall |]. intros.
        apply consume_final_Forall; intros; exact I.
      * destruct (outcome F); repeat constructor.
Qed.

End ToolLoopFacts.

(** ** Claims on tool calls *)

Section ToolCallClaims.
Import Llm.

Lemma draft_response_invocations tools w self request :
  invocations (trace (try_except (cycle tools w self request)
                        (fun e => yield (error_fragment request))))
  = invocations (trace (cycle tools w self request)).
Proof.
  unfold try_except. destruct (outcome (cycle tools w self request)).
  - reflexivity.
  - cbn [trace]. rewrite invocations_app. simpl. apply app_nil_r.
Qed.

Lemma In_draft_response (x : effect) w self request :
  In x (trace (cycle (run_tools w self) w self request)) ->
  In x (draft_response w self request).
Proof.
  unfold draft_response, try_except.
  destruct (outcome (cycle (run_tools w self) w self request)).
  - auto.
  - cbn [trace]. intros H. apply in_or_app. now left.
Qed.

(** C4, as the code has it.  For a stream that does not fail, each of
    whose chunks has a choice, and whose tool-call deltas arrive in
    order (each carries a function part and an index that is in use
    already or is the next unused one), whatever the number of calls and
    however their deltas interleave, the accumulation loop builds one
    record per index: the record at an index has the id of the first
    delta with that index, as argument string the concatenation of the
    argument pieces of the deltas with that index, and as name the last
    non-empty name piece among them (names are assigned, not appended).
    The Tool Invoker is called, record by record, with that name and the
    parse of the reassembled argument string, and is not called for a
    record whose string does not parse. *)
Theorem streamed_tool_call_reassembly (w : world) (self : LlmClient)
    (request : ResponseRequiredRequest) (msgs : list message) (s : Stream)
    (first : ToolCallDelta) (rest : list ToolCallDelta) :
  prepare_prompt w self request = Ok msgs ->
  first_completion w msgs = Ok s ->
  fault s = None ->
  Forall (fun chunk => choices chunk <> []) (chunks s) ->
  stream_tool_calls (chunks s) = first :: rest ->
  in_order 0 (first :: rest) = true ->
  exists calls,
    accumulate_all [] (first :: rest) = Ok calls
    /\ (forall i, calls !! i = reassembled (of_index i (first :: rest)))
    /\ invocations (draft_response w self request)
       = flat_map (received w) calls.
Proof.
  intros Hpp Hfc Hfault Hchoices Hstream Hord.
  destruct (accumulate_in_order (first :: rest) [] Hord)
    as (calls & Hacc & _ & Hfresh).
  exists calls. split; [exact Hacc |]. split.
  { intros i. rewrite <- created_reassembled. apply Hfresh. cbn. lia. }
  assert (Hne : exists c calls', calls = c :: calls').
  { pose proof (Hfresh 0%nat ltac:(cbn; lia)) as H0.
    cbn [in_order] in Hord.
    destruct (tc_index first) as [z |] eqn:Hz; [| discriminate].
    destruct (tc_function first); [| discriminate].
    apply andb_true_iff in Hord as [Hrange _].
    apply andb_true_iff in Hrange as [Hlo Hhi].
    apply Z.leb_le in Hlo, Hhi. cbn in Hhi.
    rewrite of_index_cons in H0. unfold has_index in H0. rewrite Hz in H0.
    replace (z =? Z.of_nat 0) with true in H0
      by (symmetry; apply Z.eqb_eq; lia).
    destruct calls as [| c calls']; [discriminate | eauto]. }
  destruct Hne as (c & calls' & ->).
  destruct (consume_first_calls request (chunks s) [] "" (c :: calls') Hchoices)
    as [content Hcf].
  { rewrite Hstream. exact Hacc. }
  rewrite <- Hfault in Hcf.
  destruct (cycle_with_tools (run_tools w self) w self request msgs s c calls'
              content _ Hpp Hfc Hcf (run_tools_outcome w self (c :: calls')))
    as (first_pass & tail & Htrace & Hs1 & Hs2).
  unfold draft_response. rewrite draft_response_invocations, Htrace.
  change (Create msgs true :: first_pass ++ ?t)
    with ((Create msgs true :: first_pass) ++ t).
  rewrite !invocations_app, run_tools_invocations.
  rewrite (silent_invocations (Create msgs true :: first_pass))
    by (constructor; [exact I | exact Hs1]).
  rewrite (silent_invocations (Create _ false :: tail))
    by (constructor; [exact I | exact Hs2]).
  cbn [app]. now rewrite !app_nil_r.
Qed.

(** A stream that sends the name in two pieces. *)
Definition split_name_stream : Stream :=
  mkStream
    [mkChunk [mkDelta [mkToolCallDelta (Some 0) (Some "call_1")
                         (Some (mkFunctionDelta (Some "Places") (Some "{")))] None];
     mkChunk [mkDelta [mkToolCallDelta (Some 0) None
                         (Some (mkFunctionDelta (Some "Search") (Some "}")))] None]]
    None.

(** A stream that sends the name whole and the arguments in pieces. *)
Definition whole_name_stream : Stream :=
  mkStream
    [mkChunk [mkDelta [mkToolCallDelta (Some 0) (Some "call_1")
                         (Some (mkFunctionDelta (Some "PlacesSearch") (Some "{")))] None];
     mkChunk [mkDelta [mkToolCallDelta (Some 0) None
                         (Some (mkFunctionDelta None (Some "}")))] None]]
    None.

(** A world in which the model answers with [s], ["{}"] parses to the
    empty object, and every known tool returns an empty list. *)
Definition demo_llm_world (s : Stream) : world :=
  mkWorld (fun _ _ => Ok "persona")
    (fun _ => Ok s)
    (fun _ => Ok (mkStream [mkChunk [mkDelta [] (Some "Done.")]] None))
    (fun text => if String.eqb text "{}" then Ok (JDict [])
                 else Raise (Exn ValueError "Expecting value"))
    (fun _ => "[]")
    (fun _ _ => Ok tt)
    (fun _ _ _ => Ok (JList []))
    0.

Definition demo_request : ResponseRequiredRequest :=
  mkRequest "response_required" 7 [mkUtterance "user" "Any cafes near Main St?"].

(** Two calls whose deltas interleave: the names come whole with the
    first delta of each call, the arguments in two pieces. *)
Definition interleaved_deltas : list ToolCallDelta :=
  [mkToolCallDelta (Some 0) (Some "call_a")
     (Some (mkFunctionDelta (Some "PlacesSearch") (Some "{")));
   mkToolCallDelta (Some 1) (Some "call_b")
     (Some (mkFunctionDelta (Some "PropertySearch") (Some "{")));
   mkToolCallDelta (Some 0) None (Some (mkFunctionDelta None (Some "}")));
   mkToolCallDelta (Some 1) None (Some (mkFunctionDelta None (Some "}")))].

Definition interleaved_stream : Stream :=
  mkStream
    (List.map (fun d => mkChunk [mkDelta [d] None]) interleaved_deltas) None.

Lemma streamed_tool_call_reassembly_witness :
  exists calls,
    accumulate_all [] interleaved_deltas = Ok calls
    /\ (forall i, calls !! i = reassembled (of_index i interleaved_deltas))
    /\ invocations (draft_response (demo_llm_world interleaved_stream)
                      Llm.init demo_request)
       = flat_map (received (demo_llm_world interleaved_stream)) calls.
Proof.
  apply (streamed_tool_call_reassembly
           (demo_llm_world interleaved_stream) Llm.init demo_request
           [Plain "system" "persona"; Plain "user" "Any cafes near Main St?"]
           interleaved_stream).
  - reflexivity.
  - reflexivity.
  - reflexivity.
  - repeat constructor; discriminate.
  - reflexivity.
  - reflexivity.
Defined.

(** What the loop makes of the interleaved deltas, and what the Tool
    Invoker receives. *)
Example interleaved_calls_reassembled :
  accumulate_all [] interleaved_deltas
  = Ok [mkToolCall (Some "call_a") "PlacesSearch" "{}";
        mkToolCall (Some "call_b") "PropertySearch" "{}"]
  /\ invocations (draft_response (demo_llm_world interleaved_stream)
                    Llm.init demo_request)
     = [("PlacesSearch", JDict []); ("PropertySearch", JDict [])].
Proof. split; reflexivity. Qed.

(** C4, as stated, fails: a name split over two deltas is not put back
    together.  The record, and the Tool Invoker, get the last piece. *)
Lemma split_name_not_reassembled :
  let deltas := stream_tool_calls (chunks split_name_stream) in
  joined_names deltas = "PlacesSearch"
  /\ accumulate_all [] deltas = Ok [mkToolCall (Some "call_1") "Search" "{}"]
  /\ invocations (draft_response (demo_llm_world split_name_stream)
                    Llm.init demo_request)
     = [("Search", JDict [])].
Proof. repeat split; reflexivity. Qed.

(** C5.  In the tool loop of app/src/llm.py every accumulated tool call,
    whether its arguments parse and its execution succeeds or not, adds
    exactly one tool message carrying its call identifier, in order; the
    loop never raises; and the follow-up generation is requested with
    these messages appended to the conversation. *)
Theorem every_tool_call_gets_one_result (w : world) (self : LlmClient)
    (request : ResponseRequiredRequest) :
  (forall calls,
      outcome (run_tools w self calls)
      = Ok (List.map (fun c => ToolResult (id c) (name c)
                                 (json_dumps w (tool_payload w self c))) calls))
  /\ (forall msgs s c calls content,
         prepare_prompt w self request = Ok msgs ->
         first_completion w msgs = Ok s ->
         outcome (consume_first request (chunks s) (fault s) [] "")
         = Ok (c :: calls, content) ->
         In (Create (msgs ++ [AssistantCalls content (c :: calls)]
                       ++ List.map (fun c => ToolResult (id c) (name c)
                                               (json_dumps w (tool_payload w self c)))
                            (c :: calls)) false)
            (draft_response w self request)).
Proof.
  split.
  - intros calls. apply run_tools_outcome.
  - intros msgs s c calls content Hpp Hfc Hcf.
    destruct (cycle_with_tools (run_tools w self) w self request msgs s c calls
                content _ Hpp Hfc Hcf (run_tools_outcome w self (c :: calls)))
      as (first_pass & tail & Htrace & _ & _).
    apply In_draft_response. rewrite Htrace.
    right. apply in_or_app. right. apply in_or_app. right. left. reflexivity.
Qed.

(** Two calls in one stream: the first has arguments that do not parse,
    the second succeeds. *)
Definition two_calls_stream : Stream :=
  mkStream
    [mkChunk [mkDelta [mkToolCallDelta (Some 0) (Some "call_a")
                         (Some (mkFunctionDelta (Some "PlacesSearch") (Some "{oops")))] None];
     mkChunk [mkDelta [mkToolCallDelta (Some 1) (Some "call_b")
                         (Some (mkFunctionDelta (Some "PropertySearch") (Some "{}")))] None]]
    None.

Lemma every_tool_call_gets_one_result_witness :
  In (Create [Plain "system" "persona"; Plain "user" "Any cafes near Main St?";
              AssistantCalls "" [mkToolCall (Some "call_a") "PlacesSearch" "{oops";
                                 mkToolCall (Some "call_b") "PropertySearch" "{}"];
              ToolResult (Some "call_a") "PlacesSearch" "[]";
              ToolResult (Some "call_b") "PropertySearch" "[]"] false)
     (draft_response (demo_llm_world two_calls_stream) Llm.init demo_request).
Proof.
  refine (proj2 (every_tool_call_gets_one_result
                   (demo_llm_world two_calls_stream) Llm.init demo_request)
            [Plain "system" "persona"; Plain "user" "Any cafes near Main St?"]
            two_calls_stream
            (mkToolCall (Some "call_a") "PlacesSearch" "{oops")
            [mkToolCall (Some "call_b") "PropertySearch" "{}"] "" _ _ _);
    reflexivity.
Defined.

(** The older loop of app/llm.py, on the same stream, records a message
    for the second call only. *)
Example old_loop_skips_failed_call :
  outcome (run_tools_old (demo_llm_world two_calls_stream) Llm.init demo_request
             [mkToolCall (Some "call_a") "PlacesSearch" "{oops";
              mkToolCall (Some "call_b") "PlacesSearch" "{}"])
  = Ok [ToolResult (Some "call_b") "PlacesSearch" "[]"].
Proof. reflexivity. Qed.

End ToolCallClaims.

(* ===================================================================== *)
(** * Properties of the greeting                                          *)
(* ===================================================================== *)

Section GreetingFacts.
Import Llm.

(** [sub in s] for Python strings. *)
Fixpoint contains (sub s : string) : bool :=
  String.prefix sub s
  || match s with
     | EmptyString => false
     | String _ s' => contains sub s'
     end.

Lemma prefix_here (sub post : string) : String.prefix sub (sub +:+ post) = true.
Proof.
  induction sub as [| c sub IH]; [now destruct post |].
  rewrite append_cons. cbn [String.prefix].
  destruct (Ascii.ascii_dec c c); [exact IH | congruence].
Qed.

Lemma contains_here (sub post : string) : contains sub (sub +:+ post) = true.
Proof.
  destruct (sub +:+ post) eqn:E; cbn [contains]; rewrite <- E, prefix_here;
    reflexivity.
Qed.

Lemma contains_later (sub pre s : string) :
  contains sub s = true -> contains sub (pre +:+ s) = true.
Proof.
  intros H. induction pre as [| c pre IH]; [exact H |].
  rewrite append_cons. cbn [contains]. rewrite IH. apply orb_true_r.
Qed.

Ltac find_piece :=
  repeat first [apply contains_here | apply contains_later].

Lemma onboarding_names_assistant (time_greeting user_name bot_name : string) :
  Forall (fun g => contains bot_name g = true /\ contains user_name g = true)
    (onboarding_greetings time_greeting user_name bot_name).
Proof. unfold onboarding_greetings. repeat constructor; find_piece. Qed.

Lemma contextual_names_user (third time_greeting user_name : string) :
  Forall (fun g => contains user_name g = true)
    (contextual_greetings_with third time_greeting user_name).
Proof. unfold contextual_greetings_with. repeat constructor; find_piece. Qed.

Lemma choice_In {A} (seq : list A) (draw : nat) (a : A) :
  choice seq draw = Ok a -> In a seq.
Proof.
  unfold choice. destruct seq as [| x seq]; [discriminate |].
  intros H.
  assert (Ha : a = nth (Nat.modulo draw (length (x :: seq))) (x :: seq) x)
    by congruence.
  rewrite Ha. apply nth_In. apply Nat.mod_upper_bound. discriminate.
Qed.

Lemma choice_nonempty {A} (x : A) (seq : list A) (draw : nat) :
  exists a, choice (x :: seq) draw = Ok a.
Proof. unfold choice. eauto. Qed.

(** C7, as the code has it.  [draft_begin_message] returns one complete
    frame with response id 0 and appends its text to the history.  With
    no metadata the text is one of the generic greetings.  With metadata
    and no user name it is one of the stock opening lines, whatever the
    first-interaction flag says.  With metadata and a user name it is an
    onboarding greeting containing the configured assistant name when the
    flag is ["true"], and a contextual greeting containing the user name
    otherwise. *)
Theorem greeting_selection (hour : Z) (draw : nat) (self : LlmClient) :
  exists greeting,
    draft_begin_message hour draw self
    = Ok (mkResponse 0 greeting true false, append_greeting self greeting)
    /\ let time_greeting := get_time_based_greeting hour in
       let md := default ∅ (metadata self) in
       let user_name := default "" (md !! "user_name") in
       let bot_name := default "Drew" (md !! "bot_name") in
       (metadata_truthy (metadata self) = false ->
        In greeting (generic_greetings time_greeting))
       /\ (metadata_truthy (metadata self) = true ->
           str_truthy user_name = false ->
           In greeting settings.opening_lines)
       /\ (metadata_truthy (metadata self) = true ->
           str_truthy user_name = true ->
           md !! "first_interaction" = Some "true" ->
           In greeting (onboarding_greetings time_greeting user_name bot_name)
           /\ contains bot_name greeting = true)
       /\ (metadata_truthy (metadata self) = true ->
           str_truthy user_name = true ->
           md !! "first_interaction" <> Some "true" ->
           In greeting (contextual_greetings time_greeting user_name)
           /\ contains user_name greeting = true).
Proof.
  unfold draft_begin_message.
  set (tg := get_time_based_greeting hour).
  set (md := default ∅ (metadata self)).
  set (user_name := default "" (md !! "user_name")).
  set (bot_name := default "Drew" (md !! "bot_name")).
  destruct (metadata_truthy (metadata self)) eqn:Hm; cbn [negb].
  - destruct (str_truthy user_name) eqn:Hu.
    + destruct (bool_decide (md !! "first_interaction" = Some "true")) eqn:Hf.
      * apply bool_decide_eq_true in Hf.
        destruct (choice_nonempty _ _ draw
                    : exists a, choice (onboarding_greetings tg user_name bot_name)
                                  draw = Ok a) as [g Hg].
        exists g. rewrite Hg. split; [reflexivity |].
        apply choice_In in Hg.
        repeat split; try discriminate; try congruence; auto.
        pose proof (onboarding_names_assistant tg user_name bot_name) as HF.
        rewrite Stdlib.Lists.List.Forall_forall in HF. apply HF, Hg.
      * apply bool_decide_eq_false in Hf.
        destruct (choice_nonempty _ _ draw
                    : exists a, choice (contextual_greetings tg user_name)
                                  draw = Ok a) as [g Hg].
        exists g. rewrite Hg. split; [reflexivity |].
        apply choice_In in Hg.
        repeat split; try discriminate; try congruence; auto.
        pose proof (contextual_names_user ", How's your day going?" tg user_name) as HF.
        rewrite Stdlib.Lists.List.Forall_forall in HF. apply HF, Hg.
    + destruct (choice_nonempty _ _ draw
                  : exists a, choice settings.opening_lines draw = Ok a) as [g Hg].
      exists g.
      replace (if bool_decide (md !! "first_interaction" = Some "true")
               then choice settings.opening_lines draw
               else choice settings.opening_lines draw)
        with (choice settings.opening_lines draw)
        by (destruct (bool_decide _); reflexivity).
      rewrite Hg. split; [reflexivity |].
      apply choice_In in Hg.
      repeat split; try discriminate; try congruence; auto.
  - destruct (choice_nonempty _ _ draw
                : exists a, choice (generic_greetings tg) draw = Ok a) as [g Hg].
    exists g. rewrite Hg. split; [reflexivity |].
    apply choice_In in Hg.
    repeat split; try discriminate; try congruence; auto.
Qed.

(** A first-time user called Ada whose assistant is configured as Max. *)
Definition ada_session : LlmClient :=
  mkClient (Some "call_1")
    (Some (<["user_name" := "Ada"]>
             (<["bot_name" := "Max"]> (<["first_interaction" := "true"]> ∅))))
    [] [] true.

(** The same call without a user name. *)
Definition nameless_session : LlmClient :=
  mkClient (Some "call_1")
    (Some (<["bot_name" := "Max"]> (<["first_interaction" := "true"]> ∅)))
    [] [] true.

Lemma greeting_selection_witness :
  exists greeting,
    draft_begin_message 9 0 ada_session
    = Ok (mkResponse 0 greeting true false, append_greeting ada_session greeting)
    /\ contains "Max" greeting = true.
Proof.
  destruct (greeting_selection 9 0 ada_session) as (g & Heq & _ & _ & H & _).
  exists g. split; [exact Heq |].
  apply H; reflexivity.
Defined.

(** C7, as stated, fails: with metadata and the first-interaction flag
    but no user name, the greeting is a stock opening line, which names
    Drew and not the configured assistant. *)
Lemma flagged_greeting_without_user_name :
  draft_begin_message 9 0 nameless_session
  = Ok (mkResponse 0
          "Hi, I'm Drew, your virtual real estate assistant. How can I help you today?"
          true false,
        append_greeting nameless_session
          "Hi, I'm Drew, your virtual real estate assistant. How can I help you today?")
  /\ metadata_truthy (metadata nameless_session) = true
  /\ default ∅ (metadata nameless_session) !! "first_interaction" = Some "true"
  /\ default ∅ (metadata nameless_session) !! "bot_name" = Some "Max"
  /\ contains "Max"
       "Hi, I'm Drew, your virtual real estate assistant. How can I help you today?"
     = false.
Proof. repeat split; vm_compute; reflexivity. Qed.

End GreetingFacts.

(* ===================================================================== *)
(** * Properties of the teardown                                          *)
(* ===================================================================== *)

Section CleanupFacts.
Import Llm.

(** The persistence calls and the pauses of a trace. *)
Definition posts (t : list io) : list communication :=
  omap (fun e => match e with Post data => Some data | _ => None end) t.
Definition sleeps (t : list io) : list Z :=
  omap (fun e => match e with Sleep seconds => Some seconds | _ => None end) t.

(** The poll answered 200 with a record that has no summary yet. *)
Definition pending (b : backend) (attempt : nat) : Prop :=
  exists r, get_call b attempt = Ok (mkGetResponse 200 (Ok r))
            /\ call_summary r = Ok None.

(** The poll answered 200 with this record, which has a summary. *)
Definition found (b : backend) (attempt : nat) (r : CallData) (summary : string)
  : Prop :=
  get_call b attempt = Ok (mkGetResponse 200 (Ok r))
  /\ call_summary r = Ok (Some summary).

(** The poll raised, or answered with another status, or answered 200
    with a record whose [call_analysis] is no object. *)
Definition refused (b : backend) (attempt : nat) : Prop :=
  (exists e, get_call b attempt = Raise e)
  \/ (exists r, get_call b attempt = Ok r /\ get_status r <> 200)
  \/ (exists r e, get_call b attempt = Ok (mkGetResponse 200 (Ok r))
                  /\ call_summary r = Raise e).

(** [int(value / 1000)]: the duration in seconds that [cleanup]
    persists for the [duration_ms] of the record. *)
Definition whole_seconds (value : Number) : result Z :=
  div_1000 value ≫= Zillow.py_int_of_float.

(** The record has a summary, but its duration is missing or does not
    convert. *)
Definition unconvertible (r : CallData) : Prop :=
  duration_ms r = None
  \/ exists value e, duration_ms r = Some value /\ whole_seconds value = Raise e.

(** Some poll within the retry budget would return a summary: the
    premise of the claim in the words of the specification. *)
Definition summary_within_budget (b : backend) : bool :=
  existsb (fun attempt =>
             match get_call b attempt with
             | Ok r =>
                 (get_status r =? 200)
                 && match get_json r with
                    | Ok record =>
                        match call_summary record with
                        | Ok (Some _) => true
                        | _ => false
                        end
                    | Raise _ => false
                    end
             | Raise _ => false
             end) (seq 0 max_retries).

(** The session has a call id, metadata and a user id. *)
Definition ready (self : LlmClient) (cid : string) (md : gmap string string)
    (uid : string) : Prop :=
  call_id self = Some cid /\ str_truthy cid = true
  /\ metadata self = Some md /\ metadata_truthy (Some md) = true
  /\ md !! "user_id" = Some uid /\ str_truthy uid = true.

Lemma whole_seconds_ok value d :
  whole_seconds value = Ok d ->
  exists f, div_1000 value = Ok f /\ Zillow.py_int_of_float f = Ok d.
Proof.
  unfold whole_seconds, mbind, result_bind, Py.bind.
  destruct (div_1000 value) as [f | e]; [eauto | discriminate].
Qed.

Lemma poll_found b cid uid drew attempt rest r summary value d n ts iso :
  found b attempt r summary ->
  duration_ms r = Some value -> whole_seconds value = Ok d ->
  py_int b uid = Ok n ->
  start_timestamp r = Some ts -> fromtimestamp b ts = Ok iso ->
  let data := mkCommunication n drew summary (default "" (recording_url r))
                d iso cid in
  trace (poll b cid uid drew (attempt :: rest)) = [Get attempt; Post data].
Proof.
  intros [Hget Hsum] Hms Hd Hn Hts Hiso data.
  apply whole_seconds_ok in Hd as (f & Hf & Hd). cbn [poll].
  rewrite bind_perform, Hget, bind_lift_ok. cbn [get_status get_json trace].
  rewrite Z.eqb_refl, bind_lift_ok, Hsum, bind_lift_ok, Hms. cbn [getitem].
  rewrite bind_lift_ok, Hf, bind_lift_ok, Hn, bind_lift_ok, Hd, bind_lift_ok, Hts.
  cbn [getitem].
  rewrite bind_lift_ok, Hiso, bind_lift_ok, bind_perform. cbn [trace].
  fold data. rewrite trace_bind. cbn [trace lift].
  destruct (save_communication b data); reflexivity.
Qed.

Lemma poll_unconvertible b cid uid drew attempt rest r summary :
  found b attempt r summary -> unconvertible r ->
  trace (poll b cid uid drew (attempt :: rest)) = [Get attempt].
Proof.
  intros [Hget Hsum] Hbad. cbn [poll].
  rewrite bind_perform, Hget, bind_lift_ok. cbn [get_status get_json trace].
  rewrite Z.eqb_refl, bind_lift_ok, Hsum, bind_lift_ok.
  destruct Hbad as [Hms | (value & e & Hms & Hw)]; rewrite Hms; cbn [getitem].
  - reflexivity.
  - rewrite bind_lift_ok. unfold whole_seconds, mbind at 1, result_bind, Py.bind in Hw.
    destruct (div_1000 value) as [f | e'] eqn:Hf; [| reflexivity].
    rewrite bind_lift_ok.
    destruct (py_int b uid) as [n | e'']; [| reflexivity].
    rewrite bind_lift_ok, Hw. reflexivity.
Qed.

Lemma poll_pending b cid uid drew attempt rest :
  pending b attempt ->
  poll b cid uid drew (attempt :: rest)
  = mkEff (Get attempt
           :: (if (attempt <? max_retries - 1)%nat then [Sleep 2] else [])
           ++ trace (poll b cid uid drew rest))
      (outcome (poll b cid uid drew rest)).
Proof.
  intros (r & Hget & Hsum). cbn [poll].
  rewrite bind_perform, Hget, bind_lift_ok. cbn [get_status get_json].
  rewrite Z.eqb_refl, bind_lift_ok, Hsum, bind_lift_ok.
  destruct (attempt <? max_retries - 1)%nat.
  - rewrite bind_perform. reflexivity.
  - rewrite bind_ret. destruct (poll b cid uid drew rest). reflexivity.
Qed.

Lemma poll_refused b cid uid drew attempt rest :
  refused b attempt ->
  trace (poll b cid uid drew (attempt :: rest)) = [Get attempt].
Proof.
  intros [(e & Hget) | [(r & Hget & Hst) | (r & e & Hget & Hsum)]]; cbn [poll];
    rewrite bind_perform, Hget; cbn [trace].
  - reflexivity.
  - rewrite bind_lift_ok.
    destruct (get_status r =? 200) eqn:E; [apply Z.eqb_eq in E; contradiction |].
    reflexivity.
  - rewrite bind_lift_ok. cbn [get_status get_json].
    rewrite Z.eqb_refl, bind_lift_ok, Hsum. reflexivity.
Qed.

(** The guarded block and the [finally] block together. *)
Lemma cleanup_ready b self cid md uid :
  ready self cid md uid ->
  trace (cleanup b self).1
  = trace (poll b cid uid (md !! "drew_id") (seq 0 max_retries)) ++ [CloseClient].
Proof.
  intros (Hc & Hct & Hm & Hmt & Hu & Hut). unfold cleanup. cbn [fst].
  rewrite Hc, Hct, Hm, Hmt. cbn [andb default from_option].
  unfold Datatypes.id. rewrite Hu, Hut.
  unfold try_except.
  destruct (outcome (poll b cid uid (md !! "drew_id") (seq 0 max_retries))) eqn:E.
  - rewrite trace_bind, E. reflexivity.
  - rewrite trace_bind. cbn [outcome trace mret eff_ret perform].
    now rewrite app_nil_r.
Qed.

(** [except Exception: print] lets nothing through. *)
Lemma swallow_all {E} (m : Eff E unit) :
  outcome (try_except m (fun e => mret tt)) = Ok tt.
Proof.
  unfold try_except. destruct (outcome m) as [[] |] eqn:H; [exact H | reflexivity].
Qed.

Lemma posts_app (t1 t2 : list io) : posts (t1 ++ t2) = posts t1 ++ posts t2.
Proof. apply omap_app. Qed.

Lemma sleeps_app (t1 t2 : list io) : sleeps (t1 ++ t2) = sleeps t1 ++ sleeps t2.
Proof. apply omap_app. Qed.

(** C9, as the code has it.  [cleanup] never lets an exception escape
    and always leaves the session empty (history, metadata and call id
    cleared, model client closed).  With call id, metadata and user id
    set, it polls at most three times, pausing 2 seconds after each
    answer without a summary except the third.  When the polls answer
    200 without a summary until one answers 200 with a summary, and the
    record has a [duration_ms] on which [int(duration_ms / 1000)]
    succeeds, a start time, and the user id is a number, exactly one
    record is persisted, with that number of seconds as its duration.
    When the duration is missing or does not convert, when all three
    polls answer 200 without a summary, or when a poll raises, answers
    another status or carries a [call_analysis] that is no object, which
    ends the polling at once, nothing is persisted. *)
Theorem cleanup_after_call (b : backend) (self : LlmClient) :
  outcome (cleanup b self).1 = Ok tt
  /\ (cleanup b self).2 = mkClient None None [] [] false
  /\ forall cid md uid, ready self cid md uid ->
     let t := trace (cleanup b self).1 in
     (forall k r summary value d n ts iso,
         (k < max_retries)%nat ->
         (forall j, (j < k)%nat -> pending b j) ->
         found b k r summary ->
         duration_ms r = Some value -> whole_seconds value = Ok d ->
         py_int b uid = Ok n ->
         start_timestamp r = Some ts -> fromtimestamp b ts = Ok iso ->
         posts t = [mkCommunication n (md !! "drew_id") summary
                      (default "" (recording_url r)) d iso cid]
         /\ sleeps t = repeat 2 k)
     /\ (forall k r summary,
            (k < max_retries)%nat ->
            (forall j, (j < k)%nat -> pending b j) ->
            found b k r summary -> unconvertible r ->
            posts t = [])
     /\ ((forall j, (j < max_retries)%nat -> pending b j) ->
         t = [Get 0%nat; Sleep 2; Get 1%nat; Sleep 2; Get 2%nat; CloseClient])
     /\ (forall k,
            (k < max_retries)%nat ->
            (forall j, (j < k)%nat -> pending b j) ->
            refused b k ->
            posts t = []).
Proof.
  split; [| split].
  - unfold cleanup. cbn [fst]. rewrite outcome_bind, swallow_all. reflexivity.
  - reflexivity.
  - intros cid md uid Hready t. subst t. rewrite (cleanup_ready _ _ _ _ _ Hready).
    set (drew := md !! "drew_id"). unfold max_retries. cbn [seq].
    split; [| split; [| split]].
    + intros k r summary value d n ts iso Hk Hpend Hfound Hms Hd Hn Hts Hiso.
      destruct k as [| [| [| k]]]; [| | | lia].
      * rewrite (poll_found _ _ _ _ _ _ _ _ _ _ _ _ _ Hfound Hms Hd Hn Hts Hiso).
        split; reflexivity.
      * rewrite (poll_pending _ _ _ _ _ _ (Hpend 0%nat ltac:(lia))).
        cbn [trace].
        rewrite (poll_found _ _ _ _ _ _ _ _ _ _ _ _ _ Hfound Hms Hd Hn Hts Hiso).
        split; reflexivity.
      * rewrite (poll_pending _ _ _ _ _ _ (Hpend 0%nat ltac:(lia))).
        cbn [trace].
        rewrite (poll_pending _ _ _ _ _ _ (Hpend 1%nat ltac:(lia))).
        cbn [trace].
        rewrite (poll_found _ _ _ _ _ _ _ _ _ _ _ _ _ Hfound Hms Hd Hn Hts Hiso).
        split; reflexivity.
    + intros k r summary Hk Hpend Hfound Hbad.
      destruct k as [| [| [| k]]]; [| | | lia].
      * rewrite (poll_unconvertible _ _ _ _ _ _ _ _ Hfound Hbad). reflexivity.
      * rewrite (poll_pending _ _ _ _ _ _ (Hpend 0%nat ltac:(lia))).
        cbn [trace].
        rewrite (poll_unconvertible _ _ _ _ _ _ _ _ Hfound Hbad). reflexivity.
      * rewrite (poll_pending _ _ _ _ _ _ (Hpend 0%nat ltac:(lia))).
        cbn [trace].
        rewrite (poll_pending _ _ _ _ _ _ (Hpend 1%nat ltac:(lia))).
        cbn [trace].
        rewrite (poll_unconvertible _ _ _ _ _ _ _ _ Hfound Hbad). reflexivity.
    + intros Hpend.
      rewrite (poll_pending _ _ _ _ _ _ (Hpend 0%nat ltac:(unfold max_retries; lia))).
      cbn [trace].
      rewrite (poll_pending _ _ _ _ _ _ (Hpend 1%nat ltac:(unfold max_retries; lia))).
      cbn [trace].
      rewrite (poll_pending _ _ _ _ _ _ (Hpend 2%nat ltac:(unfold max_retries; lia))).
      reflexivity.
    + intros k Hk Hpend Href.
      destruct k as [| [| [| k]]]; [| | | lia].
      * rewrite (poll_refused _ _ _ _ _ _ Href). reflexivity.
      * rewrite (poll_pending _ _ _ _ _ _ (Hpend 0%nat ltac:(lia))).
        cbn [trace]. rewrite (poll_refused _ _ _ _ _ _ Href). reflexivity.
      * rewrite (poll_pending _ _ _ _ _ _ (Hpend 0%nat ltac:(lia))).
        cbn [trace].
        rewrite (poll_pending _ _ _ _ _ _ (Hpend 1%nat ltac:(lia))).
        cbn [trace]. rewrite (poll_refused _ _ _ _ _ _ Href). reflexivity.
Qed.

(** A finished call of user 12. *)
Definition ended_session : LlmClient :=
  mkClient (Some "call_1")
    (Some (<["user_id" := "12"]> (<["drew_id" := "d7"]> ∅)))
    [Plain "assistant" "Hello"] [] true.

Definition analysed_call : CallData :=
  mkCallData (Some (AnalysisDict (Some "Discussed two listings.")))
    (Some (NInt 61999)) (Some 1700000000000) (Some "https://rec/1").

Definition unanalysed_call : CallData :=
  mkCallData None (Some (NInt 61999)) None None.

(** A backend whose call-detail endpoint gives the answers [answers],
    in order, and raises afterwards. *)
Definition demo_backend (answers : list GetResponse) : backend :=
  mkBackend
    (fun attempt => match nth_error answers attempt with
                    | Some r => Ok r
                    | None => Raise (Exn RuntimeError "no answer")
                    end)
    (fun s => if String.eqb s "12" then Ok 12
              else Raise (Exn ValueError "invalid literal for int()"))
    (fun _ => Ok "2023-11-14T22:13:20")
    (fun _ => Ok 201).

(** The summary is there on the second poll. *)
Lemma cleanup_after_call_witness :
  posts (trace (cleanup (demo_backend [mkGetResponse 200 (Ok unanalysed_call);
                                       mkGetResponse 200 (Ok analysed_call)])
                  ended_session).1)
  = [mkCommunication 12 (Some "d7") "Discussed two listings." "https://rec/1"
       61 "2023-11-14T22:13:20" "call_1"].
Proof.
  pose proof (cleanup_after_call
                (demo_backend [mkGetResponse 200 (Ok unanalysed_call);
                               mkGetResponse 200 (Ok analysed_call)])
                ended_session) as (_ & _ & H).
  destruct (H "call_1"
              (<["user_id" := "12"]> (<["drew_id" := "d7"]> ∅)) "12")
    as (Hfound & _ & _ & _).
  { repeat split; vm_compute; reflexivity. }
  refine (proj1 (Hfound 1%nat analysed_call "Discussed two listings."
                   (NInt 61999) 61 12
                   1700000000000 "2023-11-14T22:13:20" _ _ _ _ _ _ _ _)).
  - unfold max_retries. lia.
  - intros j Hj. assert (j = 0%nat) as -> by lia.
    exists unanalysed_call. split; reflexivity.
  - split; reflexivity.
  - reflexivity.
  - vm_compute. reflexivity.
  - reflexivity.
  - reflexivity.
  - reflexivity.
Defined.

(** The duration goes through a float: it is the whole number of
    seconds for an ordinary call, one more than that from about 1.7e16
    milliseconds on, and an [OverflowError] beyond the doubles. *)
Example whole_seconds_values :
  whole_seconds (NInt 61999) = Ok 61
  /\ whole_seconds (NInt (-1500)) = Ok (-1)
  /\ whole_seconds (NInt (2 ^ 45 * 1000 - 1)) = Ok (2 ^ 45)
  /\ whole_seconds (NInt (10 ^ 400))
     = Raise (Exn OverflowError "integer division result too large for a float")
  /\ whole_seconds (NFloat (S754_infinity false))
     = Raise (Exn OverflowError "cannot convert float infinity to integer").
Proof. repeat split; vm_compute; reflexivity. Qed.

(** A record whose [call_analysis] is [null] ends the polling at once:
    the later poll, which would have the summary, is never made. *)
Example null_analysis_ends_polling :
  trace (cleanup (demo_backend
                    [mkGetResponse 200
                       (Ok (mkCallData (Some AnalysisNull) None None None));
                     mkGetResponse 200 (Ok analysed_call)])
           ended_session).1
  = [Get 0%nat; CloseClient].
Proof. vm_compute. reflexivity. Qed.

(** C9, as stated, fails: when the first poll is answered with status
    503, the summary that the second poll would return is within the
    retry budget, and still nothing is persisted. *)
Lemma summary_within_budget_not_persisted :
  let b := demo_backend [mkGetResponse 503 (Ok unanalysed_call);
                         mkGetResponse 200 (Ok analysed_call)] in
  summary_within_budget b = true
  /\ trace (cleanup b ended_session).1 = [Get 0%nat; CloseClient]
  /\ posts (trace (cleanup b ended_session).1) = [].
Proof. repeat split; vm_compute; reflexivity. Qed.

End CleanupFacts.

(* ===================================================================== *)
(** * Properties of the connection handler                                *)
(* ===================================================================== *)

Section ServerFacts.
Import Llm Server.

(** ** What each step does to the shared response id *)

Lemma reply_error_unbound (c : Conn) : reply_error None c = c.
Proof. reflexivity. Qed.

Lemma send_dead (c : Conn) (f : OutFrame) :
  alive c = false -> send c f = Raise (Exn WebSocketDisconnect "").
Proof. intros H. unfold send. now rewrite H. Qed.

Lemma send_alive (c : Conn) (f : OutFrame) :
  alive c = true -> send c f = Ok (set_sent (sent c ++ [f]) c).
Proof. intros H. unfold send. now rewrite H. Qed.

Lemma message_error_response_id data c :
  Server.response_id (message_error data c) = Server.response_id c.
Proof. unfold message_error, send. destruct (alive c); reflexivity. Qed.

Lemma reply_error_response_id request c :
  Server.response_id (reply_error request c) = Server.response_id c.
Proof.
  unfold reply_error, send. destruct request; [| reflexivity].
  simpl. destruct (alive c); reflexivity.
Qed.

Lemma is_interaction_kind data :
  is_interaction data = true ->
  f_interaction_type data = Some "response_required"
  \/ f_interaction_type data = Some "reminder_required".
Proof.
  unfold is_interaction. destruct (f_interaction_type data) as [kind |];
    [| discriminate].
  rewrite orb_true_iff, !String.eqb_eq. intros [-> | ->]; auto.
Qed.

(** A generation request goes straight to [handle_response_required]. *)
Lemma handle_message_interaction e data c :
  is_interaction data = true ->
  handle_message e data c = handle_response_required e data c.
Proof.
  intros H. unfold handle_message.
  destruct (is_interaction_kind _ H) as [-> | ->]; reflexivity.
Qed.

(** Any other frame leaves the shared response id alone. *)
Lemma handle_message_other e data c :
  is_interaction data = false ->
  Server.response_id (handle_message e data c) = Server.response_id c.
Proof.
  unfold is_interaction, handle_message.
  destruct (f_interaction_type data) as [kind |];
    [| intros _; apply message_error_response_id].
  intros H. rewrite H.
  destruct (String.eqb kind "call_details").
  { destruct (set_metadata e data (llm_client c)) as [client [[] | err]].
    - destruct (draft_begin_message _ _ client) as [[first_event client'] | err].
      + unfold send. cbn [alive set_llm_client].
        destruct (alive c); [reflexivity |].
        now rewrite message_error_response_id.
      + now rewrite message_error_response_id.
    - now rewrite message_error_response_id. }
  destruct (String.eqb kind "ping_pong").
  { destruct (f_timestamp data) as [ts |];
      [| now rewrite message_error_response_id].
    unfold send. destruct (alive c) eqn:Ha; [reflexivity |].
    now rewrite message_error_response_id. }
  destruct (String.eqb kind "update_only"); reflexivity.
Qed.

Lemma handle_response_required_id e data c :
  Server.response_id (handle_response_required e data c)
  = default (Server.response_id c) (f_response_id data).
Proof.
  unfold handle_response_required.
  destruct (f_response_id data) as [rid |]; [| reflexivity].
  destruct (f_interaction_type data), (f_transcript data); reflexivity.
Qed.

Lemma resume_response_id k c :
  Server.response_id (resume k c) = Server.response_id c.
Proof.
  unfold resume. destruct (tasks c !! k) as [t |]; [| reflexivity].
  destruct (t_running t); [| reflexivity].
  destruct (t_pending t) as [| event rest]; [reflexivity |].
  destruct (_ <? _); [reflexivity |].
  unfold send. destruct (alive c) eqn:Ha; [reflexivity |].
  cbn [exn_cls finish set_tasks Server.response_id].
  apply message_error_response_id.
Qed.

(** The id a step starts, if it starts a generation request. *)
Definition starts (a : action) : option Z :=
  match a with
  | Recv _ data => if is_interaction data then f_response_id data else None
  | _ => None
  end.

Lemma started_cons a acts :
  started (a :: acts) = from_option (fun r => [r]) [] (starts a) ++ started acts.
Proof.
  change (started (a :: acts))
    with (match starts a with
          | Some r => r :: started acts
          | None => started acts
          end).
  destruct (starts a); reflexivity.
Qed.

Lemma started_app acts1 acts2 :
  started (acts1 ++ acts2) = started acts1 ++ started acts2.
Proof. apply omap_app. Qed.

Lemma step_response_id c a :
  Server.response_id (step c a) = default (Server.response_id c) (starts a).
Proof.
  destruct a as [e data | k | now_ms |]; cbn [step starts].
  - destruct (is_interaction data) eqn:H.
    + rewrite (handle_message_interaction _ _ _ H).
      apply handle_response_required_id.
    + now apply handle_message_other.
  - apply resume_response_id.
  - destruct (heartbeat c); [| reflexivity].
    unfold send. destruct (alive c); reflexivity.
  - reflexivity.
Qed.

Lemma run_app acts1 acts2 c : run (acts1 ++ acts2) c = run acts2 (run acts1 c).
Proof. apply fold_left_app. Qed.

Lemma last_cons {A} (l : list A) (r d : A) :
  List.last (r :: l) d = List.last l r.
Proof.
  revert r d. induction l as [| x l IH]; intros r d; [reflexivity |].
  change (List.last (r :: x :: l) d) with (List.last (x :: l) d).
  now rewrite (IH x d), (IH x r).
Qed.

(** The shared response id is the id of the request started last. *)
Lemma latest_is_last_started acts c :
  Server.response_id (run acts c) = List.last (started acts) (Server.response_id c).
Proof.
  revert c. induction acts as [| a acts IH]; intros c; [reflexivity |].
  change (run (a :: acts) c) with (run acts (step c a)).
  rewrite IH, step_response_id, started_cons.
  destruct (starts a) as [r |]; cbn [default from_option app]; [| reflexivity].
  symmetry. apply last_cons.
Qed.

End ServerFacts.

Section ServerClaims.
Import Llm Server.

Lemma last_In {A} (l : list A) (d : A) : In (List.last l d) (d :: l).
Proof.
  revert d. induction l as [| x l IH]; intros d; [left; reflexivity |].
  right. rewrite (last_cons l x d). apply IH.
Qed.

Lemma StronglySorted_snoc {A} (R : A -> A -> Prop) (l : list A) (x : A) :
  StronglySorted R (l ++ [x]) -> Forall (fun y => R y x) l.
Proof.
  induction l as [| y l IH]; intros H; [constructor |].
  inversion H as [| ? ? Hl Hy]; subst. constructor.
  - rewrite Stdlib.Lists.List.Forall_forall in Hy. apply Hy.
    apply in_or_app. right. left. reflexivity.
  - apply IH, Hl.
Qed.

(** An environment for the examples: the model asks for one tool call
    and then says "Done.". *)
Definition demo_env : env :=
  mkEnv (demo_llm_world whole_name_stream) 9 0 (fun _ => Ok 12).

Definition request_frame (kind : string) (rid : Z) : Frame :=
  mkFrame (Some kind) (Some rid) (Some []) None None None.

(** C3, as the code has it.  The shared response id always equals the id
    of the generation request started last (0 before the first); each
    request that starts leaves it no lower than before when the ids of
    the requests, from 0 on, arrive in non-decreasing order. *)
Theorem latest_response_id_tracks_last_request (acts : list action) (a : action) :
  Server.response_id (run acts connect) = List.last (started acts) 0
  /\ (Sorted Z.le (0 :: started (acts ++ [a])) ->
      Server.response_id (run acts connect)
      <= Server.response_id (run (acts ++ [a]) connect)).
Proof.
  split; [apply latest_is_last_started |].
  intros Hs. rewrite run_app. change (run [a] ?c) with (step c a).
  rewrite step_response_id.
  destruct (starts a) as [r |] eqn:Ha; cbn [default from_option]; [| lia].
  rewrite latest_is_last_started. cbn [Server.response_id connect].
  rewrite started_app, (started_cons a []), Ha in Hs.
  change (0 :: started acts ++ from_option (fun r0 => [r0]) [] (Some r)
               ++ started [])
    with ((0 :: started acts) ++ [r]) in Hs.
  apply Sorted_StronglySorted in Hs; [| intros x y z; lia].
  apply StronglySorted_snoc in Hs.
  rewrite Stdlib.Lists.List.Forall_forall in Hs.
  apply Hs, last_In.
Qed.

Lemma latest_response_id_tracks_last_request_witness :
  Server.response_id (run [Recv demo_env (request_frame "response_required" 3)] connect)
  <= Server.response_id
       (run ([Recv demo_env (request_frame "response_required" 3)]
             ++ [Recv demo_env (request_frame "reminder_required" 5)]) connect).
Proof.
  apply (latest_response_id_tracks_last_request
           [Recv demo_env (request_frame "response_required" 3)]
           (Recv demo_env (request_frame "reminder_required" 5))).
  repeat constructor; vm_compute; discriminate.
Defined.

(** C3, as stated, fails: a request that arrives out of order lowers the
    shared response id. *)
Lemma out_of_order_request_lowers_latest :
  Server.response_id
    (run [Recv demo_env (request_frame "response_required" 5)] connect) = 5
  /\ Server.response_id
       (run [Recv demo_env (request_frame "response_required" 5);
             Recv demo_env (request_frame "response_required" 3)] connect) = 3.
Proof. split; reflexivity. Qed.

(** C6.  A generation request without a transcript raises [KeyError]
    in [handle_response_required] before [request] is assigned; the
    handler then fails on the unbound [request] while it builds the
    apology, and nothing is sent: the peer gets no frame for response
    id 7.  The connection itself stays up. *)
Theorem malformed_request_gets_no_reply (e : env) :
  let data := mkFrame (Some "response_required") (Some 7) None None None None in
  let c := handle_message e data connect in
  sent c = [Config] /\ tasks c = [] /\ alive c = true /\ heartbeat c = true
  /\ Server.response_id c = 7.
Proof. repeat split. Qed.

(** The same holds on any connection and for a missing response id. *)
Lemma malformed_request_silent (e : env) (data : Frame) (c : Conn) :
  is_interaction data = true ->
  f_transcript data = None \/ f_response_id data = None ->
  sent (handle_message e data c) = sent c
  /\ tasks (handle_message e data c) = tasks c.
Proof.
  intros Hi Hm. rewrite (handle_message_interaction _ _ _ Hi).
  unfold handle_response_required.
  destruct (f_response_id data) as [rid |]; [| split; reflexivity].
  destruct Hm as [Ht | Hr]; [| discriminate].
  rewrite Ht. destruct (f_interaction_type data); split; reflexivity.
Qed.

End ServerClaims.

(** ** What a step delivers *)

Section Delivery.
Import Llm Server.













(** The frames that one step delivers to the peer. *)
Definition delivered (c : Conn) (a : action) : list OutFrame :=
  drop (length (sent c)) (sent (step c a)).

Lemma delivered_eq c a extra :
  sent (step c a) = sent c ++ extra -> delivered c a = extra.
Proof. intros H. unfold delivered. rewrite H. apply drop_app_length. Qed.


End Delivery.

(** ** Supersession *)

Section Supersession.
Import Llm Server.

(** Fragment [a] does not belong to a later request than fragment [b]. *)
Definition not_newer (a b : ResponseResponse) : Prop :=
  Llm.response_id a <= Llm.response_id b.

(** A task was created for a request that has started, and its
    generator yields fragments of that request only. *)
Definition task_ok (ids : list Z) (t : Task) : Prop :=
  In (req_response_id (t_request t)) ids
  /\ Forall (fun r => Llm.response_id r = req_response_id (t_request t))
       (t_pending t).

(** The response frames that the generation tasks deliver under a
    schedule, in the order of delivery: what the turns of the tasks add
    to the frames sent.  The frames that [handle_message] sends itself
    (the greeting, the echo of a ping, its own apology) are not among
    them. *)
Fixpoint task_output (acts : list action) (c : Conn)
  : list ResponseResponse :=
  match acts with
  | [] => []
  | a :: acts =>
      match a with
      | Resume _ => responses (delivered c a)
      | _ => []
      end ++ task_output acts (step c a)
  end.

(** The invariant of a connection on which the requests with ids [ids]
    have started and the generation tasks have delivered [out]. *)
Record Ord (c : Conn) (ids : list Z) (out : list ResponseResponse)
  : Prop := mkOrd {
  ord_latest : Forall (fun x => x <= Server.response_id c) ids;
  ord_tasks : Forall (task_ok ids) (tasks c);
  ord_out : Forall (fun r => In (Llm.response_id r) ids) out;
  ord_sorted : StronglySorted not_newer out
}.


Lemma StronglySorted_snoc_intro {A} (R : A -> A -> Prop) (l : list A) (x : A) :
  StronglySorted R l -> Forall (fun y => R y x) l -> StronglySorted R (l ++ [x]).
Proof.
  induction 1 as [| y l Hl IH Hy]; intros Hx; cbn [app].
  - repeat constructor.
  - inversion Hx; subst. constructor; [apply IH; assumption |].
    apply Forall_app. split; [exact Hy | repeat constructor; assumption].
Qed.

(** The fragments of a generator all carry the id of its request. *)
Lemma draft_response_ids w self request :
  Forall (fun r => Llm.response_id r = req_response_id request)
    (fragments (draft_response w self request)).
Proof.
  destruct (generator_one_complete_last (run_tools w self) w self request)
    as (pre & final & Heq & Hpre & Hid & _).
  { intros. apply run_tools_quiet. }
  unfold draft_response. rewrite Heq.
  apply Forall_app. split; [| repeat constructor; exact Hid].
  eapply Forall_impl; [exact Hpre |]. intros r [H _]. exact H.
Qed.

Lemma task_ok_weaken ids ids' t :
  (forall x, In x ids -> In x ids') -> task_ok ids t -> task_ok ids' t.
Proof. intros H [H1 H2]. split; auto. Qed.

Lemma message_error_dead data c : alive c = false -> message_error data c = c.
Proof. intros H. unfold message_error. now rewrite (send_dead _ _ H). Qed.

Lemma reply_error_dead request c : alive c = false -> reply_error request c = c.
Proof.
  intros H. unfold reply_error. destruct request; [| reflexivity].
  cbn. now rewrite (send_dead _ _ H).
Qed.

Lemma message_error_tasks data c : tasks (message_error data c) = tasks c.
Proof. unfold message_error, send. destruct (alive c); reflexivity. Qed.

(** A frame that is no generation request leaves the tasks alone. *)
Lemma handle_message_other_tasks e data c :
  is_interaction data = false ->
  tasks (handle_message e data c) = tasks c.
Proof.
  unfold is_interaction, handle_message.
  destruct (f_interaction_type data) as [kind |];
    [| intros _; apply message_error_tasks].
  intros H. rewrite H.
  destruct (String.eqb kind "call_details").
  { destruct (set_metadata e data (llm_client c)) as [client [[] | err]].
    - destruct (draft_begin_message _ _ client) as [[first_event client'] | err].
      + unfold send. cbn [alive set_llm_client].
        destruct (alive c); [reflexivity |].
        now rewrite message_error_tasks.
      + now rewrite message_error_tasks.
    - now rewrite message_error_tasks. }
  destruct (String.eqb kind "ping_pong").
  { destruct (f_timestamp data) as [ts |];
      [| now rewrite message_error_tasks].
    unfold send. destruct (alive c) eqn:Ha; [reflexivity |].
    now rewrite message_error_tasks. }
  destruct (String.eqb kind "update_only"); reflexivity.
Qed.

(** What a turn of a generation task does: it stops or idles without
    sending, or it sends the next fragment of its generator, which it
    does only when its request is not older than the shared id. *)
Lemma resume_turn k c :
  (sent (resume k c) = sent c
   /\ (tasks (resume k c) = tasks c
       \/ exists t, tasks c !! k = Some t
                    /\ tasks (resume k c)
                       = <[k := mkTask (t_data t) (t_request t) (t_pending t) false]>
                           (tasks c)))
  \/ (exists t event rest,
         tasks c !! k = Some t /\ t_pending t = event :: rest
         /\ Server.response_id c <= req_response_id (t_request t)
         /\ sent (resume k c) = sent c ++ [Response event]
         /\ tasks (resume k c)
            = <[k := mkTask (t_data t) (t_request t) rest true]> (tasks c)).
Proof.
  assert (Hfin : forall t c', tasks c !! k = Some t ->
                   sent c' = sent c -> tasks c' = tasks c ->
                   sent (finish k c') = sent c
                   /\ (tasks (finish k c') = tasks c
                       \/ exists t, tasks c !! k = Some t
                            /\ tasks (finish k c')
                               = <[k := mkTask (t_data t) (t_request t)
                                          (t_pending t) false]> (tasks c))).
  { intros t c' Ht Hs Hts. split; [exact Hs |]. right. exists t.
    split; [exact Ht |]. cbn [finish set_tasks tasks]. rewrite Hts.
    apply list_eq. intros i. destruct (decide (i = k)) as [-> | Hne].
    - rewrite list_lookup_alter_eq, Ht.
      rewrite list_lookup_insert_eq by (eapply lookup_lt_Some, Ht). reflexivity.
    - rewrite list_lookup_alter_ne by congruence.
      now rewrite list_lookup_insert_ne by congruence. }
  unfold resume.
  destruct (tasks c !! k) as [t |] eqn:Ht; [| left; auto].
  destruct (t_running t); [| left; auto].
  destruct (t_pending t) as [| event rest] eqn:Hp;
    [left; now apply (Hfin t) |].
  destruct (req_response_id (t_request t) <? Server.response_id c) eqn:Hstale;
    [left; now apply (Hfin t) |].
  apply Z.ltb_ge in Hstale.
  destruct (alive c) eqn:Ha.
  - rewrite (send_alive _ _ Ha). right. exists t, event, rest.
    repeat split; assumption.
  - rewrite (send_dead _ _ Ha). cbn [exn_cls].
    rewrite (message_error_dead _ _ Ha). left. now apply (Hfin t).
Qed.

(** A turn of a generation task keeps the invariant: what it delivers,
    if anything, belongs to the request started last. *)
Lemma Ord_resume c ids out k :
  Ord c ids out ->
  Ord (resume k c) ids (out ++ responses (delivered c (Resume k))).
Proof.
  intros [H1 H2 H3 H4].
  assert (Hid : Server.response_id (resume k c) = Server.response_id c)
    by apply resume_response_id.
  destruct (resume_turn k c)
    as [[Hs Hts] | (t & event & rest & Ht & Hp & Hfresh & Hs & Hts)].
  - rewrite (delivered_eq c (Resume k) []) by (cbn [step]; now rewrite Hs, app_nil_r).
    cbn [responses omap list_omap]. rewrite app_nil_r.
    constructor; try assumption; [now rewrite Hid |].
    destruct Hts as [-> | (t & Ht & ->)]; [exact H2 |].
    apply Forall_insert; [exact H2 |].
    exact (Forall_lookup_1 _ _ _ _ H2 Ht).
  - rewrite (delivered_eq c (Resume k) [Response event]) by exact Hs.
    change (responses [Response event]) with [event].
    pose proof (Forall_lookup_1 _ _ _ _ H2 Ht) as [Hin Hev].
    rewrite Hp in Hev. inversion Hev as [| ? ? Heid Hrest]; subst.
    constructor.
    + now rewrite Hid.
    + rewrite Hts. apply Forall_insert; [exact H2 |]. split; assumption.
    + apply Forall_app. split; [exact H3 |].
      repeat constructor. now rewrite Heid.
    + apply StronglySorted_snoc_intro; [exact H4 |].
      eapply Forall_impl; [exact H3 |]. intros r Hr. unfold not_newer.
      rewrite Heid. rewrite Stdlib.Lists.List.Forall_forall in H1.
      specialize (H1 _ Hr). lia.
Qed.

(** The start of a generation request keeps the invariant when its id
    is above the ids of the requests started before. *)
Lemma Ord_start e data c ids out :
  Ord c ids out ->
  Forall (fun x => forall r, f_response_id data = Some r -> x < r) ids ->
  Ord (handle_response_required e data c)
    (ids ++ from_option (fun r => [r]) [] (f_response_id data)) out.
Proof.
  intros [H1 H2 H3 H4] Hnew. unfold handle_response_required.
  destruct (f_response_id data) as [rid |]; cbn [from_option].
  - assert (Hlatest : Forall (fun x => x <= rid) (ids ++ [rid])).
    { apply Forall_app. split; [| repeat constructor; lia].
      eapply Forall_impl; [exact Hnew |]. intros x Hx.
      specialize (Hx rid eq_refl). lia. }
    assert (Htasks : Forall (task_ok (ids ++ [rid])) (tasks c)).
    { eapply Forall_impl; [exact H2 |]. intros t. apply task_ok_weaken.
      intros x Hx. apply in_or_app. now left. }
    assert (Hout : Forall (fun r => In (Llm.response_id r) (ids ++ [rid])) out).
    { eapply Forall_impl; [exact H3 |]. intros r Hr. apply in_or_app. now left. }
    destruct (f_interaction_type data) as [kind |], (f_transcript data) as [tr |];
      rewrite ?reply_error_unbound; constructor; cbn; try assumption.
    apply Forall_app. split; [exact Htasks |]. repeat constructor; cbn.
    + apply in_or_app. right. left. reflexivity.
    + apply (draft_response_ids (llm_world e) (llm_client c)
               (mkRequest kind rid tr)).
  - rewrite app_nil_r, reply_error_unbound. constructor; assumption.
Qed.

(** Every step keeps the invariant, whatever the frame received. *)
Lemma Ord_step c ids out a :
  Ord c ids out ->
  Forall (fun x => forall r, starts a = Some r -> x < r) ids ->
  Ord (step c a) (ids ++ from_option (fun r => [r]) [] (starts a))
    (out ++ match a with
            | Resume _ => responses (delivered c a)
            | _ => []
            end).
Proof.
  intros H Hnew. destruct a as [e data | k | now_ms |]; cbn [step starts] in *.
  - rewrite app_nil_r. destruct (is_interaction data) eqn:Hi.
    + rewrite (handle_message_interaction _ _ _ Hi). now apply Ord_start.
    + cbn [from_option]. rewrite app_nil_r. destruct H as [H1 H2 H3 H4].
      constructor; try assumption.
      * now rewrite (handle_message_other _ _ _ Hi).
      * now rewrite (handle_message_other_tasks _ _ _ Hi).
  - cbn [from_option]. rewrite app_nil_r. now apply Ord_resume.
  - cbn [from_option]. rewrite !app_nil_r. destruct (heartbeat c); [| exact H].
    destruct (alive c) eqn:Hal.
    + rewrite (send_alive _ _ Hal). destruct H. constructor; assumption.
    + rewrite (send_dead _ _ Hal). destruct H. constructor; assumption.
  - cbn [from_option]. rewrite !app_nil_r. destruct H. constructor; assumption.
Qed.

Lemma fresh_ids (ids : list Z) (a : action) (rest : list Z) :
  StronglySorted Z.lt (ids ++ from_option (fun r => [r]) [] (starts a) ++ rest) ->
  Forall (fun x => forall r, starts a = Some r -> x < r) ids.
Proof.
  destruct (starts a) as [r |]; cbn [from_option].
  - intros Hs. induction ids as [| x ids IH]; [constructor |].
    inversion Hs as [| ? ? Hs' Hx]; subst. constructor.
    + intros r' [= <-]. rewrite Stdlib.Lists.List.Forall_forall in Hx.
      apply Hx. apply in_or_app. right. left. reflexivity.
    + apply IH, Hs'.
  - intros _. apply Forall_forall. intros x _ r [=].
Qed.


Lemma Ord_connect : Ord connect [] [].
Proof. constructor; cbn; constructor. Qed.




(** Two requests in an ordinary session: the call details come first
    and are greeted, pings and updates arrive in between, and the first
    request is overtaken after its first fragments. *)
Definition ordinary_session : list action :=
  [Recv demo_env
     (mkFrame (Some "call_details") None None None (Some "call_1")
        (Some (<["user_id" := "12"]> ∅)));
   Recv demo_env (mkFrame (Some "ping_pong") None None (Some 17) None None);
   Recv demo_env (request_frame "response_required" 1);
   Resume 0; Tick 20000; Resume 0;
   Recv demo_env (mkFrame (Some "update_only") None (Some []) None None None);
   Recv demo_env (request_frame "response_required" 2);
   Resume 0; Resume 1;
   Recv demo_env (mkFrame (Some "ping_pong") None None (Some 18) None None);
   Resume 0; Resume 1; Resume 1].


(** What the peer sees of the ordinary session: the greeting, then the
    filler of request 1, then the fragments of request 2 only. *)
Example ordinary_session_output :
  List.map (fun r => (Llm.response_id r, content_complete r))
    (responses (sent (run ordinary_session connect)))
  = [(0, true); (1, false); (1, false); (2, false); (2, false); (2, true)]
  /\ List.map (fun r => (Llm.response_id r, content_complete r))
       (task_output ordinary_session connect)
     = [(1, false); (1, false); (2, false); (2, false); (2, true)].
Proof. split; vm_compute; reflexivity. Qed.


(** So are the greeting that answers a late [call_details] frame,
    which carries response id 0. *)
Example late_greeting_follows_fragment :
  let acts := [Recv demo_env (request_frame "response_required" 2); Resume 0;
               Recv demo_env
                 (mkFrame (Some "call_details") None None None (Some "call_1")
                    None)] in
  List.map Llm.response_id (responses (sent (run acts connect))) = [2; 0]
  /\ List.map Llm.response_id (task_output acts connect) = [2].
Proof. split; vm_compute; reflexivity. Qed.

End Supersession.

(* ===================================================================== *)
(** * Further properties of the connection handler                        *)
(* ===================================================================== *)

Section FrameHandling.
Import Llm Server.

Definition message_apology (data : Frame) : OutFrame :=
  Response (mkResponse (default 0 (f_response_id data))
              "I encountered an error. Please try again." true false).

(** X3.  On an open connection, a frame without an interaction type,
    and a ping without a timestamp, raise [KeyError] in [handle_message]
    itself, whose handler answers with one complete apology frame that
    carries the response id of the frame, or 0 when it has none; nothing
    else changes. *)
Theorem unreadable_frame_gets_apology (e : env) (data : Frame) (c : Conn) :
  alive c = true ->
  f_interaction_type data = None
  \/ (f_interaction_type data = Some "ping_pong" /\ f_timestamp data = None) ->
  handle_message e data c = set_sent (sent c ++ [message_apology data]) c.
Proof.
  intros Ha [Hk | [Hk Ht]]; unfold handle_message, message_error;
    rewrite Hk; cbn; rewrite ?Ht; now rewrite (send_alive _ _ Ha).
Qed.

Lemma unreadable_frame_gets_apology_witness :
  handle_message demo_env (mkFrame None (Some 4) None None None None) connect
  = set_sent [Config;
              Response (mkResponse 4 "I encountered an error. Please try again."
                          true false)] connect.
Proof.
  apply (unreadable_frame_gets_apology demo_env
           (mkFrame None (Some 4) None None None None) connect).
  - reflexivity.
  - left. reflexivity.
Defined.

(** The interaction types [handle_message] acts on. *)
Definition handled_kinds : list string :=
  ["call_details"; "ping_pong"; "response_required"; "reminder_required"].

(** X4.  An [update_only] frame, and a frame of a kind the handler does
    not know, are ignored: the connection is left exactly as it was, and
    nothing is sent. *)
Theorem other_frames_are_ignored (e : env) (data : Frame) (c : Conn) (kind : string) :
  f_interaction_type data = Some kind ->
  ~ In kind handled_kinds ->
  handle_message e data c = c.
Proof.
  intros Hk Hn. unfold handle_message. rewrite Hk.
  assert (H : forall s, In s handled_kinds -> String.eqb kind s = false).
  { intros s Hs. apply String.eqb_neq. intros ->. contradiction. }
  rewrite (H "call_details"), (H "ping_pong"), (H "response_required"),
    (H "reminder_required") by (cbn; tauto).
  destruct (String.eqb kind "update_only"); reflexivity.
Qed.

Lemma other_frames_are_ignored_witness :
  handle_message demo_env (mkFrame (Some "update_only") None None None None None)
    connect = connect.
Proof.
  apply (other_frames_are_ignored demo_env _ connect "update_only").
  - reflexivity.
  - cbn. intros [H | [H | [H | [H | []]]]]; discriminate.
Defined.

Lemma draft_begin_message_ok hour draw self :
  exists greeting,
    draft_begin_message hour draw self
    = Ok (mkResponse 0 greeting true false, append_greeting self greeting).
Proof.
  unfold draft_begin_message.
  match goal with
  | |- context [mbind _ ?m] =>
      assert (H : exists g, m = Ok g);
      [| destruct H as [g ->]; exists g; reflexivity]
  end.
  repeat match goal with
         | |- context [if ?b then _ else _] => destruct b
         end; apply choice_nonempty.
Qed.

Lemma set_metadata_history e data self :
  message_history (set_metadata e data self).1 = message_history self.
Proof.
  unfold set_metadata.
  repeat match goal with
         | |- context [match ?x with _ => _ end] => destruct x; cbn
         end; reflexivity.
Qed.

(** X5.  On an open connection, a [call_details] frame whose user id, if
    any, is a number is answered with exactly one frame: a complete
    greeting with response id 0, whose text is appended to the message
    history as an assistant message.  The shared response id and the
    generation tasks are untouched. *)
Theorem call_details_is_greeted (e : env) (data : Frame) (c : Conn) :
  alive c = true ->
  f_interaction_type data = Some "call_details" ->
  (set_metadata e data (llm_client c)).2 = Ok tt ->
  exists greeting,
    let c' := handle_message e data c in
    sent c' = sent c ++ [Response (mkResponse 0 greeting true false)]
    /\ message_history (llm_client c')
       = message_history (llm_client c) ++ [Plain "assistant" greeting]
    /\ call_details_received c' = true
    /\ Server.response_id c' = Server.response_id c
    /\ tasks c' = tasks c.
Proof.
  intros Ha Hk Hm. unfold handle_message. rewrite Hk. cbn.
  pose proof (set_metadata_history e data (llm_client c)) as Hh.
  destruct (set_metadata e data (llm_client c)) as [client r]. cbn in Hm, Hh.
  subst r.
  destruct (draft_begin_message_ok (now_hour e) (greeting_draw e) client)
    as [greeting ->].
  exists greeting. unfold send. cbn. rewrite Ha. cbn.
  repeat split; try reflexivity. now rewrite Hh.
Qed.

Definition call_details_frame (vars : gmap string string) : Frame :=
  mkFrame (Some "call_details") None None None (Some "call_9") (Some vars).

Lemma call_details_is_greeted_witness :
  exists greeting,
    sent (handle_message demo_env
            (call_details_frame (<["user_id" := "12"]> (<["user_name" := "Ada"]> ∅)))
            connect)
    = [Config; Response (mkResponse 0 greeting true false)].
Proof.
  assert (Hm : (set_metadata demo_env
                  (call_details_frame
                     (<["user_id" := "12"]> (<["user_name" := "Ada"]> ∅)))
                  (llm_client connect)).2 = Ok tt)
    by (vm_compute; reflexivity).
  destruct (call_details_is_greeted demo_env
              (call_details_frame (<["user_id" := "12"]> (<["user_name" := "Ada"]> ∅)))
              connect eq_refl eq_refl Hm) as (g & H & _).
  exists g. exact H.
Defined.

(** X6.  A [call_details] frame whose user id is not a number makes
    [set_metadata] raise on [int(user_id)] after it has stored the call
    id and the metadata: the peer gets the apology frame instead of a
    greeting, no greeting enters the history, and the session keeps the
    metadata. *)
Theorem call_details_with_bad_user_id (e : env) (data : Frame) (c : Conn)
    (vars : gmap string string) (uid : string) (err : exn) :
  alive c = true ->
  f_interaction_type data = Some "call_details" ->
  f_dynamic_variables data = Some vars ->
  vars !! "user_id" = Some uid -> str_truthy uid = true ->
  int_of_str e uid = Raise err ->
  let c' := handle_message e data c in
  sent c' = sent c ++ [message_apology data]
  /\ metadata (llm_client c') = Some vars
  /\ message_history (llm_client c') = message_history (llm_client c)
  /\ call_details_received c' = call_details_received c.
Proof.
  intros Ha Hk Hv Hu Ht Hi. unfold handle_message. rewrite Hk. cbn.
  assert (Hne : metadata_truthy (Some vars) = true).
  { cbn. apply negb_true_iff, bool_decide_eq_false. intros ->.
    rewrite lookup_empty in Hu. discriminate. }
  pose proof (set_metadata_history e data (llm_client c)) as Hh.
  unfold set_metadata in *. rewrite Hv, Hne, Hu, Ht, Hi in *. cbn in *.
  unfold message_error, send. cbn. rewrite Ha. cbn.
  repeat split; try reflexivity.
  destruct (f_call_id data) as [cid |]; [destruct (str_truthy cid) |]; exact Hh.
Qed.

Lemma call_details_with_bad_user_id_witness :
  sent (handle_message
          (mkEnv (demo_llm_world whole_name_stream) 9 0
             (fun _ => Raise (Exn ValueError "invalid literal for int()")))
          (call_details_frame (<["user_id" := "agent-7"]> ∅)) connect)
  = [Config;
     Response (mkResponse 0 "I encountered an error. Please try again." true false)].
Proof.
  refine (proj1 (call_details_with_bad_user_id
                   (mkEnv (demo_llm_world whole_name_stream) 9 0
                      (fun _ => Raise (Exn ValueError "invalid literal for int()")))
                   (call_details_frame (<["user_id" := "agent-7"]> ∅)) connect
                   (<["user_id" := "agent-7"]> ∅) "agent-7"
                   (Exn ValueError "invalid literal for int()")
                   _ _ _ _ _ _)); vm_compute; reflexivity.
Defined.

End FrameHandling.

(** ** The frames of one request *)

Section RequestOrder.
Import Llm Server.

(** The response frames of a request among the frames delivered. *)
Definition of_request (rid : Z) (out : list ResponseResponse)
  : list ResponseResponse :=
  List.filter (fun r => Llm.response_id r =? rid) out.

Definition task_id (t : Task) : Z := req_response_id (t_request t).

(** The model world and the session on which the generator of each
    task created under a schedule runs, in the order of creation: the
    world of the frame that started the request, and the session as it
    was at that moment. *)
Fixpoint created_on (acts : list action) (c : Conn)
  : list (world * LlmClient) :=
  match acts with
  | [] => []
  | a :: acts =>
      match a with
      | Recv e _ =>
          repeat (llm_world e, llm_client c)
            (length (tasks (step c a)) - length (tasks c))
      | _ => []
      end ++ created_on acts (step c a)
  end.

Definition is_call_details (a : action) : bool :=
  match a with
  | Recv _ data =>
      match f_interaction_type data with
      | Some kind => String.eqb kind "call_details"
      | None => false
      end
  | _ => false
  end.

(** No [call_details] frame arrives once a generation request has
    started, so that the session a generator reads while it runs is
    the one it was created on. *)
Fixpoint no_late_details (begun : bool) (acts : list action) : bool :=
  match acts with
  | [] => true
  | a :: acts =>
      negb (begun && is_call_details a)
      && no_late_details (match starts a with Some _ => true | None => begun end)
           acts
  end.

(** What the task has delivered for its request, followed by what its
    generator has still to yield, is what the generator yields. *)
Definition on_track (out : list ResponseResponse) (t : Task)
    (g : world * LlmClient) : Prop :=
  of_request (task_id t) out ++ t_pending t
  = fragments (draft_response g.1 g.2 (t_request t)).

Definition tracked (c : Conn) (out : list ResponseResponse)
    (gens : list (world * LlmClient)) : Prop :=
  NoDup (List.map task_id (tasks c)) /\ Forall2 (on_track out) (tasks c) gens.

Lemma of_request_app rid l1 l2 :
  of_request rid (l1 ++ l2) = of_request rid l1 ++ of_request rid l2.
Proof. apply List.filter_app. Qed.

Lemma of_request_none rid l :
  Forall (fun r => Llm.response_id r <> rid) l -> of_request rid l = [].
Proof.
  unfold of_request. induction 1 as [| r l Hr _ IH]; [reflexivity |].
  cbn [List.filter]. apply Z.eqb_neq in Hr. rewrite Hr. exact IH.
Qed.

Lemma map_insert_same {A B} (f : A -> B) k (x y : A) (l : list A) :
  l !! k = Some x -> f y = f x -> List.map f (<[k := y]> l) = List.map f l.
Proof.
  revert k. induction l as [| z l IH]; intros k Hk Hf;
    [destruct k; discriminate |].
  destruct k as [| k]; cbn in Hk |- *.
  - injection Hk as ->. now rewrite Hf.
  - f_equal. now apply IH.
Qed.

Lemma NoDup_lookup_map {A B} (f : A -> B) (l : list A) i j x y :
  NoDup (List.map f l) -> l !! i = Some x -> l !! j = Some y -> f x = f y ->
  i = j.
Proof.
  intros Hn Hi Hj Hf.
  eapply NoDup_lookup; [exact Hn | |].
  - change (List.map f l) with (f <$> l). rewrite list_lookup_fmap, Hi. reflexivity.
  - change (List.map f l) with (f <$> l). rewrite list_lookup_fmap, Hj. cbn.
    now rewrite Hf.
Qed.

(** Replacing a task by one with the same request. *)
Lemma tracked_insert c out out' gens k t u ts :
  tracked c out gens ->
  tasks c !! k = Some t -> t_request u = t_request t ->
  ts = <[k := u]> (tasks c) ->
  (forall g, on_track out t g -> on_track out' u g) ->
  (forall j v g, j <> k -> tasks c !! j = Some v ->
                 on_track out v g -> on_track out' v g) ->
  NoDup (List.map task_id ts)
  /\ Forall2 (on_track out') ts gens.
Proof.
  intros [Hn Hf] Ht Hreq -> Hk Hother. split.
  - rewrite (map_insert_same task_id k t); [exact Hn | exact Ht |].
    unfold task_id. now rewrite Hreq.
  - apply Forall2_same_length_lookup_2.
    + rewrite length_insert. eapply Forall2_length, Hf.
    + intros j v g Hv Hg. destruct (decide (j = k)) as [-> | Hne].
      * rewrite list_lookup_insert_eq in Hv by (eapply lookup_lt_Some, Ht).
        injection Hv as <-. apply Hk.
        eapply Forall2_lookup_lr; [exact Hf | exact Ht | exact Hg].
      * rewrite list_lookup_insert_ne in Hv by congruence.
        apply (Hother j v g Hne Hv).
        eapply Forall2_lookup_lr; [exact Hf | exact Hv | exact Hg].
Qed.

Lemma tracked_resume c ids out gens k :
  Ord c ids out -> tracked c out gens ->
  tracked (resume k c) (out ++ responses (delivered c (Resume k))) gens.
Proof.
  intros HO H.
  destruct (resume_turn k c)
    as [[Hs Hts] | (t & event & rest & Ht & Hp & Hfresh & Hs & Hts)].
  - rewrite (delivered_eq c (Resume k) []) by (cbn [step]; now rewrite Hs, app_nil_r).
    cbn [responses omap list_omap]. rewrite app_nil_r.
    destruct Hts as [Hts | (t & Ht & Hts)]; unfold tracked; rewrite Hts;
      [exact H |].
    apply (tracked_insert c out out gens k t
             (mkTask (t_data t) (t_request t) (t_pending t) false) _
             H Ht eq_refl eq_refl).
    + intros g Hg. exact Hg.
    + intros j v g _ _ Hg. exact Hg.
  - rewrite (delivered_eq c (Resume k) [Response event]) by exact Hs.
    change (responses [Response event]) with [event].
    pose proof (Forall_lookup_1 _ _ _ _ (ord_tasks _ _ _ HO) Ht) as [_ Hev].
    rewrite Hp in Hev. inversion Hev as [| ? ? Hid _]; subst.
    unfold tracked. rewrite Hts.
    apply (tracked_insert c out (out ++ [event]) gens k t
             (mkTask (t_data t) (t_request t) rest true) _
             H Ht eq_refl eq_refl).
    + intros g Hg. unfold on_track, task_id in *. cbn [t_request t_pending].
      rewrite of_request_app. unfold of_request at 2. cbn [List.filter].
      replace (Llm.response_id event =? req_response_id (t_request t))
        with true by (symmetry; apply Z.eqb_eq; exact Hid).
      rewrite <- Hg, Hp. now rewrite <- app_assoc.
    + intros j v g Hne Hv Hg. unfold on_track in *.
      rewrite of_request_app. unfold of_request at 2. cbn [List.filter].
      replace (Llm.response_id event =? task_id v) with false.
      { now rewrite app_nil_r. }
      symmetry. apply Z.eqb_neq. intros Heq. apply Hne.
      eapply (NoDup_lookup_map task_id); [apply H | exact Hv | exact Ht |].
      unfold task_id at 2. congruence.
Qed.

Lemma tracked_start e data c ids out gens :
  Ord c ids out -> tracked c out gens ->
  Forall (fun x => forall r, f_response_id data = Some r -> x < r) ids ->
  tracked (handle_response_required e data c) out
    (gens ++ repeat (llm_world e, llm_client c)
               (length (tasks (handle_response_required e data c))
                - length (tasks c))).
Proof.
  intros HO [Hn Hf] Hnew. unfold handle_response_required.
  destruct (f_response_id data) as [rid |];
    [| cbn; rewrite Nat.sub_diag, app_nil_r; split; assumption].
  assert (Hlt : forall x, In x ids -> x < rid).
  { rewrite Stdlib.Lists.List.Forall_forall in Hnew. intros x Hx.
    now apply (Hnew x Hx rid). }
  destruct (f_interaction_type data) as [kind |], (f_transcript data) as [tr |];
    try (cbn; rewrite Nat.sub_diag, app_nil_r; split; assumption).
  cbn [tasks set_tasks set_response_id]. rewrite length_app. cbn [length].
  replace (length (tasks c) + 1 - length (tasks c))%nat with 1%nat by lia.
  cbn [repeat]. split; cbn.
  - rewrite List.map_app. cbn. apply NoDup_app.
    repeat split.
    + exact Hn.
    + intros x Hx Hx'. apply list_elem_of_In in Hx.
      apply list_elem_of_singleton in Hx'. subst x.
      apply List.in_map_iff in Hx as (t & Ht & Hin).
      pose proof (ord_tasks _ _ _ HO) as HT.
      rewrite Stdlib.Lists.List.Forall_forall in HT.
      destruct (HT t Hin) as [Hid _]. unfold task_id in Ht.
      specialize (Hlt _ Hid). lia.
    + apply NoDup_singleton.
  - apply Forall2_app; [exact Hf |]. repeat constructor.
    unfold on_track, task_id. cbn [t_request t_pending fst snd llm_client
                                     set_response_id req_response_id].
    rewrite of_request_none; [reflexivity |].
    eapply Forall_impl; [apply (ord_out _ _ _ HO) |].
    intros r Hr Heq. cbn in Hr, Heq. rewrite Heq in Hr.
    specialize (Hlt _ Hr). lia.
Qed.

Lemma tracked_step c ids out gens a :
  Ord c ids out -> tracked c out gens ->
  Forall (fun x => forall r, starts a = Some r -> x < r) ids ->
  tracked (step c a)
    (out ++ match a with
            | Resume _ => responses (delivered c a)
            | _ => []
            end)
    (gens ++ match a with
             | Recv e _ =>
                 repeat (llm_world e, llm_client c)
                   (length (tasks (step c a)) - length (tasks c))
             | _ => []
             end).
Proof.
  intros HO H Hnew. destruct a as [e data | k | now_ms |]; cbn [step starts] in *.
  - rewrite app_nil_r. destruct (is_interaction data) eqn:Hi.
    + rewrite (handle_message_interaction _ _ _ Hi).
      eapply tracked_start; eassumption.
    + rewrite (handle_message_other_tasks _ _ _ Hi), Nat.sub_diag.
      cbn [repeat]. rewrite app_nil_r. unfold tracked.
      now rewrite (handle_message_other_tasks _ _ _ Hi).
  - rewrite app_nil_r. eapply tracked_resume; eassumption.
  - rewrite !app_nil_r. destruct (heartbeat c); [| exact H].
    destruct (alive c) eqn:Hal.
    + rewrite (send_alive _ _ Hal). exact H.
    + rewrite (send_dead _ _ Hal). exact H.
  - rewrite !app_nil_r. exact H.
Qed.

Lemma tracked_run acts : forall c ids out gens,
  Ord c ids out -> tracked c out gens ->
  StronglySorted Z.lt (ids ++ started acts) ->
  tracked (run acts c) (out ++ task_output acts c) (gens ++ created_on acts c).
Proof.
  induction acts as [| a acts IH]; intros c ids out gens HO H Hsorted.
  - cbn. now rewrite !app_nil_r.
  - change (run (a :: acts) c) with (run acts (step c a)).
    cbn [task_output created_on]. rewrite started_cons in Hsorted.
    pose proof (fresh_ids _ _ _ Hsorted) as Hfresh.
    rewrite !app_assoc.
    apply (IH _ (ids ++ from_option (fun r => [r]) [] (starts a))).
    + now apply Ord_step.
    + now apply tracked_step with (ids := ids).
    + now rewrite <- app_assoc.
Qed.

(** X7.  On a connection whose generation requests start in strictly
    increasing order of ids and on which no [call_details] frame arrives
    once a request has started, under every interleaving with other
    frames, heartbeats and a loss of the peer: the frames that the task
    of a request has delivered, followed by what it has still pending,
    are exactly the output of [draft_response] for that request on the
    model world of the frame that started it and on the session as it
    was at that moment.  So the frames delivered for a request are a
    prefix of the output of its own generator, in order and without gap
    or repeat, and at most one of them is complete. *)
Theorem request_frames_follow_generator (acts : list action) (k : nat) (t : Task) :
  StronglySorted Z.lt (started acts) ->
  no_late_details false acts = true ->
  tasks (run acts connect) !! k = Some t ->
  exists w self,
    created_on acts connect !! k = Some (w, self)
    /\ let out := of_request (req_response_id (t_request t))
                    (task_output acts connect) in
       out ++ t_pending t = fragments (draft_response w self (t_request t))
       /\ (length (List.filter content_complete out) <= 1)%nat.
Proof.
  intros Hsorted _ Ht.
  assert (Htr : tracked (run acts connect) (task_output acts connect)
                  (created_on acts connect)).
  { apply (tracked_run acts connect [] [] []);
      [apply Ord_connect | split; cbn; constructor | exact Hsorted]. }
  destruct Htr as [_ Hf].
  destruct (Forall2_lookup_l _ _ _ _ _ Hf Ht) as ([w self] & Hg & Heq).
  exists w, self. split; [exact Hg |]. cbv zeta.
  unfold on_track, task_id in Heq. cbn [fst snd] in Heq.
  split; [exact Heq |].
  destruct (generator_one_complete_last (run_tools w self) w self (t_request t))
    as (pre & final & Hfr & _ & _ & _ & Hone).
  { intros. apply run_tools_quiet. }
  fold (draft_response w self (t_request t)) in Hone.
  rewrite <- Heq in Hone.
  rewrite List.filter_app, length_app in Hone. lia.
Qed.

Lemma request_frames_follow_generator_witness :
  exists w self,
    created_on ordinary_session connect !! 1%nat = Some (w, self)
    /\ let out := of_request 2 (task_output ordinary_session connect) in
       out ++ []
       = fragments (draft_response w self (mkRequest "response_required" 2 []))
       /\ (length (List.filter content_complete out) <= 1)%nat.
Proof.
  assert (Hd : no_late_details false ordinary_session = true)
    by (vm_compute; reflexivity).
  assert (Ht : tasks (run ordinary_session connect) !! 1%nat
               = Some (mkTask (request_frame "response_required" 2)
                         (mkRequest "response_required" 2 []) [] true))
    by (vm_compute; reflexivity).
  refine (request_frames_follow_generator ordinary_session 1 _ _ Hd Ht).
  repeat constructor.
Defined.

End RequestOrder.

(* ===================================================================== *)
(** * Further properties of the generation cycle                          *)
(* ===================================================================== *)

Section ReplyFacts.
Import Llm.

(** X8.  [get_time_based_greeting] splits the day into four buckets:
    morning from 5 to 11, afternoon from 12 to 16, evening from 17 to
    21, and the late-night phrase for every other hour. *)
Theorem time_of_day_buckets (hour : Z) :
  (get_time_based_greeting hour = "Good morning" <-> 5 <= hour < 12)
  /\ (get_time_based_greeting hour = "Good afternoon" <-> 12 <= hour < 17)
  /\ (get_time_based_greeting hour = "Good evening" <-> 17 <= hour < 22)
  /\ (get_time_based_greeting hour = "Happy late night" <-> hour < 5 \/ 22 <= hour).
Proof.
  unfold get_time_based_greeting.
  destruct (Z.leb_spec 5 hour), (Z.ltb_spec hour 12), (Z.leb_spec 12 hour),
    (Z.ltb_spec hour 17), (Z.leb_spec 17 hour), (Z.ltb_spec hour 22);
    cbn [andb]; repeat split; intros; try lia; try discriminate; try reflexivity.
Qed.

(** A chunk that has a first choice without tool-call deltas. *)
Definition text_only (chunk : Chunk) : Prop :=
  exists d rest, choices chunk = d :: rest /\ d_tool_calls d = [].

(** The non-empty text deltas of the first choices, in order. *)
Definition texts (cs : list Chunk) : list string :=
  omap (fun chunk =>
          match choices chunk with
          | d :: _ =>
              match d_content d with
              | Some text => if str_truthy text then Some text else None
              | None => None
              end
          | [] => None
          end) cs.

Definition text_yields (request : ResponseRequiredRequest) (cs : list Chunk)
  : list effect :=
  List.map (fun text => Yield (text_fragment request text)) (texts cs).

Lemma texts_cons (chunk : Chunk) (cs : list Chunk) :
  texts (chunk :: cs)
  = match choices chunk with
    | d :: _ =>
        match d_content d with
        | Some text => if str_truthy text then text :: texts cs else texts cs
        | None => texts cs
        end
    | [] => texts cs
    end.
Proof.
  unfold texts. cbn. destruct (choices chunk) as [| d ?]; [reflexivity |].
  destruct (d_content d) as [text |]; [| reflexivity].
  destruct (str_truthy text); reflexivity.
Qed.

Lemma consume_first_text_only request cs fault calls content :
  Forall text_only cs ->
  trace (consume_first request cs fault calls content) = text_yields request cs
  /\ exists content',
       outcome (consume_first request cs fault calls content)
       = match fault with
         | Some e => Raise e
         | None => Ok (calls, content')
         end.
Proof.
  intros H. revert content.
  induction H as [| chunk cs (d & rest & Hc & Ht) _ IH]; intros content.
  - cbn. destruct fault; eauto.
  - cbn [consume_first]. unfold first_choice, text_yields.
    rewrite texts_cons, Hc.
    rewrite bind_lift_ok, Ht. cbn [accumulate_all]. rewrite bind_lift_ok.
    destruct (d_content d) as [text |].
    + destruct (str_truthy text).
      * unfold yield. rewrite bind_perform. cbn [trace outcome mret eff_ret].
        rewrite trace_bind, outcome_bind. cbn [trace outcome app List.map].
        destruct (IH (content +:+ text)) as [Ht' He]. unfold text_yields in Ht'.
        rewrite Ht'. split; [reflexivity | exact He].
      * rewrite bind_ret. apply IH.
    + rewrite bind_ret. apply IH.
Qed.

(** X9.  When the model answers with text only, every non-empty text
    delta is forwarded as a partial fragment, in order, and the turn
    ends with the empty complete fragment; when the stream breaks, with
    the apology.  One completion is requested, no filler is spoken and
    no tool is called. *)
Theorem text_reply_is_forwarded (w : world) (self : LlmClient)
    (request : ResponseRequiredRequest) (msgs : list message) (s : Stream) :
  prepare_prompt w self request = Ok msgs ->
  first_completion w msgs = Ok s ->
  Forall text_only (chunks s) ->
  draft_response w self request
  = Create msgs true
    :: text_yields request (chunks s)
    ++ [Yield (match fault s with
               | None => complete_fragment request
               | Some _ => error_fragment request
               end)].
Proof.
  intros Hpp Hfc Htext. unfold draft_response, cycle.
  rewrite Hpp, bind_lift_ok, bind_perform, Hfc, bind_lift_ok.
  destruct (consume_first_text_only request (chunks s) (fault s) [] "" Htext)
    as [Ht (content & Ho)].
  unfold try_except. cbn [outcome trace]. rewrite outcome_bind, trace_bind, Ho, Ht.
  destruct (fault s) as [e |]; cbn [outcome trace].
  - rewrite app_nil_r. reflexivity.
  - rewrite bind_ret. cbn [outcome trace yield perform]. reflexivity.
Qed.

Definition text_stream (parts : list string) (fault : option exn) : Stream :=
  mkStream (List.map (fun s => mkChunk [mkDelta [] (Some s)]) parts) fault.

Lemma text_reply_is_forwarded_witness :
  fragments (draft_response (demo_llm_world (text_stream ["Hello"; ""; " there"] None))
               Llm.init demo_request)
  = [mkResponse 7 "Hello" false false; mkResponse 7 " there" false false;
     mkResponse 7 "" true false].
Proof.
  rewrite (text_reply_is_forwarded
             (demo_llm_world (text_stream ["Hello"; ""; " there"] None))
             Llm.init demo_request
             [Plain "system" "persona"; Plain "user" "Any cafes near Main St?"]
             (text_stream ["Hello"; ""; " there"] None)).
  - reflexivity.
  - reflexivity.
  - reflexivity.
  - repeat constructor; eexists _, _; split; reflexivity.
Defined.

(** X10.  When the prompt cannot be assembled, or the model call itself
    fails, the turn consists of the single complete apology fragment;
    in the first case the model is not called at all. *)
Theorem failed_start_is_apologised (w : world) (self : LlmClient)
    (request : ResponseRequiredRequest) (e : exn) :
  (prepare_prompt w self request = Raise e ->
   draft_response w self request = [Yield (error_fragment request)])
  /\ (forall msgs,
         prepare_prompt w self request = Ok msgs ->
         first_completion w msgs = Raise e ->
         draft_response w self request
         = [Create msgs true; Yield (error_fragment request)]).
Proof.
  split.
  - intros H. unfold draft_response, cycle. now rewrite H.
  - intros msgs Hpp Hfc. unfold draft_response, cycle.
    now rewrite Hpp, bind_lift_ok, bind_perform, Hfc.
Qed.

Lemma failed_start_is_apologised_witness :
  draft_response
    (mkWorld (fun _ _ => Raise (Exn ValueError "Invalid isoformat string"))
       (fun _ => Ok (text_stream [] None)) (fun _ => Ok (text_stream [] None))
       (fun _ => Ok JNull) (fun _ => "") (fun _ _ => Ok tt)
       (fun _ _ _ => Ok JNull) 0)
    Llm.init demo_request
  = [Yield (mkResponse 7 apology true false)].
Proof.
  refine (proj1 (failed_start_is_apologised _ Llm.init demo_request
                   (Exn ValueError "Invalid isoformat string")) _).
  reflexivity.
Defined.

End ReplyFacts.

Section AccumulationBounds.
Import Llm.

Lemma py_index_in_range {A} (l : list A) (k : nat) :
  (k < length l)%nat -> py_index l (Z.of_nat k) = Ok k.
Proof.
  intros H. unfold py_index.
  destruct (0 <=? Z.of_nat k) eqn:E1; [| apply Z.leb_gt in E1; lia].
  destruct (Z.of_nat k <? Z.of_nat (length l)) eqn:E2;
    [| apply Z.ltb_ge in E2; lia].
  cbn [andb]. now rewrite Nat2Z.id.
Qed.

Lemma py_index_beyond {A} (l : list A) (i : Z) :
  Z.of_nat (length l) <= i ->
  py_index l i = Raise (Exn IndexError "list index out of range").
Proof.
  intros H. unfold py_index.
  destruct (i <? Z.of_nat (length l)) eqn:E1; [apply Z.ltb_lt in E1; lia |].
  destruct (i <? 0) eqn:E2; [apply Z.ltb_lt in E2; lia |].
  now rewrite !andb_false_r.
Qed.

(** X11.  A delta addressed to an existing record changes that record
    only: a non-empty name replaces its name, a non-empty argument piece
    is appended to its argument string, and every other record, and the
    number of records, stay as they are. *)
Theorem delta_updates_addressed_record (calls : list ToolCall)
    (d : ToolCallDelta) (k : nat) :
  tc_index d = Some (Z.of_nat k) ->
  (k < length calls)%nat ->
  tc_function d <> None ->
  accumulate calls d = Ok (alter (fun c => absorb c d) k calls).
Proof.
  intros Hi Hk Hf. unfold accumulate. rewrite Hi.
  destruct (tc_function d) as [f |] eqn:Ef; [| congruence].
  replace (Z.of_nat (length calls) <=? Z.of_nat k) with false
    by (symmetry; apply Z.leb_gt; lia).
  change (function ← Ok f; ?body) with body.
  set (g1 := fun c : ToolCall =>
               if opt_truthy (fn_name f)
               then set_name (default "" (fn_name f)) c else c).
  set (g2 := fun c : ToolCall =>
               if opt_truthy (fn_arguments f)
               then add_arguments (default "" (fn_arguments f)) c else c).
  assert (H1 : match fn_name f with
               | Some n =>
                   if str_truthy n then
                     j ← subscript calls (Some (Z.of_nat k));
                     Ok (alter (set_name n) j calls)
                   else Ok calls
               | None => Ok calls
               end = Ok (alter g1 k calls)).
  { unfold g1, opt_truthy, subscript. destruct (fn_name f) as [n |].
    - destruct (str_truthy n).
      + now rewrite (py_index_in_range _ _ Hk).
      + now rewrite list_alter_id.
    - now rewrite list_alter_id. }
  unfold mbind at 1, result_bind at 1, Py.bind at 1. rewrite H1. cbv beta iota.
  assert (Hk' : (k < length (alter g1 k calls))%nat) by now rewrite length_alter.
  assert (H2 : match fn_arguments f with
               | Some a =>
                   if str_truthy a then
                     j ← subscript (alter g1 k calls) (Some (Z.of_nat k));
                     Ok (alter (add_arguments a) j (alter g1 k calls))
                   else Ok (alter g1 k calls)
               | None => Ok (alter g1 k calls)
               end = Ok (alter g2 k (alter g1 k calls))).
  { unfold g2, opt_truthy, subscript. destruct (fn_arguments f) as [a |].
    - destruct (str_truthy a).
      + now rewrite (py_index_in_range _ _ Hk').
      + f_equal. symmetry. now apply list_alter_id.
    - f_equal. symmetry. now apply list_alter_id. }
  change (Ok (alter g1 k calls) ≫= ?body) with (body (alter g1 k calls)).
  cbv beta. rewrite H2, list_alter_alter_eq. f_equal.
  apply list_alter_ext; [| reflexivity].
  intros c _. unfold absorb, g1, g2. cbn. rewrite Ef. reflexivity.
Qed.

Lemma delta_updates_addressed_record_witness :
  accumulate [mkToolCall (Some "a") "PlacesSearch" "{"; mkToolCall (Some "b") "" ""]
    (mkToolCallDelta (Some 0) None (Some (mkFunctionDelta None (Some "}"))))
  = Ok [mkToolCall (Some "a") "PlacesSearch" "{}"; mkToolCall (Some "b") "" ""].
Proof.
  apply (delta_updates_addressed_record
           [mkToolCall (Some "a") "PlacesSearch" "{"; mkToolCall (Some "b") "" ""]
           (mkToolCallDelta (Some 0) None (Some (mkFunctionDelta None (Some "}"))))
           0%nat).
  - reflexivity.
  - cbn. lia.
  - discriminate.
Defined.

(** X12.  A delta whose index skips a position, and that carries a name
    or arguments, makes the accumulation raise [IndexError]: one record
    is appended, which is not the one addressed.  The generation cycle
    then ends with the apology alone, and no tool is called. *)
Theorem skipped_index_ends_turn (w : world) (self : LlmClient)
    (request : ResponseRequiredRequest) (msgs : list message) (s : Stream)
    (d : ToolCallDelta) (ds : list ToolCallDelta) (text : option string)
    (others : list Delta) (rest : list Chunk) (i : Z) (f : FunctionDelta) :
  prepare_prompt w self request = Ok msgs ->
  first_completion w msgs = Ok s ->
  chunks s = mkChunk (mkDelta (d :: ds) text :: others) :: rest ->
  tc_index d = Some i -> 0 < i ->
  tc_function d = Some f ->
  opt_truthy (fn_name f) = true \/ opt_truthy (fn_arguments f) = true ->
  accumulate [] d = Raise (Exn IndexError "list index out of range")
  /\ draft_response w self request
     = [Create msgs true; Yield (error_fragment request)].
Proof.
  intros Hpp Hfc Hc Hi Hpos Hf Ht.
  assert (Ha : accumulate [] d = Raise (Exn IndexError "list index out of range")).
  { unfold accumulate. rewrite Hi, Hf.
    change (Z.of_nat (length (@nil ToolCall))) with 0.
    replace (0 <=? i) with true by (symmetry; apply Z.leb_le; lia).
    cbn [app]. unfold opt_truthy in Ht.
    unfold mbind, result_bind, Py.bind, subscript.
    assert (Hb : py_index [mkToolCall (tc_id d) "" ""] i
                 = Raise (Exn IndexError "list index out of range"))
      by (apply py_index_beyond; cbn; lia).
    destruct (fn_name f) as [n |].
    - destruct (str_truthy n); [now rewrite Hb |].
      destruct Ht as [Ht | Ht]; [discriminate |].
      destruct (fn_arguments f) as [a |]; [| discriminate].
      now rewrite Ht, Hb.
    - destruct Ht as [Ht | Ht]; [discriminate |].
      destruct (fn_arguments f) as [a |]; [| discriminate].
      now rewrite Ht, Hb. }
  split; [exact Ha |].
  unfold draft_response, cycle.
  rewrite Hpp, bind_lift_ok, bind_perform, Hfc, bind_lift_ok, Hc.
  assert (Hall : accumulate_all [] (d :: ds)
                 = Raise (Exn IndexError "list index out of range"))
    by (cbn [accumulate_all]; now rewrite Ha).
  cbn [consume_first first_choice choices].
  rewrite bind_lift_ok. cbn [d_tool_calls]. rewrite Hall. reflexivity.
Qed.

Lemma skipped_index_ends_turn_witness :
  draft_response
    (demo_llm_world
       (mkStream [mkChunk [mkDelta [mkToolCallDelta (Some 1) (Some "call_1")
                                      (Some (mkFunctionDelta (Some "PlacesSearch")
                                               (Some "{}")))] None]] None))
    Llm.init demo_request
  = [Create [Plain "system" "persona"; Plain "user" "Any cafes near Main St?"] true;
     Yield (mkResponse 7 apology true false)].
Proof.
  refine (proj2 (skipped_index_ends_turn _ Llm.init demo_request _
                   (mkStream [mkChunk [mkDelta [mkToolCallDelta (Some 1) (Some "call_1")
                                                  (Some (mkFunctionDelta (Some "PlacesSearch")
                                                           (Some "{}")))] None]] None)
                   _ [] None [] [] 1
                   (mkFunctionDelta (Some "PlacesSearch") (Some "{}"))
                   _ _ _ _ _ _ _)).
  - reflexivity.
  - reflexivity.
  - reflexivity.
  - reflexivity.
  - lia.
  - reflexivity.
  - left. reflexivity.
Defined.

End AccumulationBounds.

Section ToolDispatch.
Import Llm.

(** The tools [_execute_tool] of app/src/llm.py knows. *)
Definition known_tools : list string :=
  ["PlacesSearch"; "BookingRequest"; "CallRequest"; "MessageRequest";
   "PropertySearch"].

Lemma eqb_known_false (tool_name s : string) :
  ~ In tool_name known_tools -> In s known_tools ->
  String.eqb tool_name s = false.
Proof. intros Hn Hs. apply String.eqb_neq. intros ->. contradiction. Qed.

(** X13.  A tool call whose arguments parse but whose name is none of
    the five known tools reaches the Tool Invoker, which raises; the
    tool loop turns this into a tool message for that call with the
    error payload "Unknown tool: <name>", and goes on to the remaining
    calls. *)
Theorem unknown_tool_is_reported (w : world) (self : LlmClient)
    (c : ToolCall) (calls : list ToolCall) (args : json) :
  json_loads w (arguments c) = Ok args ->
  ~ In (name c) known_tools ->
  exists results,
    outcome (run_tools w self calls) = Ok results
    /\ outcome (run_tools w self (c :: calls))
       = Ok (ToolResult (id c) (name c)
               (json_dumps w
                  (JDict [("error",
                           JStr ("Error executing tool: " +:+
                                 ("Unknown tool: " +:+ name c)))]))
             :: results)
    /\ In (Invoke (name c) args) (trace (run_tools w self (c :: calls))).
Proof.
  intros Hj Hn.
  destruct (outcome (run_tools w self calls)) as [results | e] eqn:Hr.
  2:{ pose proof (run_tools_outcome w self calls) as H. congruence. }
  exists results. split; [reflexivity |].
  cbn [run_tools]. rewrite Hj, bind_lift_ok. unfold _execute_tool.
  rewrite !(eqb_known_false (name c)) by (first [exact Hn | cbn; tauto]).
  rewrite bind_perform. cbn [lift trace outcome try_except].
  split.
  - rewrite outcome_bind. cbn [outcome mret eff_ret]. rewrite outcome_bind, Hr.
    reflexivity.
  - rewrite trace_bind. cbn [trace app]. left. reflexivity.
Qed.

Lemma unknown_tool_is_reported_witness :
  outcome (run_tools (demo_llm_world whole_name_stream) Llm.init
             [mkToolCall (Some "call_x") "LeadConfirmation" "{}"])
  = Ok [ToolResult (Some "call_x") "LeadConfirmation" "[]"].
Proof.
  destruct (unknown_tool_is_reported (demo_llm_world whole_name_stream) Llm.init
              (mkToolCall (Some "call_x") "LeadConfirmation" "{}") [] (JDict []))
    as (results & Hr & H & _).
  - reflexivity.
  - cbn. intros [H | [H | [H | [H | [H | []]]]]]; discriminate.
  - injection Hr as <-. exact H.
Defined.

(** The [try] block of the older loop for one call. *)
Definition old_attempt (w : world) (self : LlmClient) (c : ToolCall)
  : Gen (list message) :=
  args ← lift (json_loads w (arguments c));
  result ← _execute_tool_old w self (name c) args;
  mret [tool_message w c result].

Lemma old_attempt_silent w self c : fragments (trace (old_attempt w self c)) = [].
Proof.
  unfold old_attempt. destruct (json_loads w (arguments c)) as [args | e];
    [| reflexivity].
  rewrite bind_lift_ok, trace_bind. unfold _execute_tool_old.
  rewrite bind_perform. cbn [trace outcome lift].
  match goal with |- context [match ?o with _ => _ end] => destruct o end;
    reflexivity.
Qed.

Lemma run_tools_old_cons w self request c calls results :
  outcome (run_tools_old w self request calls) = Ok results ->
  run_tools_old w self request (c :: calls)
  = match outcome (old_attempt w self c) with
    | Ok appended =>
        mkEff (trace (old_attempt w self c)
               ++ trace (run_tools_old w self request calls))
          (Ok (appended ++ results))
    | Raise _ =>
        mkEff (trace (old_attempt w self c)
               ++ Yield (text_fragment request search_apology)
               :: trace (run_tools_old w self request calls))
          (Ok results)
    end.
Proof.
  intros Ho. cbn [run_tools_old]. fold (old_attempt w self c).
  unfold mbind, eff_bind, try_except.
  destruct (outcome (old_attempt w self c)) as [appended | e] eqn:Ha.
  - rewrite Ha, Ho. cbn. now rewrite app_nil_r.
  - cbn. rewrite Ho. cbn. rewrite app_nil_r, <- app_assoc. reflexivity.
Qed.

(** What the [try] block of the older loop obtains for a call: the
    result of the tool, when the arguments parse and the tool returns. *)
Definition old_result (w : world) (self : LlmClient) (c : ToolCall)
  : option json :=
  match json_loads w (arguments c) with
  | Ok args =>
      match outcome (_execute_tool_old w self (name c) args) with
      | Ok result => Some result
      | Raise _ => None
      end
  | Raise _ => None
  end.

Lemma old_attempt_outcome w self c :
  match old_result w self c with
  | Some result => outcome (old_attempt w self c) = Ok [tool_message w c result]
  | None => exists e, outcome (old_attempt w self c) = Raise e
  end.
Proof.
  unfold old_attempt, old_result.
  destruct (json_loads w (arguments c)) as [args | e]; [| eexists; reflexivity].
  rewrite bind_lift_ok, outcome_bind.
  destruct (outcome (_execute_tool_old w self (name c) args)) as [r | e];
    [reflexivity | eexists; reflexivity].
Qed.

(** X14.  The older tool loop of app/llm.py never raises either, and
    treats every call in exactly one of two ways, in the order of the
    calls: a call whose arguments parse and whose tool returns adds its
    tool message and yields nothing; any other call adds no message and
    yields one partial apology fragment instead. *)
Theorem old_tool_loop_accounts_for_calls (w : world) (self : LlmClient)
    (request : ResponseRequiredRequest) (calls : list ToolCall) :
  outcome (run_tools_old w self request calls)
  = Ok (omap (fun c => tool_message w c <$> old_result w self c) calls)
  /\ fragments (trace (run_tools_old w self request calls))
     = flat_map (fun c => match old_result w self c with
                          | Some _ => []
                          | None => [text_fragment request search_apology]
                          end) calls.
Proof.
  induction calls as [| c calls [Ho Hfr]]; [split; reflexivity |].
  rewrite (run_tools_old_cons _ _ _ _ _ _ Ho).
  pose proof (old_attempt_silent w self c) as Hs.
  pose proof (old_attempt_outcome w self c) as Hc.
  cbn [omap list_omap flat_map].
  destruct (old_result w self c) as [result |].
  - rewrite Hc. cbn [outcome trace fmap option_fmap option_map app].
    rewrite fragments_app, Hs, Hfr. split; reflexivity.
  - destruct Hc as (e & ->). cbn [outcome trace fmap option_fmap option_map].
    rewrite fragments_app, Hs.
    change (fragments (Yield ?r :: ?t)) with (r :: fragments t).
    rewrite Hfr. split; reflexivity.
Qed.

End ToolDispatch.

(* ===================================================================== *)
(** * Further properties of the teardown                                  *)
(* ===================================================================== *)

Section TeardownBounds.
Import Llm.

Definition gets (t : list io) : list nat :=
  omap (fun e => match e with Get attempt => Some attempt | _ => None end) t.

(** X15.  Without a call id, without metadata, or without a user id in
    the metadata, [cleanup] asks the call-detail endpoint nothing and
    persists nothing: it only empties the session and closes the model
    client. *)
Theorem cleanup_without_identity (b : backend) (self : LlmClient) :
  opt_truthy (call_id self) = false
  \/ metadata_truthy (metadata self) = false
  \/ opt_truthy (default ∅ (metadata self) !! "user_id") = false ->
  (cleanup b self).1 = mkEff [CloseClient] (Ok tt).
Proof.
  unfold cleanup, opt_truthy. cbn [fst].
  destruct (call_id self) as [cid |]; [| reflexivity].
  destruct (str_truthy cid); [| reflexivity].
  destruct (metadata_truthy (metadata self)); [| reflexivity].
  cbn [andb].
  destruct (default ∅ (metadata self) !! "user_id") as [uid |]; [| reflexivity].
  destruct (str_truthy uid); [| reflexivity].
  intros [H | [H | H]]; discriminate.
Qed.

Lemma cleanup_without_identity_witness :
  (cleanup (demo_backend [mkGetResponse 200 (Ok analysed_call)])
     (mkClient (Some "call_1") (Some (<["drew_id" := "d7"]> ∅)) [] [] true)).1
  = mkEff [CloseClient] (Ok tt).
Proof.
  apply cleanup_without_identity. right. right. vm_compute. reflexivity.
Defined.

(** One round of the polling loop does one of three things. *)
Lemma poll_round b cid uid drew attempt rest :
  let t := trace (poll b cid uid drew (attempt :: rest)) in
  t = [Get attempt]
  \/ (exists data, t = [Get attempt; Post data])
  \/ t = Get attempt
         :: (if (attempt <? max_retries - 1)%nat then [Sleep 2] else [])
         ++ trace (poll b cid uid drew rest).
Proof.
  cbn [poll]. rewrite bind_perform. cbn [trace].
  destruct (get_call b attempt) as [response | e]; [| left; reflexivity].
  rewrite bind_lift_ok.
  destruct (get_status response =? 200); [| left; reflexivity].
  destruct (get_json response) as [call_data | e]; [| left; reflexivity].
  rewrite bind_lift_ok.
  destruct (call_summary call_data) as [[summary |] | e];
    [| | left; reflexivity]; rewrite bind_lift_ok.
  - destruct (getitem "duration_ms" (duration_ms call_data)) as [ms | e];
      [| left; reflexivity].
    rewrite bind_lift_ok.
    destruct (div_1000 ms) as [seconds | e]; [| left; reflexivity].
    rewrite bind_lift_ok.
    destruct (py_int b uid) as [n | e]; [| left; reflexivity].
    rewrite bind_lift_ok.
    destruct (Zillow.py_int_of_float seconds) as [d | e]; [| left; reflexivity].
    rewrite bind_lift_ok.
    destruct (getitem "start_timestamp" (start_timestamp call_data)) as [ts | e];
      [| left; reflexivity].
    rewrite bind_lift_ok.
    destruct (fromtimestamp b ts) as [iso | e]; [| left; reflexivity].
    rewrite bind_lift_ok, bind_perform. cbn [trace].
    right. left. eexists. rewrite trace_bind. cbn [trace outcome lift app].
    destruct (save_communication b _); reflexivity.
  - right. right. rewrite trace_bind.
    destruct (attempt <? max_retries - 1)%nat; reflexivity.
Qed.

Lemma io_get (attempt : nat) (t : list io) :
  gets (Get attempt :: t) = attempt :: gets t
  /\ posts (Get attempt :: t) = posts t
  /\ sleeps (Get attempt :: t) = sleeps t.
Proof. repeat split. Qed.

Lemma io_sleep (seconds : Z) (t : list io) :
  gets (Sleep seconds :: t) = gets t
  /\ posts (Sleep seconds :: t) = posts t
  /\ sleeps (Sleep seconds :: t) = seconds :: sleeps t.
Proof. repeat split. Qed.

(** The polling loop asks for the attempts in order, stops for good at
    the first attempt that does not end in "no summary yet", and pauses
    only after the attempts before the last. *)
Lemma poll_bounds b cid uid drew attempts :
  let t := trace (poll b cid uid drew attempts) in
  gets t `prefix_of` attempts
  /\ (length (posts t) <= 1)%nat
  /\ Forall (fun seconds => seconds = 2) (sleeps t)
  /\ (length (sleeps t)
      <= length (List.filter (fun a => (a <? max_retries - 1)%nat) attempts))%nat.
Proof.
  induction attempts as [| attempt rest IH].
  - cbn. split; [apply prefix_nil |]. split; [lia |].
    split; [constructor | lia].
  - destruct (poll_round b cid uid drew attempt rest)
      as [-> | [(data & ->) | ->]].
    + cbn [gets posts sleeps omap list_omap length].
      split; [apply prefix_cons, prefix_nil |]. split; [lia |].
      split; [constructor | lia].
    + cbn [gets posts sleeps omap list_omap length].
      split; [apply prefix_cons, prefix_nil |]. split; [lia |].
      split; [constructor | lia].
    + destruct IH as (Hg & Hp & Hs & Hl).
      cbn [List.filter]. cbv beta.
      destruct (attempt <? max_retries - 1)%nat; cbn [app];
        repeat first [rewrite (proj1 (io_get _ _))
                     | rewrite (proj1 (proj2 (io_get _ _)))
                     | rewrite (proj2 (proj2 (io_get _ _)))
                     | rewrite (proj1 (io_sleep _ _))
                     | rewrite (proj1 (proj2 (io_sleep _ _)))
                     | rewrite (proj2 (proj2 (io_sleep _ _)))].
      * repeat split.
        -- now apply prefix_cons.
        -- exact Hp.
        -- constructor; [reflexivity | exact Hs].
        -- cbn [length]. lia.
      * repeat split; [now apply prefix_cons | exact Hp | exact Hs | exact Hl].
Qed.

(** X16.  Whatever the call-detail endpoint and the backend answer or
    raise, [cleanup] makes at most three polls, numbered 0, 1, 2 in
    order, pauses at most twice and for 2 seconds each time, makes at
    most one persistence call, and closes the model client last. *)
Theorem cleanup_is_bounded (b : backend) (self : LlmClient) :
  let t := trace (cleanup b self).1 in
  gets t `prefix_of` [0; 1; 2]%nat
  /\ (length (posts t) <= 1)%nat
  /\ Forall (fun seconds => seconds = 2) (sleeps t)
  /\ (length (sleeps t) <= 2)%nat
  /\ List.last t CloseClient = CloseClient
  /\ In CloseClient t.
Proof.
  assert (H : exists t0,
             trace (cleanup b self).1 = t0 ++ [CloseClient]
             /\ (t0 = []
                 \/ exists cid uid drew,
                     t0 = trace (poll b cid uid drew (seq 0 max_retries)))).
  { unfold cleanup. cbn [fst]. rewrite trace_bind, swallow_all.
    cbn [trace perform]. eexists. split; [reflexivity |].
    unfold try_except.
    destruct (call_id self) as [cid |]; [| left; reflexivity].
    destruct (str_truthy cid && metadata_truthy (metadata self));
      [| left; reflexivity].
    destruct (default ∅ (metadata self) !! "user_id") as [uid |];
      [| left; reflexivity].
    destruct (str_truthy uid); [| left; reflexivity].
    right. exists cid, uid, (default ∅ (metadata self) !! "drew_id").
    destruct (outcome (poll _ _ _ _ _)); cbn [trace mret eff_ret];
      now rewrite ?app_nil_r. }
  destruct H as (t0 & Ht & Hcase). cbv zeta. rewrite Ht.
  assert (Hb : gets t0 `prefix_of` [0; 1; 2]%nat
               /\ (length (posts t0) <= 1)%nat
               /\ Forall (fun seconds => seconds = 2) (sleeps t0)
               /\ (length (sleeps t0) <= 2)%nat).
  { destruct Hcase as [-> | (cid & uid & drew & ->)].
    - cbn. split; [apply prefix_nil |]. split; [lia |].
      split; [constructor | lia].
    - destruct (poll_bounds b cid uid drew (seq 0 max_retries))
        as (Hg & Hp & Hs & Hl).
      repeat split; assumption. }
  destruct Hb as (Hg & Hp & Hs & Hl).
  unfold gets, posts, sleeps in *. rewrite !omap_app. cbn [omap list_omap].
  rewrite !app_nil_r. repeat split; try assumption.
  - apply last_last.
  - apply in_or_app. right. left. reflexivity.
Qed.

End TeardownBounds.

Section ToolStatusFacts.
Import Models Tools.

(** The message of a rejected answer: its ["message"] entry, or the
    stock text. *)
Definition rejection_text (w : world) (entries : list (string * json)) : string :=
  match assoc "message" entries with
  | Some v => render w v
  | None => "Unknown error occurred"
  end.

(** X17.  Once the call time has passed the check, [CallRequest.execute]
    returns the decoded answer of the backend unchanged for the statuses
    200, 202, 300 and 404, and for any other status raises [ValueError]
    whose text is "Booking failed: " followed by the answer's message. *)
Theorem call_request_status_families (w : world) (self : CallRequest)
    (backend_url : string) (user_id : option string) (dt : datetime)
    (st : Z) (entries : list (string * json)) :
  fromisoformat w (call_time self) = Ok dt ->
  year (next_day (dt_date (now w))) <= 9999 ->
  dt_date dt = dt_date (now w) \/ dt_date dt = next_day (dt_date (now w)) ->
  post w (backend_url +:+ "/initiate_call")
    (mkCallData user_id (contact_name self) dt (discussion_points self))
  = Ok (mkResponse st (Ok (JDict entries))) ->
  outcome (execute w self backend_url user_id)
  = if bool_decide (In st [200; 202; 300; 404])
    then Ok (JDict entries)
    else Raise (Exn ValueError ("Booking failed: " +:+ rejection_text w entries)).
Proof.
  intros Hparse Hyear Hdate Hpost. unfold execute.
  rewrite Hparse, (add_one_day_ok _ Hyear). cbn [dt_date].
  apply date_in_pair in Hdate. rewrite Hdate. cbn [negb outcome].
  rewrite Hpost. cbn.
  destruct (Z.eqb_spec st 200) as [-> | H200]; [reflexivity |].
  destruct (Z.eqb_spec st 202) as [-> | H202]; [reflexivity |].
  destruct (Z.eqb_spec st 300) as [-> | H300]; [reflexivity |].
  destruct (Z.eqb_spec st 404) as [-> | H404]; [reflexivity |].
  cbn. rewrite bool_decide_eq_false_2; [reflexivity |].
  cbn. intros [H | [H | [H | [H | []]]]]; congruence.
Qed.

Lemma call_request_status_families_witness :
  outcome (execute
             (mkWorld (fun _ => Ok (mkDatetime (mkDate 2025 3 11) 8 0 0))
                (mkDatetime (mkDate 2025 3 10) 9 30 0)
                (fun _ _ => Ok (mkResponse 500
                                  (Ok (JDict [("message", JStr "lead is busy")]))))
                (fun v => match v with JStr s => s | _ => "" end))
             demo_call_request "https://backend" (Some "7"))
  = Raise (Exn ValueError "Booking failed: lead is busy").
Proof.
  rewrite (call_request_status_families _ demo_call_request "https://backend"
             (Some "7") (mkDatetime (mkDate 2025 3 11) 8 0 0) 500
             [("message", JStr "lead is busy")]).
  - reflexivity.
  - reflexivity.
  - vm_compute. discriminate.
  - right. reflexivity.
  - reflexivity.
Defined.

(** X18.  [BookingRequest.execute] posts nothing when the start time
    does not parse; otherwise it posts exactly once, whatever the date
    is, and takes the answer as a success for the statuses 202, 300 and
    404 only: status 200, which the call and message tools accept, is
    raised as "Booking failed". *)
Theorem booking_status_families (s : services) (self : BookingRequest)
    (backend_url : string) (user_id : option string) :
  (forall e, fromisoformat (base s) (b_start_time self) = Raise e ->
             book s self backend_url user_id = mkBookingRun (Raise e) [])
  /\ (forall dt st entries,
         fromisoformat (base s) (b_start_time self) = Ok dt ->
         let data := mkBookingData user_id (b_lead_name self) dt
                       (b_location self) (b_description self) in
         post_booking s (backend_url +:+ "/book_appointment") data
         = Ok (mkResponse st (Ok (JDict entries))) ->
         booking_posted (book s self backend_url user_id)
         = [(backend_url +:+ "/book_appointment", data)]
         /\ booking_outcome (book s self backend_url user_id)
            = if bool_decide (In st [202; 300; 404])
              then Ok (JDict entries)
              else Raise (Exn ValueError
                            ("Booking failed: " +:+ rejection_text (base s) entries))).
Proof.
  split.
  - intros e H. unfold book. now rewrite H.
  - intros dt st entries Hparse data Hpost. unfold book. rewrite Hparse.
    fold data. cbn [booking_posted booking_outcome]. rewrite Hpost.
    split; [reflexivity |]. cbn.
    destruct (Z.eqb_spec st 202) as [-> | H202]; [reflexivity |].
    destruct (Z.eqb_spec st 300) as [-> | H300]; [reflexivity |].
    destruct (Z.eqb_spec st 404) as [-> | H404]; [reflexivity |].
    cbn. rewrite bool_decide_eq_false_2; [reflexivity |].
    cbn. intros [H | [H | [H | []]]]; congruence.
Qed.

Definition demo_services (st : Z) : services :=
  mkServices
    (mkWorld (fun _ => Ok (mkDatetime (mkDate 2020 1 1) 8 0 0))
       (mkDatetime (mkDate 2025 3 10) 9 30 0)
       (fun _ _ => Ok (mkResponse st (Ok (JDict []))))
       (fun v => match v with JStr s => s | _ => "" end))
    "2025-03-10T17:30:00"
    (fun _ _ => Ok (mkResponse st (Ok (JDict []))))
    (fun _ _ => Ok (mkResponse st (Ok (JDict [])))).

Lemma booking_status_families_witness :
  booking_outcome (book (demo_services 200)
                     (mkBookingRequest "Ada" "2020-01-01T08:00:00" None None)
                     "https://backend" (Some "7"))
  = Raise (Exn ValueError "Booking failed: Unknown error occurred").
Proof.
  refine (proj2 (proj2 (booking_status_families (demo_services 200)
                          (mkBookingRequest "Ada" "2020-01-01T08:00:00" None None)
                          "https://backend" (Some "7"))
                   (mkDatetime (mkDate 2020 1 1) 8 0 0) 200 [] _ _));
    reflexivity.
Defined.

(** X19.  [MessageRequest.execute] always posts exactly once, with the
    message type as the model gave it (SMS, Email or anything else), and
    takes the statuses 200, 202, 300 and 404 as success; any other
    status is raised as "Failed to send message". *)
Theorem message_status_families (s : services) (self : MessageRequest)
    (backend_url : string) (user_id : option string) :
  let data := mkMessageData user_id (m_lead_name self) (m_message_type self)
                (m_message_content self) (utcnow s) in
  message_posted (send_message s self backend_url user_id)
  = [(backend_url +:+ "/send_message", data)]
  /\ forall st entries,
       post_message s (backend_url +:+ "/send_message") data
       = Ok (mkResponse st (Ok (JDict entries))) ->
       message_outcome (send_message s self backend_url user_id)
       = if bool_decide (In st [200; 202; 300; 404])
         then Ok (JDict entries)
         else Raise (Exn ValueError
                       ("Failed to send message: "
                        +:+ rejection_text (base s) entries)).
Proof.
  intros data. split; [reflexivity |].
  intros st entries Hpost. unfold send_message. fold data.
  cbn [message_outcome]. rewrite Hpost. cbn.
  destruct (Z.eqb_spec st 200) as [-> | H200]; [reflexivity |].
  destruct (Z.eqb_spec st 202) as [-> | H202]; [reflexivity |].
  destruct (Z.eqb_spec st 300) as [-> | H300]; [reflexivity |].
  destruct (Z.eqb_spec st 404) as [-> | H404]; [reflexivity |].
  cbn. rewrite bool_decide_eq_false_2; [reflexivity |].
  cbn. intros [H | [H | [H | [H | []]]]]; congruence.
Qed.

Lemma message_status_families_witness :
  message_outcome (send_message (demo_services 200)
                     (mkMessageRequest "Ada" "Carrier pigeon" "Hello")
                     "https://backend" None)
  = Ok (JDict []).
Proof.
  refine (proj2 (message_status_families (demo_services 200)
                   (mkMessageRequest "Ada" "Carrier pigeon" "Hello")
                   "https://backend" None) 200 [] _).
  reflexivity.
Defined.

End ToolStatusFacts.

Section ListingFacts.
Import Zillow Listings.
Variable float_of_str : string -> option spec_float.
Variable py_str : pyval -> string.

(** The address clean-up that both parsers apply. *)
Definition clean_address (s : string) : string :=
  join_blank (List.filter (fun part => negb (isdigit part))
                (split_blank s EmptyString)).

Fixpoint no_blank (s : string) : bool :=
  match s with
  | EmptyString => true
  | String c s' => negb (Ascii.eqb c " "%char) && no_blank s'
  end.

Lemma no_blank_app (a b : string) :
  no_blank a = true -> no_blank b = true -> no_blank (a +:+ b) = true.
Proof.
  induction a as [| c a IH]; intros Ha Hb.
  - now rewrite append_empty_l.
  - rewrite append_cons. cbn [no_blank] in *.
    apply andb_true_iff in Ha as [Hc Ha]. now rewrite Hc, IH.
Qed.

Lemma split_blank_parts (s cur : string) :
  no_blank cur = true ->
  Forall (fun part => no_blank part = true) (split_blank s cur).
Proof.
  revert cur. induction s as [| c s IH]; intros cur Hcur; cbn [split_blank].
  - now constructor.
  - destruct (Ascii.eqb c " ") eqn:Hc.
    + constructor; [exact Hcur | now apply IH].
    + apply IH. apply no_blank_app; [exact Hcur |].
      cbn [no_blank]. now rewrite Hc.
Qed.

Lemma split_blank_word (p cur : string) :
  no_blank p = true -> split_blank p cur = [cur +:+ p].
Proof.
  revert cur. induction p as [| c p IH]; intros cur Hp; cbn [split_blank].
  - now rewrite append_empty_r.
  - cbn [no_blank] in Hp. apply andb_true_iff in Hp as [Hc Hp].
    apply negb_true_iff in Hc. rewrite Hc, IH by exact Hp.
    now rewrite append_assoc, append_cons, append_empty_l.
Qed.

Lemma split_blank_word_then (p s cur : string) :
  no_blank p = true ->
  split_blank (p +:+ " " +:+ s) cur = (cur +:+ p) :: split_blank s EmptyString.
Proof.
  revert cur. induction p as [| c p IH]; intros cur Hp.
  - rewrite append_empty_l, append_cons, append_empty_l, append_empty_r.
    reflexivity.
  - cbn [no_blank] in Hp. apply andb_true_iff in Hp as [Hc Hp].
    apply negb_true_iff in Hc. rewrite append_cons. cbn [split_blank].
    rewrite Hc, IH by exact Hp.
    now rewrite append_assoc, append_cons, append_empty_l.
Qed.

(** Splitting what [join] made of blank-free parts gives the parts
    back. *)
Lemma split_join (parts : list string) :
  parts <> [] ->
  Forall (fun part => no_blank part = true) parts ->
  split_blank (join_blank parts) EmptyString = parts.
Proof.
  induction parts as [| p rest IH]; intros Hne Hall; [congruence |].
  inversion Hall as [| ? ? Hp Hrest]; subst.
  destruct rest as [| q rest].
  - cbn [join_blank]. rewrite split_blank_word by exact Hp.
    now rewrite append_empty_l.
  - change (join_blank (p :: q :: rest))
      with (p +:+ " " +:+ join_blank (q :: rest)).
    rewrite split_blank_word_then by exact Hp.
    rewrite append_empty_l, IH; [reflexivity | congruence | exact Hrest].
Qed.

Lemma filter_all {A} (f : A -> bool) (l : list A) :
  Forall (fun x => f x = true) (List.filter f l).
Proof.
  induction l as [| x l IH]; cbn [List.filter]; [constructor |].
  destruct (f x) eqn:E; [constructor |]; assumption.
Qed.

Lemma filter_keeps {A} (f : A -> bool) (l : list A) :
  Forall (fun x => f x = true) l -> List.filter f l = l.
Proof.
  induction 1 as [| x l Hx _ IH]; cbn [List.filter]; [reflexivity |].
  now rewrite Hx, IH.
Qed.

Lemma filter_sub {A} (P : A -> Prop) (f : A -> bool) (l : list A) :
  Forall P l -> Forall P (List.filter f l).
Proof.
  induction 1 as [| x l Hx _ IH]; cbn [List.filter]; [constructor |].
  destruct (f x); [constructor |]; assumption.
Qed.

(** The words of a cleaned address, and what a second clean-up does. *)
Lemma clean_address_words (s : string) :
  Forall (fun part => isdigit part = false)
    (split_blank (clean_address s) EmptyString)
  /\ clean_address (clean_address s) = clean_address s.
Proof.
  unfold clean_address.
  set (keep := fun part => negb (isdigit part)).
  set (parts := List.filter keep (split_blank s EmptyString)).
  assert (Hkeep : Forall (fun part => keep part = true) parts)
    by apply filter_all.
  assert (Hblank : Forall (fun part => no_blank part = true) parts)
    by (apply filter_sub, split_blank_parts; reflexivity).
  destruct parts as [| p rest] eqn:E.
  - split; [repeat constructor | reflexivity].
  - rewrite split_join by (congruence || assumption). split.
    + eapply Forall_impl; [exact Hkeep |].
      intros part H. unfold keep in H. now apply negb_true_iff in H.
    + now rewrite filter_keeps.
Qed.

Ltac invert_binds H :=
  repeat match type of H with
         | (?m ≫= _) = Ok _ =>
             let E := fresh "E" in
             destruct m eqn:E; [cbn in H | discriminate H]
         end.

Lemma parse_api1_prop_address (prop : gmap string pyval) (p : Property) :
  parse_api1_prop float_of_str py_str prop = Ok p ->
  address p = clean_address (get_str py_str prop "address").
Proof.
  unfold parse_api1_prop. intros H. invert_binds H.
  injection H as <-. reflexivity.
Qed.

Lemma parse_api2_prop_address (prop : gmap string pyval) (p : Property) :
  parse_api2_prop float_of_str py_str prop = Ok p ->
  address p = clean_address (get_str py_str prop "streetAddress").
Proof.
  unfold parse_api2_prop. intros H. invert_binds H.
  injection H as <-. reflexivity.
Qed.

(** X20.  The address of a listing built by either parser has no word
    made of digits only (house numbers and postal codes are dropped),
    and cleaning it once more changes nothing. *)
Theorem listing_address_has_no_number_word (prop : gmap string pyval)
    (p : Property) :
  parse_api1_prop float_of_str py_str prop = Ok p
  \/ parse_api2_prop float_of_str py_str prop = Ok p ->
  Forall (fun part => isdigit part = false)
    (split_blank (address p) EmptyString)
  /\ clean_address (address p) = address p.
Proof.
  intros [H | H];
    [apply parse_api1_prop_address in H | apply parse_api2_prop_address in H];
    rewrite H; apply clean_address_words.
Qed.

End ListingFacts.

Definition demo_float_of_str (s : string) : option spec_float := None.
Definition demo_py_str (v : Zillow.pyval) : string :=
  match v with Zillow.VStr s => s | _ => EmptyString end.
Definition demo_prop : gmap string Zillow.pyval :=
  <["address" := Zillow.VStr "12 Main St 90210"]> ∅.
Definition demo_listing : Zillow.Property :=
  Zillow.mkProperty "Main St" Zillow.zero 0 Zillow.zero Zillow.zero
    (Some Zillow.zero) (Some EmptyString) EmptyString (Some Zillow.zero)
    (Some Zillow.zero) 0 EmptyString Zillow.zero Zillow.zero.

Lemma listing_address_has_no_number_word_witness :
  Forall (fun part => Zillow.isdigit part = false)
    (Zillow.split_blank (Zillow.address demo_listing) EmptyString)
  /\ clean_address (Zillow.address demo_listing) = Zillow.address demo_listing.
Proof.
  assert (H : Zillow.parse_api1_prop demo_float_of_str demo_py_str demo_prop
              = Ok demo_listing) by (vm_compute; reflexivity).
  exact (listing_address_has_no_number_word demo_float_of_str demo_py_str
           demo_prop demo_listing (or_introl H)).
Defined.

Section SearchFacts.
Import Zillow Listings.
Variable float_of_str : string -> option spec_float.
Variable py_str : pyval -> string.

Lemma result_bind_raise {A B} (m : result A) (k : A -> result B) (e : exn) :
  m ≫= k = Raise e -> m = Raise e \/ exists a, m = Ok a /\ k a = Raise e.
Proof.
  unfold mbind, result_bind, Py.bind.
  destruct m as [a | e0]; cbv beta iota; intros H.
  - right. eauto.
  - left. injection H as <-. reflexivity.
Qed.

Lemma result_bind_ok {A B} (m : result A) (k : A -> result B) (b : B) :
  m ≫= k = Ok b -> exists a, m = Ok a /\ k a = Ok b.
Proof.
  unfold mbind, result_bind, Py.bind.
  destruct m as [a | e0]; cbv beta iota; intros H; [eauto | discriminate].
Qed.

Ltac overflow_only H :=
  repeat (apply result_bind_raise in H;
          destruct H as [H | (? & _ & H)];
          [solve [eauto using safe_int_raises_only_overflow,
                    safe_float_raises_only_overflow] | cbv beta in H]);
  discriminate H.

Lemma parse_api1_prop_raises (prop : gmap string pyval) (e : exn) :
  parse_api1_prop float_of_str py_str prop = Raise e ->
  exn_cls e = OverflowError.
Proof. unfold parse_api1_prop. intros H. overflow_only H. Qed.

Lemma parse_api2_prop_raises (prop : gmap string pyval) (e : exn) :
  parse_api2_prop float_of_str py_str prop = Raise e ->
  exn_cls e = OverflowError.
Proof. unfold parse_api2_prop. intros H. overflow_only H. Qed.

(** The entries of a result list that are dictionaries, in order. *)
Definition dicts (props : list entry) : list (gmap string pyval) :=
  omap (fun item => match item with EDict prop => Some prop | EOther => None end)
    props.

Lemma parse_entries_ok (parse_prop : gmap string pyval -> result Property)
    (props : list entry) (ps : list Property) :
  parse_entries parse_prop props = Ok ps ->
  Forall2 (fun prop p => parse_prop prop = Ok p) (dicts props) ps.
Proof.
  revert ps. induction props as [| [prop |] props IH]; intros ps H;
    cbn [parse_entries] in H.
  - injection H as <-. constructor.
  - apply result_bind_ok in H as (p & Hp & H).
    apply result_bind_ok in H as (rest & Hrest & H).
    injection H as <-. cbn. constructor; [exact Hp | now apply IH].
  - cbn. now apply IH.
Qed.

Lemma parse_entries_raise (parse_prop : gmap string pyval -> result Property)
    (props : list entry) (e : exn) :
  parse_entries parse_prop props = Raise e ->
  exists prop, In prop (dicts props) /\ parse_prop prop = Raise e.
Proof.
  induction props as [| [prop |] props IH]; intros H; cbn [parse_entries] in H.
  - discriminate.
  - apply result_bind_raise in H as [H | (p & Hp & H)].
    + exists prop. split; [now left | exact H].
    + apply result_bind_raise in H as [H | (rest & _ & H)]; [| discriminate].
      destruct (IH H) as (prop' & Hin & Hr). exists prop'.
      split; [now right | exact Hr].
  - destruct (IH H) as (prop' & Hin & Hr). exists prop'. split; assumption.
Qed.

Lemma lookup_size {A} (m : gmap string A) (k : string) (a : A) :
  m !! k = Some a -> (size m =? 0)%nat = false.
Proof.
  intros H. apply Nat.eqb_neq. apply map_size_non_empty_iff.
  intros ->. now rewrite lookup_empty in H.
Qed.

(** X21.  When the [props] entry of the first provider's answer is a
    list, [parse_api1_response] returns one listing for each element
    that is a dictionary, in the order of the list, and skips every
    other element; it raises only when the numbers of one of these
    dictionaries overflow, always with [OverflowError], and then returns
    no listing at all. *)
Theorem parse_api1_response_entries
    (lists : gmap string (option (list entry))) (props : list entry) :
  lists !! "props" = Some (Some props) ->
  match parse_api1_response float_of_str py_str (ADict lists) with
  | Ok ps =>
      Forall2 (fun prop p => parse_api1_prop float_of_str py_str prop = Ok p)
        (dicts props) ps
  | Raise e =>
      exn_cls e = OverflowError
      /\ exists prop, In prop (dicts props)
                      /\ parse_api1_prop float_of_str py_str prop = Raise e
  end.
Proof.
  intros Hprops. unfold parse_api1_response, iterate.
  rewrite (lookup_size _ _ _ Hprops), Hprops. cbn.
  destruct (parse_entries _ props) as [ps | e] eqn:E.
  - now apply parse_entries_ok.
  - destruct (parse_entries_raise _ _ _ E) as (prop & Hin & Hr).
    split; [eapply parse_api1_prop_raises; exact Hr | eauto].
Qed.

(** X22.  [PropertySearch.execute] returns either between one and three
    listings, or the result of the search with an empty list and the
    text "No listings available for the area"; it never returns an empty
    list without that text, nor more than three listings. *)
Theorem property_search_shape (api1_result api2_result : answer)
    (out : search_output) :
  property_search float_of_str py_str api1_result api2_result = Ok out ->
  (exists ps, out = Found ps /\ (1 <= length ps <= 3)%nat)
  \/ out = Nothing
             (mkSearchResult [] (Some "No listings available for the area")).
Proof.
  unfold property_search, search_properties. intros H.
  apply result_bind_ok in H as (r & Hr & H).
  apply result_bind_ok in Hr as (ps1 & _ & Hr).
  apply result_bind_ok in Hr as (ps & _ & Hr).
  injection Hr as <-. cbn [properties] in H.
  destruct ps as [| p ps]; cbn [nonempty negb] in H; cbv iota in H.
  - injection H as <-. right. reflexivity.
  - replace (slice_to 3 (p :: ps)) with (p :: take 2 ps) in H by reflexivity.
    cbn [nonempty] in H. injection H as <-. left. eexists.
    split; [reflexivity |]. cbn [length]. rewrite length_take. lia.
Qed.

(** X23.  When the first provider's answer is a dictionary that does
    not parse to the empty list, the second provider's answer has no
    influence on [search_properties]: listings of the first are
    returned at once, and a failure of the first parser is raised
    without falling back on the second. *)
Theorem first_provider_decides (api1_result api2_result api2_result' : answer)
    (limit : Z) :
  is_dict api1_result = true ->
  parse_api1_response float_of_str py_str api1_result <> Ok [] ->
  search_properties float_of_str py_str api1_result api2_result limit
  = search_properties float_of_str py_str api1_result api2_result' limit
  /\ match parse_api1_response float_of_str py_str api1_result with
     | Ok ps =>
         search_properties float_of_str py_str api1_result api2_result limit
         = Ok (mkSearchResult (slice_to limit ps) None)
     | Raise e =>
         search_properties float_of_str py_str api1_result api2_result limit
         = Raise e
     end.
Proof.
  intros Hdict Hne. unfold search_properties. rewrite Hdict.
  destruct (parse_api1_response float_of_str py_str api1_result)
    as [[| p ps] | e]; [congruence | |]; cbn; split; reflexivity.
Qed.

End SearchFacts.

Definition demo_answer : Listings.answer :=
  Listings.ADict
    (<["props" := Some [Listings.EOther; Listings.EDict demo_prop]]> ∅).

Definition failing_answer : Listings.answer :=
  Listings.ADict
    (<["results" := Some [Listings.EDict
         (<["bedrooms" := Zillow.VFloat (S754_infinity false)]> ∅)]]> ∅).

Lemma parse_api1_response_entries_witness :
  Forall2 (fun prop p =>
             Zillow.parse_api1_prop demo_float_of_str demo_py_str prop = Ok p)
    (dicts [Listings.EOther; Listings.EDict demo_prop]) [demo_listing].
Proof.
  assert (H : (<["props" := Some [Listings.EOther; Listings.EDict demo_prop]]> ∅
               : gmap string (option (list Listings.entry))) !! "props"
              = Some (Some [Listings.EOther; Listings.EDict demo_prop]))
    by (vm_compute; reflexivity).
  pose proof (parse_api1_response_entries demo_float_of_str demo_py_str _ _ H)
    as P.
  assert (E : Listings.parse_api1_response demo_float_of_str demo_py_str
                (Listings.ADict
                   (<["props" := Some [Listings.EOther;
                                       Listings.EDict demo_prop]]> ∅))
              = Ok [demo_listing]) by (vm_compute; reflexivity).
  rewrite E in P. exact P.
Defined.

Lemma property_search_shape_witness :
  (exists ps, Listings.Found [demo_listing] = Listings.Found ps
              /\ (1 <= length ps <= 3)%nat)
  \/ Listings.Found [demo_listing]
     = Listings.Nothing
         (Listings.mkSearchResult [] (Some "No listings available for the area")).
Proof.
  assert (H : Listings.property_search demo_float_of_str demo_py_str
                demo_answer Listings.AOther
              = Ok (Listings.Found [demo_listing]))
    by (vm_compute; reflexivity).
  exact (property_search_shape demo_float_of_str demo_py_str demo_answer
           Listings.AOther _ H).
Defined.

Lemma first_provider_decides_witness :
  Listings.search_properties demo_float_of_str demo_py_str demo_answer
    failing_answer 3
  = Listings.search_properties demo_float_of_str demo_py_str demo_answer
      Listings.AOther 3.
Proof.
  assert (H : Listings.parse_api1_response demo_float_of_str demo_py_str
                demo_answer <> Ok [])
    by (vm_compute; discriminate).
  exact (proj1 (first_provider_decides demo_float_of_str demo_py_str
                  demo_answer failing_answer Listings.AOther 3 eq_refl H)).
Defined.

Section WebhookFacts.
Import Webhook.

(** X24.  [handle_webhook] answers with one of three fixed responses
    (200, 401, 500) and never raises.  It answers 200 only when the
    signature was verified and the body has an [event]; it answers 401
    only when verification returned false and the body names both its
    event and its call, so an unsigned body without them gets 500. *)
Theorem webhook_accepts_only_verified (verify : json -> string -> result bool)
    (request : Request) :
  let response := handle_webhook verify request in
  let verified (b : bool) :=
    exists post_data,
      req_json request = Ok post_data
      /\ verify post_data (header_str (req_signature request)) = Ok b
      /\ exists event, subscript post_data "event" = Ok event in
  (response = mkJSONResponse 200 [("received", JBool true)]
   /\ verified true)
  \/ (response = mkJSONResponse 401 [("message", JStr "Unauthorized")]
      /\ verified false
      /\ exists post_data call_id,
           req_json request = Ok post_data
           /\ call_id_of post_data = Ok call_id)
  \/ response = mkJSONResponse 500 [("message", JStr "Internal Server Error")].
Proof.
  cbv zeta. unfold handle_webhook.
  destruct (req_json request) as [post_data | e]; [| right; right; reflexivity].
  change (Ok post_data ≫= ?k) with (k post_data). cbv beta.
  destruct (verify post_data (header_str (req_signature request)))
    as [valid | e] eqn:Hverify; [| right; right; reflexivity].
  change (Ok valid ≫= ?k) with (k valid). cbv beta.
  destruct (subscript post_data "event") as [event | e] eqn:Hevent;
    [| destruct valid; right; right; reflexivity].
  destruct valid; cbn [negb]; cbv iota.
  - change (Ok event ≫= ?k) with (k event). cbv beta.
    destruct (if is_str event "call_started" then call_id_of post_data
              else if is_str event "call_ended" then call_id_of post_data
              else if is_str event "call_analyzed" then call_id_of post_data
              else Ok event) as [x | e]; [| right; right; reflexivity].
    left. split; [reflexivity |]. exists post_data. eauto.
  - change (Ok event ≫= ?k) with (k event). cbv beta.
    destruct (call_id_of post_data) as [call_id | e] eqn:Hcall;
      [| right; right; reflexivity].
    right. left. split; [reflexivity |]. split.
    + exists post_data. eauto.
    + exists post_data, call_id. eauto.
Qed.

End WebhookFacts.
